(** * memquery.c: reading [/proc/meminfo]

    A shallow embedding of [getAvailableMemory] and of [main]
    (src/sources/memquery.c) and of the C library calls they make
    ([fopen], [fgets], [sscanf], [fclose], [printf]), followed by the
    properties of the two.

    Conventions.
    - [long] is the 64-bit two's complement integer of LP64 Linux, carried
      as a [Z]; [%ld] saturates on overflow as glibc's [strtol] does, and
      the product of line 69 wraps around.
    - The caller's [long] cells live in a heap [gmap loc Z]; a pointer is
      an [option loc], [None] being [NULL].
    - The file is a string of characters; [fgets] hands it out in buffers
      of at most 511 characters, each ending at a newline when one is
      met.  Such a buffer is what the routine treats as a line.
    - Every library call on the file is recorded in a log, so that what
      the routine did (and did not do) to its source can be stated.
    - The locals of [main] are cells of the same heap, at addresses of
      their own, holding indeterminate values at the start; what [main]
      writes is kept with the world.

    Layout: the library model, the world, the routine, the notions the
    properties are stated with; then the facts that reduce a call to a
    fold over the buffers read; then the properties, each with an
    instance on a concrete source. *)

From Stdlib Require Import ZArith String Ascii List Lia Bool Permutation.
From Stdlib Require Import DecimalString DecimalN DecimalPos.
From stdpp Require Import base option list gmap.

Local Open Scope string_scope.
Local Open Scope Z_scope.

#[local] Arguments String.append !_ _ / : simpl nomatch.

(* ===================================================================== *)
(** ** The C library, as far as the routine uses it *)
(* ===================================================================== *)

Module CLib.

(** *** [long] *)

Definition LONG_MAX : Z := 2 ^ 63 - 1.
Definition LONG_MIN : Z := - 2 ^ 63.

Definition in_long (z : Z) : Prop := LONG_MIN <= z <= LONG_MAX.

(** What [strtol] stores for a numeral whose value is [z]. *)
Definition long_saturate (z : Z) : Z := Z.max LONG_MIN (Z.min LONG_MAX z).

(** Two's complement reduction to 64 bits. *)
Definition long_wrap (z : Z) : Z := (z + 2 ^ 63) mod 2 ^ 64 - 2 ^ 63.

Definition long_mul (a b : Z) : Z := long_wrap (a * b).

(** *** Character classes ("C" locale) *)

Definition newline : ascii := "010"%char.

Definition isspace (c : ascii) : bool :=
  let n := nat_of_ascii c in
  ((9 <=? n) && (n <=? 13))%nat || (n =? 32)%nat.

Definition isdigit (c : ascii) : bool :=
  let n := nat_of_ascii c in
  ((48 <=? n) && (n <=? 57))%nat.

Definition digit_value (c : ascii) : Z := Z.of_nat (nat_of_ascii c) - 48.

(** *** [sscanf] *)

Fixpoint skip_space (s : string) : string :=
  match s with
  | String c s' => if isspace c then skip_space s' else s
  | EmptyString => s
  end.

(** The longest run of digits at the head of [s], accumulated in base
    ten onto [acc]; what follows it is returned too. *)
Fixpoint scan_digits (s : string) (acc : Z) : Z * string :=
  match s with
  | String c s' =>
      if isdigit c then scan_digits s' (acc * 10 + digit_value c)
      else (acc, s)
  | EmptyString => (acc, s)
  end.

Definition starts_with_digit (s : string) : bool :=
  match s with
  | String c _ => isdigit c
  | EmptyString => false
  end.

(** The subject sequence of [%ld], white space already skipped: an
    optional sign and at least one digit. *)
Definition scan_long (s : string) : option (Z * string) :=
  let '(negative, body) :=
    match s with
    | String "-" s' => (true, s')
    | String "+" s' => (false, s')
    | _ => (false, s)
    end in
  if starts_with_digit body then
    let '(magnitude, rest) := scan_digits body 0 in
    Some (long_saturate (if negative : bool then - magnitude else magnitude), rest)
  else None.

(** A format is a sequence of directives.  Only [%ld] is a conversion
    here: it is the only one the routine's formats contain. *)
Inductive directive : Type :=
| DLit (c : ascii)
| DSpace
| DLong.

Fixpoint parse_format (fmt : string) : list directive :=
  match fmt with
  | EmptyString => []
  | String "%" (String "l" (String "d" rest)) => DLong :: parse_format rest
  | String c rest =>
      (if isspace c then DSpace else DLit c) :: parse_format rest
  end.

Definition EOF : Z := -1.

(** [run_format ds s n v]: the directives [ds] against the input [s],
    [n] conversions done so far, [v] the last value stored.  The result
    is [sscanf]'s return value and the content of the output cell
    ([None] while nothing has been stored in it). *)
Fixpoint run_format (ds : list directive) (s : string)
         (n : Z) (v : option Z) : Z * option Z :=
  match ds with
  | [] => (n, v)
  | DSpace :: ds' => run_format ds' (skip_space s) n v
  | DLit c :: ds' =>
      match s with
      | EmptyString => (if n =? 0 then EOF else n, v)
      | String c' s' =>
          if Ascii.eqb c c' then run_format ds' s' n v else (n, v)
      end
  | DLong :: ds' =>
      match skip_space s with
      | EmptyString => (if n =? 0 then EOF else n, v)
      | s1 =>
          match scan_long s1 with
          | None => (n, v)
          | Some (z, s2) => run_format ds' s2 (n + 1) (Some z)
          end
      end
  end.

(** A C string ends at its first NUL. *)
Fixpoint c_str (buf : string) : string :=
  match buf with
  | String c s' => if Ascii.eqb c zero then EmptyString else String c (c_str s')
  | EmptyString => EmptyString
  end.

(** [sscanf buf fmt] for a format with one [%ld]: the value stored when
    the call returns 1, [None] when it returns anything else. *)
Definition sscanf (buf fmt : string) : option Z :=
  let '(n, v) := run_format (parse_format fmt) (c_str buf) 0 None in
  if n =? 1 then v else None.

(** *** [fgets] *)

(** At most [k] characters off the front of [s], stopping after a
    newline. *)
Fixpoint read_chars (k : nat) (s : string) : string * string :=
  match k, s with
  | S k', String c s' =>
      if Ascii.eqb c newline then (String c EmptyString, s')
      else let '(l, r) := read_chars k' s' in (String c l, r)
  | _, _ => (EmptyString, s)
  end.

(** [fgets buf size f] on a stream whose unread part is [s]: [None] at
    end of file, else the buffer and the new unread part. *)
Definition fgets (size : nat) (s : string) : option (string * string) :=
  match s with
  | EmptyString => None
  | _ => Some (read_chars (size - 1) s)
  end.

End CLib.

Import CLib.

(* ===================================================================== *)
(** ** The world the routine runs in *)
(* ===================================================================== *)

Definition loc : Type := positive.

(** A [long *]: [None] is [NULL]. *)
Definition ptr : Type := option loc.

Definition is_null (p : ptr) : bool :=
  match p with None => true | Some _ => false end.

(** Library calls, as they are logged. *)
Inductive event : Type :=
| EvFopen (ok : bool)
| EvFgets (buf : option string)
| EvFclose.

Record world : Type := World {
  heap : gmap loc Z;         (* the caller's long cells *)
  meminfo : string;          (* what /proc/meminfo holds *)
  readable : bool;           (* whether it can be opened for reading *)
  stream : option string;    (* unread part of the open stream, if any *)
  log : list event
}.

Definition M (A : Type) : Type := world -> A * world.

Definition ret {A} (x : A) : M A := fun w => (x, w).

Definition bind {A B} (m : M A) (k : A -> M B) : M B :=
  fun w => let '(x, w') := m w in k x w'.

Declare Scope monad_scope.
Delimit Scope monad_scope with monad.
Notation "x <- m ;; k" := (bind m (fun x => k))
  (at level 100, m at next level, k at level 200, right associativity) : monad_scope.
Notation "m ;; k" := (bind m (fun _ => k))
  (at level 100, k at level 200, right associativity) : monad_scope.
Local Open Scope monad_scope.

Definition emit (e : event) (w : world) : world :=
  World (heap w) (meminfo w) (readable w) (stream w) (log w ++ [e])%list.

(** [*p = v] *)
Definition store (p : loc) (v : Z) : M unit := fun w =>
  (tt, World (<[p := v]> (heap w)) (meminfo w) (readable w) (stream w) (log w)).

(** [*p]; the routine reads a cell only after it has written it, so the
    value given for a cell without content is never looked at. *)
Definition load (p : loc) : M Z := fun w => (default 0 (heap w !! p), w).

(** [fopen("/proc/meminfo", "r")]: [true] stands for a stream, [false]
    for [NULL]. *)
Definition fopen_meminfo : M bool := fun w =>
  if readable w
  then (true, World (heap w) (meminfo w) (readable w) (Some (meminfo w))
                    (log w ++ [EvFopen true])%list)
  else (false, emit (EvFopen false) w).

(** [fgets(lineBuffer, size, meminfoFile)]: the buffer, or [None] for
    [NULL]. *)
Definition fgets_stream (size : nat) : M (option string) := fun w =>
  match stream w with
  | Some unread =>
      match fgets size unread with
      | Some (buf, unread') =>
          (Some buf, World (heap w) (meminfo w) (readable w) (Some unread')
                           (log w ++ [EvFgets (Some buf)])%list)
      | None => (None, emit (EvFgets None) w)
      end
  | None => (None, emit (EvFgets None) w)
  end.

Definition fclose_stream : M unit := fun w =>
  (tt, World (heap w) (meminfo w) (readable w) None (log w ++ [EvFclose])%list).

(** Characters left to read; it bounds the number of turns of the loop. *)
Definition unread_length : M nat := fun w =>
  (match stream w with Some s => String.length s | None => O end, w).

(* ===================================================================== *)
(** ** getAvailableMemory *)
(* ===================================================================== *)

(** The three [hugeTlb...] variables of lines 14-16. *)
Record locals : Type := Locals {
  hugeTlbTotalPages : Z;
  hugeTlbFreePages : Z;
  hugeTlbPageSize : Z
}.

(** Lines 34-45: the cascade of [sscanf] calls on one buffer. *)
Definition match_line (availableMemoryKb freeSwapKb : loc)
           (lineBuffer : string) (lv : locals) : M locals :=
  match sscanf lineBuffer "MemAvailable: %ld kB" with
  | Some value => store availableMemoryKb value ;; ret lv
  | None =>
  match sscanf lineBuffer "SwapFree: %ld kB" with
  | Some value => store freeSwapKb value ;; ret lv
  | None =>
  match sscanf lineBuffer "HugePages_Total: %ld" with
  | Some value => ret (Locals value (hugeTlbFreePages lv) (hugeTlbPageSize lv))
  | None =>
  match sscanf lineBuffer "HugePages_Free: %ld" with
  | Some value => ret (Locals (hugeTlbTotalPages lv) value (hugeTlbPageSize lv))
  | None =>
  match sscanf lineBuffer "Hugepagesize: %ld kB" with
  | Some value => ret (Locals (hugeTlbTotalPages lv) (hugeTlbFreePages lv) value)
  | None => ret lv
  end end end end end.

(** Lines 48-54: the condition under which the loop is left. *)
Definition early_exit (a s : Z) (hugePagesInfoKb : ptr) (lv : locals) : bool :=
  (negb (a =? -1) && negb (s =? -1)) &&
  (is_null hugePagesInfoKb ||
   (negb (hugeTlbTotalPages lv =? -1) &&
    negb (hugeTlbFreePages lv =? -1) &&
    negb (hugeTlbPageSize lv =? -1))).

(** Lines 33-55.  [fuel] bounds the turns; [getAvailableMemory] gives one
    more than the number of unread characters, which is never used up
    ([read_loop_run]). *)
Fixpoint read_loop (fuel : nat) (availableMemoryKb freeSwapKb : loc)
         (hugePagesInfoKb : ptr) (lv : locals) : M locals :=
  match fuel with
  | O => ret lv
  | S fuel' =>
      r <- fgets_stream 512 ;;
      match r with
      | None => ret lv
      | Some lineBuffer =>
          lv' <- match_line availableMemoryKb freeSwapKb lineBuffer lv ;;
          a <- load availableMemoryKb ;;
          s <- load freeSwapKb ;;
          if early_exit a s hugePagesInfoKb lv' then ret lv'
          else read_loop fuel' availableMemoryKb freeSwapKb hugePagesInfoKb lv'
      end
  end.

Definition getAvailableMemory
           (availableMemoryKb freeSwapKb hugePagesInfoKb : ptr) : M Z :=
  match availableMemoryKb, freeSwapKb with
  | Some pa, Some ps =>
      meminfoFile <- fopen_meminfo ;;
      if meminfoFile : bool then
        store pa (-1) ;;
        store ps (-1) ;;
        match hugePagesInfoKb with
        | Some ph => store ph 0
        | None => ret tt
        end ;;
        n <- unread_length ;;
        lv <- read_loop (S n) pa ps hugePagesInfoKb (Locals (-1) (-1) (-1)) ;;
        fclose_stream ;;
        a <- load pa ;;
        s <- load ps ;;
        if (a =? -1) || (s =? -1) then ret 1
        else
          match hugePagesInfoKb with
          | Some ph =>
              if (hugeTlbTotalPages lv >? 0) &&
                 negb (hugeTlbFreePages lv =? -1) &&
                 negb (hugeTlbPageSize lv =? -1)
              then store ph (long_mul (hugeTlbFreePages lv) (hugeTlbPageSize lv))
              else ret tt
          | None => ret tt
          end ;;
          ret 0
      else ret 1
  | _, _ => ret 1
  end.

(** *** Calling the routine *)

(** The world before a call: nothing open, nothing logged. *)
Definition before (h : gmap loc Z) (content : string) (can_open : bool) : world :=
  World h content can_open None [].

(** What the caller sees of an outcome: the return code, the content of
    a cell, and (through the log) the buffers that were read. *)
Definition code (o : Z * world) : Z := fst o.

Definition cell (o : Z * world) (p : loc) : option Z := heap (snd o) !! p.

(** A call with non-null mandatory pointers, from a world where nothing
    is open yet. *)
Abbreviation call pa ps hp h content can_open :=
  (getAvailableMemory (Some pa) (Some ps) hp (before h content can_open)).

Definition nl : string := String newline EmptyString.

(** A text made of the given lines, each closed by a newline. *)
Fixpoint text (ls : list string) : string :=
  match ls with
  | [] => EmptyString
  | l :: ls' => l ++ nl ++ text ls'
  end.

Definition example_source : string :=
  text [ "MemAvailable:    524288 kB";
         "SwapFree:        131072 kB";
         "HugePages_Total:      4";
         "HugePages_Free:       2";
         "Hugepagesize:      2048 kB" ].

(* ===================================================================== *)
(** ** Formats, buffers and lines *)
(* ===================================================================== *)

(** The five formats of lines 35-43. *)
Definition fmt_MemAvailable : string := "MemAvailable: %ld kB".
Definition fmt_SwapFree : string := "SwapFree: %ld kB".
Definition fmt_HugePages_Total : string := "HugePages_Total: %ld".
Definition fmt_HugePages_Free : string := "HugePages_Free: %ld".
Definition fmt_Hugepagesize : string := "Hugepagesize: %ld kB".

Definition formats : list string :=
  [fmt_MemAvailable; fmt_SwapFree; fmt_HugePages_Total; fmt_HugePages_Free;
   fmt_Hugepagesize].

(** The literal text that heads each format. *)
Definition label_of (fmt : string) : string :=
  if String.eqb fmt fmt_MemAvailable then "MemAvailable:"
  else if String.eqb fmt fmt_SwapFree then "SwapFree:"
  else if String.eqb fmt fmt_HugePages_Total then "HugePages_Total:"
  else if String.eqb fmt fmt_HugePages_Free then "HugePages_Free:"
  else "Hugepagesize:".

(** What is left of [s] once the literal text [l] has been read off
    its head. *)
Fixpoint strip_prefix (l s : string) : option string :=
  match l with
  | EmptyString => Some s
  | String c l' =>
      match s with
      | String c' s' => if Ascii.eqb c c' then strip_prefix l' s' else None
      | EmptyString => None
      end
  end.

Fixpoint lits (l : string) : list directive :=
  match l with
  | EmptyString => []
  | String c l' => DLit c :: lits l'
  end.

(** What [sscanf] comes to for a format made of a label, white space,
    [%ld], and then anything without a conversion ([sscanf_scan_field]):
    the label must head the buffer and a numeral must follow, after
    optional white space. *)
Definition scan_field (label buf : string) : option Z :=
  match strip_prefix label (c_str buf) with
  | Some r => fst <$> scan_long (skip_space r)
  | None => None
  end.

(** Whether a format accepts a buffer. *)
Definition accepts (fmt b : string) : bool :=
  match sscanf b fmt with
  | Some _ => true
  | None => false
  end.

(** A buffer that carries one of the two mandatory fields. *)
Definition mandatory_line (b : string) : bool :=
  accepts fmt_MemAvailable b || accepts fmt_SwapFree b.

(** A buffer no format accepts. *)
Definition unrecognized (b : string) : bool :=
  forallb (fun fmt => negb (accepts fmt b)) formats.

(** The buffers that successive calls of [fgets] deliver, until it
    returns [NULL]: the lines of the source as the routine sees them.  A
    line of the file longer than 511 characters comes in several
    buffers. *)
Fixpoint buffers (fuel : nat) (s : string) : list string :=
  match fuel with
  | O => []
  | S fuel' =>
      match fgets 512 s with
      | Some (b, r) => b :: buffers fuel' r
      | None => []
      end
  end.

Definition fgets_lines (s : string) : list string :=
  buffers (String.length s) s.

(** The unread part of a stream after [n] more buffers. *)
Fixpoint skip_buffers (n : nat) (s : string) : string :=
  match n with
  | O => s
  | S n' =>
      match fgets 512 s with
      | Some (_, r) => skip_buffers n' r
      | None => s
      end
  end.

Fixpoint spaces (n : nat) : string :=
  match n with
  | O => EmptyString
  | S n' => String " " (spaces n')
  end.

(** The decimal numeral of a non-negative integer. *)
Definition decimal (x : Z) : string :=
  NilEmpty.string_of_uint (N.to_uint (Z.to_N x)).

(** The buffer [fgets] delivers for a line [label: x kB] of the source,
    with [pad] blanks before the number. *)
Definition field_line (label : string) (pad : nat) (x : Z) : string :=
  (label ++ ":" ++ spaces pad ++ decimal x ++ " kB" ++ nl)%string.

(** A line of text that fits a buffer with its newline: at most 510
    characters, none of them a newline. *)
Fixpoint no_newline (l : string) : bool :=
  match l with
  | EmptyString => true
  | String c l' => negb (Ascii.eqb c newline) && no_newline l'
  end.

Definition short_line (l : string) : bool :=
  (String.length l <=? 510)%nat && no_newline l.

(* ===================================================================== *)
(** ** Fields, as the buffers read define them *)
(* ===================================================================== *)

(** The value a format finds in a buffer, [d] if it finds none. *)
Definition pick (fmt b : string) (d : Z) : Z :=
  match sscanf b fmt with
  | Some v => v
  | None => d
  end.

(** The value of the last buffer of [lines] that the format accepts,
    [d] if there is none. *)
Definition last_value (fmt : string) (lines : list string) (d : Z) : Z :=
  fold_left (fun v b => pick fmt b v) lines d.

(** A field starts at the sentinel -1, and is resolved when it holds
    anything else. *)
Definition field_value (fmt : string) (lines : list string) : Z :=
  last_value fmt lines (-1).

Definition resolved (fmt : string) (lines : list string) : bool :=
  negb (field_value fmt lines =? -1).

(** The three huge-page fields. *)
Definition totalPages (lines : list string) : Z :=
  field_value fmt_HugePages_Total lines.
Definition freePages (lines : list string) : Z :=
  field_value fmt_HugePages_Free lines.
Definition pageSizeKb (lines : list string) : Z :=
  field_value fmt_Hugepagesize lines.

(** All three resolved, and a positive number of pages. *)
Definition huge_pages_known (lines : list string) : bool :=
  resolved fmt_HugePages_Total lines &&
  resolved fmt_HugePages_Free lines &&
  resolved fmt_Hugepagesize lines &&
  (0 <? totalPages lines).

(** The condition of lines 48-53 over the buffers read so far: both
    mandatory fields resolved and, when huge pages are asked for, the
    three huge-page fields too. *)
Definition exit_condition (hp : ptr) (lines : list string) : bool :=
  (resolved fmt_MemAvailable lines && resolved fmt_SwapFree lines) &&
  match hp with
  | None => true
  | Some _ =>
      resolved fmt_HugePages_Total lines &&
      resolved fmt_HugePages_Free lines &&
      resolved fmt_Hugepagesize lines
  end.

(** Whether [lines] has a resolvable entry for a format: a buffer the
    format accepts, with a value other than the sentinel. *)
Definition has_entry (fmt : string) (lines : list string) : bool :=
  existsb (fun b => negb (pick fmt b (-1) =? -1)) lines.

(** A buffer that gives -1 to a field, and one that gives it to neither
    mandatory field. *)
Definition gives_sentinel (fmt b : string) : Prop := sscanf b fmt = Some (-1).

Definition sentinel_free (b : string) : bool :=
  match sscanf b fmt_MemAvailable, sscanf b fmt_SwapFree with
  | Some v, _ | None, Some v => negb (v =? -1)
  | None, None => true
  end.

(** A buffer whose mandatory value, if it has one, is not negative. *)
Definition nonneg_entries (b : string) : bool :=
  (0 <=? pick fmt_MemAvailable b 0) && (0 <=? pick fmt_SwapFree b 0).

(** The buffers a log says were read, and those an outcome's log says
    were read. *)
Definition lines_read (lg : list event) : list string :=
  omap (fun e => match e with EvFgets (Some b) => Some b | _ => None end) lg.

Definition lines_of (o : Z * world) : list string := lines_read (log (snd o)).

(* ===================================================================== *)
(** ** The scan as a function of the buffers *)
(* ===================================================================== *)

(** These definitions restate the loop over a list of buffers; the
    routine is shown to run as they say ([read_loop_run],
    [getAvailableMemory_opened]). *)

(** The five quantities the loop keeps track of: the two output cells
    and the three local variables. *)
Record tracked : Type := Tracked {
  t_avail : Z;
  t_swap : Z;
  t_hugetlb : locals
}.

Definition unset : tracked := Tracked (-1) (-1) (Locals (-1) (-1) (-1)).

(** The effect of one buffer on them. *)
Definition update (b : string) (t : tracked) : tracked :=
  match sscanf b fmt_MemAvailable with
  | Some v => Tracked v (t_swap t) (t_hugetlb t)
  | None =>
  match sscanf b fmt_SwapFree with
  | Some v => Tracked (t_avail t) v (t_hugetlb t)
  | None =>
  match sscanf b fmt_HugePages_Total with
  | Some v => Tracked (t_avail t) (t_swap t)
                (Locals v (hugeTlbFreePages (t_hugetlb t)) (hugeTlbPageSize (t_hugetlb t)))
  | None =>
  match sscanf b fmt_HugePages_Free with
  | Some v => Tracked (t_avail t) (t_swap t)
                (Locals (hugeTlbTotalPages (t_hugetlb t)) v (hugeTlbPageSize (t_hugetlb t)))
  | None =>
  match sscanf b fmt_Hugepagesize with
  | Some v => Tracked (t_avail t) (t_swap t)
                (Locals (hugeTlbTotalPages (t_hugetlb t)) (hugeTlbFreePages (t_hugetlb t)) v)
  | None => t
  end end end end end.

Definition satisfied (hp : ptr) (t : tracked) : bool :=
  early_exit (t_avail t) (t_swap t) hp (t_hugetlb t).

Definition state_after (lines : list string) (t : tracked) : tracked :=
  fold_left (fun t b => update b t) lines t.

(** The buffers the loop reads out of [lines], starting from [t]: up to
    and including the first one that makes the exit condition hold. *)
Fixpoint scanned (hp : ptr) (lines : list string) (t : tracked) : list string :=
  match lines with
  | [] => []
  | b :: bs =>
      if satisfied hp (update b t) then [b]
      else b :: scanned hp bs (update b t)
  end.

(** Whether the loop is left by [break] rather than at end of file. *)
Fixpoint stopped (hp : ptr) (lines : list string) (t : tracked) : bool :=
  match lines with
  | [] => false
  | b :: bs => satisfied hp (update b t) || stopped hp bs (update b t)
  end.

(** The calls of [fgets] in the log: one for each buffer read and, unless
    the loop was left by [break], the one that returned [NULL]. *)
Definition read_events (lines : list string) (by_break : bool) : list event :=
  (map (fun b => EvFgets (Some b)) lines
   ++ (if by_break then [] else [EvFgets None]))%list.

(** The heap while the loop runs: the two output cells over [h0]. *)
Definition cells (pa ps : loc) (h0 : gmap loc Z) (t : tracked) : gmap loc Z :=
  <[pa := t_avail t]> (<[ps := t_swap t]> h0).

(** Lines 60-62. *)
Definition result_code (t : tracked) : Z :=
  if (t_avail t =? -1) || (t_swap t =? -1) then 1 else 0.

(** Lines 65-70: what the huge-page cell holds after a successful call. *)
Definition huge_free_kb (lv : locals) : Z :=
  if (hugeTlbTotalPages lv >? 0) &&
     negb (hugeTlbFreePages lv =? -1) &&
     negb (hugeTlbPageSize lv =? -1)
  then long_mul (hugeTlbFreePages lv) (hugeTlbPageSize lv)
  else 0.

(** The heap a call leaves, once the source has been opened. *)
Definition final_heap (pa ps : loc) (hp : ptr) (h : gmap loc Z) (t : tracked)
  : gmap loc Z :=
  match hp with
  | Some ph =>
      <[ph := if result_code t =? 0 then huge_free_kb (t_hugetlb t) else 0]>
        (<[pa := t_avail t]> (<[ps := t_swap t]> h))
  | None => <[pa := t_avail t]> (<[ps := t_swap t]> h)
  end.

(** The buffers a call reads from a source, and the state they leave. *)
Definition lines_scanned (hp : ptr) (content : string) : list string :=
  scanned hp (fgets_lines content) unset.

Definition final_state (hp : ptr) (content : string) : tracked :=
  state_after (lines_scanned hp content) unset.

Definition left_by_break (hp : ptr) (content : string) : bool :=
  stopped hp (fgets_lines content) unset.

(* ===================================================================== *)
(** ** Requirements, as the specification words them *)
(* ===================================================================== *)

(** Failure, or success with both mandatory cells holding valid values,
    for a given notion of a valid value. *)
Definition failed_or_both (valid : Z -> Prop) (o : Z * world) (pa ps : loc) : Prop :=
  code o = 1 \/
  (code o = 0 /\
   exists x y, cell o pa = Some x /\ cell o ps = Some y /\ valid x /\ valid y).

(** Failure exactly when the source lacks a resolvable entry for one of
    the two mandatory fields. *)
Definition fails_iff_entry_missing (o : Z * world) (lines : list string) : Prop :=
  code o = 1 <->
  has_entry fmt_MemAvailable lines = false \/ has_entry fmt_SwapFree lines = false.

(** After a failure a mandatory cell holds nothing taken from the source:
    it is as it was before the call, or holds the sentinel. *)
Definition nothing_returned (h : gmap loc Z) (o : Z * world) (p : loc) : Prop :=
  cell o p = h !! p \/ cell o p = Some (-1).

Definition no_result_on_failure (h : gmap loc Z) (o : Z * world) (pa ps : loc) : Prop :=
  code o <> 0 -> nothing_returned h o pa /\ nothing_returned h o ps.

(** The lines of a text: what stands between its newlines. *)
Fixpoint source_lines (s : string) : list string :=
  match s with
  | EmptyString => []
  | String c s' =>
      if Ascii.eqb c newline then EmptyString :: source_lines s'
      else match source_lines s' with
           | [] => [String c EmptyString]
           | l :: ls => String c l :: ls
           end
  end.

(** A well-formed line for a field in kilobytes: the label, a colon,
    blanks, the number and the unit. *)
Definition well_formed_line (label : string) (pad : nat) (x : Z) : string :=
  (label ++ ":" ++ spaces pad ++ decimal x ++ " kB")%string.

(** A source whose lines include a well-formed [MemAvailable: X kB] and a
    well-formed [SwapFree: Y kB], [X] and [Y] non-negative, in any order,
    the other lines being unrecognized. *)
Definition includes_mandatory_lines (content : string) (X Y : Z) : Prop :=
  0 <= X /\ 0 <= Y /\
  exists padX padY others,
    Permutation (source_lines content)
                (well_formed_line "MemAvailable" padX X
                 :: well_formed_line "SwapFree" padY Y :: others) /\
    Forall (fun l => unrecognized l = true) others.

(** Success, with exactly the two values of such lines in the two
    mandatory cells. *)
Definition mandatory_values_as_written
           (o : Z * world) (content : string) (pa ps : loc) : Prop :=
  forall X Y,
    includes_mandatory_lines content X Y ->
    code o = 0 /\ cell o pa = Some X /\ cell o ps = Some Y.

(** The value that the last buffer accepted by a format gave to its
    field, if a buffer was accepted at all: a field is observed, or
    resolved in the plain sense, once a line has given it a value. *)
Definition observed (fmt : string) (lines : list string) : option Z :=
  fold_left (fun o b => match sscanf b fmt with Some v => Some v | None => o end)
            lines None.

Definition given (o : option Z) : bool :=
  match o with Some _ => true | None => false end.

(** After a success the huge-page cell holds free pages times page size
    when the three huge-page fields were observed and the total is
    positive, and 0 in every other case. *)
Definition huge_pages_as_observed (o : Z * world) (ph : loc) : Prop :=
  code o = 0 ->
  cell o ph
  = Some (match observed fmt_HugePages_Total (lines_of o),
                observed fmt_HugePages_Free (lines_of o),
                observed fmt_Hugepagesize (lines_of o) with
          | Some t, Some f, Some s => if 0 <? t then f * s else 0
          | _, _, _ => 0
          end).

(** Both mandatory fields observed and, when huge pages are asked for,
    the three huge-page fields too. *)
Definition all_observed (hp : ptr) (lines : list string) : bool :=
  given (observed fmt_MemAvailable lines) &&
  given (observed fmt_SwapFree lines) &&
  match hp with
  | None => true
  | Some _ =>
      given (observed fmt_HugePages_Total lines) &&
      given (observed fmt_HugePages_Free lines) &&
      given (observed fmt_Hugepagesize lines)
  end.

(** The scan stops once that holds: no buffer is read after buffers on
    which it holds. *)
Definition stops_once_observed (hp : ptr) (o : Z * world) : Prop :=
  forall k, (k < List.length (lines_of o))%nat ->
            all_observed hp (take k (lines_of o)) = false.

(** A well-formed integer value: after optional blanks an optional sign
    and digits, then nothing but an optional unit [kB] and blanks. *)
Fixpoint after_digits (s : string) : string :=
  match s with
  | String c s' => if isdigit c then after_digits s' else s
  | EmptyString => s
  end.

Definition after_integer (s : string) : option string :=
  let body :=
    match s with
    | String "-" s' => s'
    | String "+" s' => s'
    | _ => s
    end in
  if starts_with_digit body then Some (after_digits body) else None.

Definition blank (s : string) : bool := String.eqb (skip_space s) EmptyString.

Definition well_formed_value (value : string) : bool :=
  match after_integer (skip_space value) with
  | Some tail =>
      blank tail ||
      match strip_prefix "kB" (skip_space tail) with
      | Some tail' => blank tail'
      | None => false
      end
  | None => false
  end.

(** A buffer whose label matches but whose value is not a well-formed
    integer updates nothing. *)
Definition malformed_value_ignored
           (pa ps : loc) (b : string) (lv : locals) (w : world) : Prop :=
  forall fmt value,
    fmt ∈ formats ->
    c_str b = (label_of fmt ++ value)%string ->
    well_formed_value value = false ->
    match_line pa ps b lv w = (lv, w).

(* ===================================================================== *)
(** ** Sources used as examples *)
(* ===================================================================== *)

Definition shuffled_source : string :=
  text [ "Cached:           2048 kB";
         "MemTotal:      1048576 kB";
         "SwapFree:        131072 kB";
         "MemAvailable:    524288 kB" ].

Definition no_huge_source : string :=
  text [ "MemAvailable:    524288 kB"; "SwapFree:        131072 kB" ].

Definition malformed_tail_source : string :=
  text [ "MemAvailable:    524288 kB";
         "SwapFree:        131072 kB";
         "HugePages_Total:   many";
         "HugePages_Free:       ?";
         "Hugepagesize:      2 MB" ].

Definition negative_source : string :=
  text [ "MemAvailable: -5 kB"; "SwapFree: 3 kB" ].

Definition overwritten_source : string :=
  text [ "MemAvailable: 5 kB"; "MemAvailable: -1 kB"; "SwapFree: 3 kB" ].

Definition partial_source : string := text [ "MemAvailable: 5 kB" ].

Fixpoint run_of (c : ascii) (n : nat) : string :=
  match n with
  | O => EmptyString
  | S n' => String c (run_of c n')
  end.

(** An unrecognized line of more than 511 characters between the two
    mandatory lines. *)
Definition long_line_source : string :=
  text [ "MemAvailable: 5 kB";
         run_of "x" 511 ++ "SwapFree: 99 kB";
         "SwapFree: 3 kB" ].

(** A value that a [long] cannot hold: 2^63. *)
Definition beyond_long_source : string :=
  text [ "MemAvailable: 9223372036854775808 kB"; "SwapFree: 3 kB" ].

Definition minus_one_free_source : string :=
  text [ "MemAvailable: 1 kB";
         "HugePages_Total: 3";
         "HugePages_Free: -1";
         "Hugepagesize: 2048 kB";
         "SwapFree: 1 kB" ].

Definition late_value_source : string :=
  text [ "MemAvailable: -1 kB"; "SwapFree: 3 kB"; "MemAvailable: 9 kB" ].

Definition repeated_source : string :=
  text [ "MemAvailable: 1 kB";
         "HugePages_Total: 1";
         "MemAvailable: 2 kB";
         "SwapFree: 3 kB";
         "MemAvailable: 4 kB" ].

(* ===================================================================== *)
(** ** The caller: [main] *)
(* ===================================================================== *)

(** *** [printf], as far as [main] uses it *)

(** What [%ld] writes for a [long]. *)
Definition print_long (z : Z) : string :=
  if z <? 0 then String "-" (decimal (- z)) else decimal z.

(** The characters [printf(fmt, arg)] writes, for a format whose only
    conversion is [%ld]. *)
Fixpoint printf_text (fmt : string) (arg : Z) : string :=
  match fmt with
  | EmptyString => EmptyString
  | String "%" (String "l" (String "d" rest)) =>
      (print_long arg ++ printf_text rest arg)%string
  | String c rest => String c (printf_text rest arg)
  end.

(** The sum of line 85, in [long]. *)
Definition long_add (a b : Z) : Z := long_wrap (a + b).

(** *** The running program *)

(** The world, and what has been written to the standard output. *)
Record process : Type := Process {
  sys : world;
  stdout : string
}.

Definition Proc (A : Type) : Type := process -> A * process.

Definition retP {A} (x : A) : Proc A := fun p => (x, p).

Definition bindP {A B} (m : Proc A) (k : A -> Proc B) : Proc B :=
  fun p => let '(x, p') := m p in k x p'.

Declare Scope proc_scope.
Delimit Scope proc_scope with proc.
Notation "x <- m ;; k" := (bindP m (fun x => k))
  (at level 100, m at next level, k at level 200, right associativity) : proc_scope.
Notation "m ;; k" := (bindP m (fun _ => k))
  (at level 100, k at level 200, right associativity) : proc_scope.

(** A step on the world is a step of the program. *)
Definition lift {A} (m : M A) : Proc A := fun p =>
  let '(x, w) := m (sys p) in (x, Process w (stdout p)).

(** [printf(fmt, arg)]: the text goes to the standard output, its length
    is returned. *)
Definition printf (fmt : string) (arg : Z) : Proc Z := fun p =>
  (Z.of_nat (String.length (printf_text fmt arg)),
   Process (sys p) (stdout p ++ printf_text fmt arg)).

(** A [long] of automatic storage declared without initialiser: a cell of
    its own, holding an indeterminate value. *)
Definition alloca (indeterminate : Z) : M loc := fun w =>
  let l := fresh (dom (heap w)) in
  (l, World (<[l := indeterminate]> (heap w)) (meminfo w) (readable w)
            (stream w) (log w)).

(** Lines 75-87.  [i1], [i2], [i3] are what the three locals happen to
    hold when [main] is entered.  Control reaches the closing brace, so
    the exit status is 0. *)
Definition main (argc : Z) (argv : list string) (i1 i2 i3 : Z) : Proc Z :=
  (availMem <- lift (alloca i1) ;;
   freeSwap <- lift (alloca i2) ;;
   hugePages <- lift (alloca i3) ;;
   rc <- lift (getAvailableMemory (Some availMem) (Some freeSwap)
                                  (Some hugePages)) ;;
   (if rc =? 0 then
      a <- lift (load availMem) ;;
      printf ("Available: %ld KB" ++ nl) a ;;
      s <- lift (load freeSwap) ;;
      printf ("Free Swap: %ld KB" ++ nl) s ;;
      g <- lift (load hugePages) ;;
      printf ("Free Huge Pages: %ld KB" ++ nl) g ;;
      a' <- lift (load availMem) ;;
      s' <- lift (load freeSwap) ;;
      g' <- lift (load hugePages) ;;
      let totalAllocatable := long_add (long_add a' s') g' in
      retP tt
    else retP tt) ;;
   retP 0)%proc.

(** A program at its start: nothing open, nothing logged, nothing
    written. *)
Definition at_start (h : gmap loc Z) (content : string) (can_open : bool)
  : process :=
  Process (before h content can_open) EmptyString.

Definition status (o : Z * process) : Z := fst o.

Definition written (o : Z * process) : string := stdout (snd o).

(** The three lines [main] writes for given values. *)
Definition report (a s g : Z) : string :=
  ("Available: " ++ print_long a ++ " KB" ++ nl ++
   "Free Swap: " ++ print_long s ++ " KB" ++ nl ++
   "Free Huge Pages: " ++ print_long g ++ " KB" ++ nl)%string.

(* ===================================================================== *)
(** ** Further notions *)
(* ===================================================================== *)

(** The buffer [fgets] delivers for a line [label: x] of the source, a
    count without a unit. *)
Definition count_line (label : string) (pad : nat) (x : Z) : string :=
  (label ++ ":" ++ spaces pad ++ decimal x ++ nl)%string.

(** The characters of a list of buffers, one after the other. *)
Fixpoint joined (bs : list string) : string :=
  match bs with
  | [] => EmptyString
  | b :: bs' => (b ++ joined bs')%string
  end.

(** What a call may change of the world, given its three pointers: the
    cells they name, the stream and the log.  The file and every other
    cell stay as they are. *)
Definition untouched (pa ps hp : ptr) (w w' : world) : Prop :=
  meminfo w' = meminfo w /\
  readable w' = readable w /\
  forall l, pa <> Some l -> ps <> Some l -> hp <> Some l ->
            heap w' !! l = heap w !! l.

(** A computation all of whose runs are within a relation. *)
Definition keeps {A} (R : world -> world -> Prop) (m : M A) : Prop :=
  forall w, R w (snd (m w)).

(** A buffer that carries one of the three huge-page fields. *)
Definition huge_line (b : string) : bool :=
  accepts fmt_HugePages_Total b || accepts fmt_HugePages_Free b
  || accepts fmt_Hugepagesize b.

(** A source without its huge-page lines. *)
Definition without_huge_lines (lines : list string) : list string :=
  List.filter (fun b => negb (huge_line b)) lines.

(** What is tracked of the two mandatory fields. *)
Definition mandatory_part (t : tracked) : Z * Z := (t_avail t, t_swap t).

Definition example_report : string :=
  text [ "Available: 524288 KB";
         "Free Swap: 131072 KB";
         "Free Huge Pages: 4096 KB" ].

(* ===================================================================== *)
(** ** Facts about the library model *)
(* ===================================================================== *)

Section ScanfFacts.

Lemma strip_prefix_app l s r : strip_prefix l s = Some r <-> s = (l ++ r)%string.
Proof.
  revert s; induction l as [|c l IH]; intros s; simpl.
  - split; [intros [= ->]; reflexivity | intros ->; reflexivity].
  - destruct s as [|c' s]; [split; discriminate|].
    destruct (Ascii.eqb_spec c c') as [<-|Hne].
    + rewrite IH. split; [intros ->; reflexivity | intros [= ->]; reflexivity].
    + split; [discriminate | intros [= <- _]; contradiction].
Qed.

Lemma run_format_lits_some l ds s r n v :
  strip_prefix l s = Some r ->
  run_format (lits l ++ ds)%list s n v = run_format ds r n v.
Proof.
  revert s; induction l as [|c l IH]; intros s; simpl.
  - intros [= ->]; reflexivity.
  - destruct s as [|c' s]; [discriminate|].
    destruct (Ascii.eqb c c'); [apply IH | discriminate].
Qed.

Lemma run_format_lits_none l ds s v :
  strip_prefix l s = None ->
  fst (run_format (lits l ++ ds)%list s 0 v) <> 1.
Proof.
  revert s; induction l as [|c l IH]; intros s; simpl.
  - discriminate.
  - destruct s as [|c' s]; [intros _; simpl; discriminate|].
    destruct (Ascii.eqb c c'); [apply IH | intros _; simpl; discriminate].
Qed.

(** Once [%ld] has stored a value, the rest of the format cannot change
    what the call returns. *)
Lemma run_format_no_conversion ds s n v :
  Forall (fun d => d <> DLong) ds -> n <> 0 ->
  run_format ds s n v = (n, v).
Proof.
  intros Hds Hn; revert s; induction Hds as [|d ds Hd _ IH]; intros s; simpl.
  - reflexivity.
  - assert (Hn0 : (n =? 0) = false) by (apply Z.eqb_neq; exact Hn).
    destruct d as [c| |]; [| apply IH | contradiction].
    destruct s as [|c' s]; [rewrite Hn0; reflexivity|].
    destruct (Ascii.eqb c c'); [apply IH | reflexivity].
Qed.

Lemma skip_space_idem s : skip_space (skip_space s) = skip_space s.
Proof.
  induction s as [|c s IH]; simpl; [reflexivity|].
  destruct (isspace c) eqn:E; [exact IH | simpl; rewrite E; reflexivity].
Qed.

Lemma scan_long_empty : scan_long EmptyString = None.
Proof. reflexivity. Qed.

Lemma sscanf_scan_field fmt label tail buf :
  parse_format fmt = (lits label ++ DSpace :: DLong :: tail)%list ->
  Forall (fun d => d <> DLong) tail ->
  sscanf buf fmt = scan_field label buf.
Proof.
  intros Hfmt Htail. unfold sscanf, scan_field. rewrite Hfmt.
  destruct (strip_prefix label (c_str buf)) as [r|] eqn:Hp.
  - rewrite (run_format_lits_some _ _ _ _ _ _ Hp). simpl run_format.
    rewrite skip_space_idem.
    destruct (skip_space r) as [|c r'] eqn:Hr; [reflexivity|].
    destruct (scan_long (String c r')) as [[z s2]|]; [|reflexivity].
    rewrite run_format_no_conversion by (assumption || discriminate).
    reflexivity.
  - pose proof (run_format_lits_none label (DSpace :: DLong :: tail) _ None Hp) as Hne.
    destruct (run_format _ _ 0 None) as [n v]; simpl in Hne.
    apply Z.eqb_neq in Hne. rewrite Hne. reflexivity.
Qed.

End ScanfFacts.

Ltac each_format H :=
  repeat (apply elem_of_cons in H; destruct H as [-> | H]);
  [ .. | apply elem_of_nil in H; contradiction ].

Lemma sscanf_label fmt buf :
  fmt ∈ formats -> sscanf buf fmt = scan_field (label_of fmt) buf.
Proof.
  intros H. each_format H.
  all: eapply sscanf_scan_field; [reflexivity | repeat constructor; discriminate].
Qed.

(** No text starts with the labels of two different formats: the labels
    part ways before either ends. *)
Lemma labels_part_ways fmt1 fmt2 r1 r2 :
  fmt1 ∈ formats -> fmt2 ∈ formats ->
  (label_of fmt1 ++ r1)%string = (label_of fmt2 ++ r2)%string -> fmt1 = fmt2.
Proof.
  intros H1 H2 E.
  each_format H1; each_format H2; try reflexivity; simpl in E; discriminate.
Qed.

(** Hence two different formats never accept the same buffer. *)
Lemma formats_exclusive fmt1 fmt2 buf v1 v2 :
  fmt1 ∈ formats -> fmt2 ∈ formats ->
  sscanf buf fmt1 = Some v1 -> sscanf buf fmt2 = Some v2 -> fmt1 = fmt2.
Proof.
  intros H1 H2.
  rewrite (sscanf_label _ _ H1), (sscanf_label _ _ H2). unfold scan_field.
  destruct (strip_prefix (label_of fmt1) _) as [r1|] eqn:E1; [|discriminate].
  destruct (strip_prefix (label_of fmt2) _) as [r2|] eqn:E2; [|discriminate].
  intros _ _. apply strip_prefix_app in E1, E2. rewrite E1 in E2.
  exact (labels_part_ways _ _ _ _ H1 H2 E2).
Qed.

Lemma sscanf_other fmt1 fmt2 buf v :
  fmt1 ∈ formats -> fmt2 ∈ formats -> fmt1 <> fmt2 ->
  sscanf buf fmt1 = Some v -> sscanf buf fmt2 = None.
Proof.
  intros H1 H2 Hne Hv. destruct (sscanf buf fmt2) as [v2|] eqn:E; [|reflexivity].
  destruct Hne. eapply formats_exclusive; eassumption.
Qed.

Section FgetsFacts.

Lemma read_chars_length k s b r :
  read_chars k s = (b, r) ->
  String.length s = (String.length b + String.length r)%nat.
Proof.
  revert s b r; induction k as [|k IH]; intros s b r; simpl.
  - destruct s; intros [= <- <-]; reflexivity.
  - destruct s as [|c s]; [intros [= <- <-]; reflexivity|].
    destruct (Ascii.eqb c newline); [intros [= <- <-]; reflexivity|].
    destruct (read_chars k s) as [l r'] eqn:E. intros [= <- <-].
    simpl. f_equal. apply IH. exact E.
Qed.

Lemma read_chars_progress k c s b r :
  read_chars (S k) (String c s) = (b, r) -> b <> EmptyString.
Proof.
  simpl. destruct (Ascii.eqb c newline); [intros [= <- _]; discriminate|].
  destruct (read_chars k s). intros [= <- _]; discriminate.
Qed.

Lemma fgets_progress size s b r :
  (1 < size)%nat -> fgets size s = Some (b, r) ->
  (String.length r < String.length s)%nat.
Proof.
  intros Hsize. unfold fgets. destruct s as [|c s]; [discriminate|].
  destruct size as [|[|k]]; [lia | lia |].
  replace (S (S k) - 1)%nat with (S k) by lia.
  destruct (read_chars (S k) (String c s)) as [b' r'] eqn:H.
  intros [= <- <-].
  pose proof (read_chars_length _ _ _ _ H) as Hlen.
  apply read_chars_progress in H. destruct b'; [contradiction|].
  simpl in Hlen |- *. lia.
Qed.

Lemma fgets_none size s : fgets size s = None <-> s = EmptyString.
Proof. destruct s; simpl; split; (reflexivity || discriminate). Qed.

Arguments fgets : simpl never.

Lemma fgets_shrinks s b r :
  fgets 512 s = Some (b, r) -> (String.length r < String.length s)%nat.
Proof. apply fgets_progress. lia. Qed.

Lemma buffers_empty n : buffers n EmptyString = [].
Proof. destruct n; reflexivity. Qed.

Lemma buffers_fuel_eq n m s :
  (String.length s <= n)%nat -> (String.length s <= m)%nat ->
  buffers n s = buffers m s.
Proof.
  revert m s. induction n as [|n IH]; intros m s Hn Hm.
  - destruct s; [|simpl in Hn; lia]. symmetry. apply buffers_empty.
  - destruct m as [|m].
    + destruct s; [|simpl in Hm; lia]. apply buffers_empty.
    + simpl buffers. destruct (fgets 512 s) as [[b r]|] eqn:E; [|reflexivity].
      apply fgets_shrinks in E. f_equal. apply IH; lia.
Qed.

Lemma buffers_fuel n s :
  (String.length s <= n)%nat -> buffers n s = fgets_lines s.
Proof. intros Hn. apply buffers_fuel_eq; [exact Hn | lia]. Qed.

Lemma fgets_lines_cons s b r :
  fgets 512 s = Some (b, r) -> fgets_lines s = b :: fgets_lines r.
Proof.
  intros E. unfold fgets_lines at 1.
  destruct (String.length s) as [|m] eqn:Hm.
  - destruct s; discriminate.
  - simpl buffers. rewrite E. f_equal. apply buffers_fuel.
    apply fgets_shrinks in E. lia.
Qed.

Lemma fgets_lines_nil : fgets_lines EmptyString = [].
Proof. reflexivity. Qed.

Lemma read_chars_line k l rest :
  (String.length l < k)%nat -> no_newline l = true ->
  read_chars k (l ++ String newline rest) = ((l ++ nl)%string, rest).
Proof.
  revert k. induction l as [|c l IH]; intros k Hk Hl.
  - destruct k as [|k]; [simpl in Hk; lia | reflexivity].
  - destruct k as [|k]; [simpl in Hk; lia|].
    simpl in Hl. apply andb_true_iff in Hl as [Hc Hl].
    apply negb_true_iff in Hc. cbn [String.append read_chars]. rewrite Hc.
    rewrite (IH k) by (simpl in Hk; lia || exact Hl). reflexivity.
Qed.

Lemma fgets_line l rest :
  short_line l = true ->
  fgets 512 (l ++ nl ++ rest) = Some ((l ++ nl)%string, rest).
Proof.
  unfold short_line. intros H. apply andb_true_iff in H as [Hlen Hl].
  apply Nat.leb_le in Hlen. change (nl ++ rest)%string with (String newline rest).
  unfold fgets. change (512 - 1)%nat with 511%nat.
  rewrite read_chars_line by (lia || exact Hl).
  destruct l; reflexivity.
Qed.

(** A text of short lines is read line by line. *)
Lemma fgets_lines_text ls :
  Forall (fun l => short_line l = true) ls ->
  fgets_lines (text ls) = map (fun l => (l ++ nl)%string) ls.
Proof.
  induction 1 as [|l ls Hl _ IH]; [reflexivity|].
  cbn [text map]. rewrite (fgets_lines_cons _ _ _ (fgets_line l (text ls) Hl)), IH.
  reflexivity.
Qed.

(** A buffer and what is left after it make up what was there. *)
Lemma read_chars_split k s b r : read_chars k s = (b, r) -> s = (b ++ r)%string.
Proof.
  revert s b r; induction k as [|k IH]; intros s b r; simpl.
  - destruct s; intros [= <- <-]; reflexivity.
  - destruct s as [|c s]; [intros [= <- <-]; reflexivity|].
    destruct (Ascii.eqb c newline); [intros [= <- <-]; reflexivity|].
    destruct (read_chars k s) as [l r'] eqn:E. intros [= <- <-].
    simpl. f_equal. apply IH. exact E.
Qed.

Lemma read_chars_bound k s b r :
  read_chars k s = (b, r) -> (String.length b <= k)%nat.
Proof.
  revert s b r; induction k as [|k IH]; intros s b r; simpl.
  - destruct s; intros [= <- <-]; simpl; lia.
  - destruct s as [|c s]; [intros [= <- <-]; simpl; lia|].
    destruct (Ascii.eqb c newline); [intros [= <- <-]; simpl; lia|].
    destruct (read_chars k s) as [l r'] eqn:E. intros [= <- <-].
    simpl. apply IH in E. lia.
Qed.

(** What [fgets] hands out fits [lineBuffer] with its closing NUL. *)
Lemma fgets_split s b r :
  fgets 512 s = Some (b, r) ->
  s = (b ++ r)%string /\ (1 <= String.length b <= 511)%nat.
Proof.
  unfold fgets. destruct s as [|c s]; [discriminate|].
  change (512 - 1)%nat with 511%nat.
  destruct (read_chars 511 (String c s)) as [b' r'] eqn:H.
  intros [= <- <-]. split; [exact (read_chars_split _ _ _ _ H)|].
  split; [|exact (read_chars_bound _ _ _ _ H)].
  change 511%nat with (S 510) in H. apply read_chars_progress in H.
  destruct b'; [contradiction | simpl; lia].
Qed.

(** A run of characters as long as the buffer allows is taken whole, and
    the rest of its line is left for the next call. *)
Lemma read_chars_full k run rest :
  String.length run = k -> no_newline run = true ->
  read_chars k (run ++ rest) = (run, rest).
Proof.
  revert k. induction run as [|c run IH]; intros k Hk Hrun.
  - simpl in Hk. subst k. destruct rest; reflexivity.
  - destruct k as [|k]; [discriminate|]. injection Hk as Hk.
    simpl in Hrun. apply andb_true_iff in Hrun as [Hc Hrun].
    apply negb_true_iff in Hc. cbn [String.append read_chars]. rewrite Hc.
    rewrite (IH k Hk Hrun). reflexivity.
Qed.

Lemma fgets_full run rest :
  String.length run = 511%nat -> no_newline run = true ->
  fgets 512 (run ++ rest) = Some (run, rest).
Proof.
  intros Hlen Hrun. unfold fgets. change (512 - 1)%nat with 511%nat.
  rewrite (read_chars_full _ _ _ Hlen Hrun).
  destruct run; [discriminate | reflexivity].
Qed.

End FgetsFacts.

(** From here on the two calls are used through the facts above only. *)
Arguments fgets : simpl never.
Arguments sscanf : simpl never.
Opaque fgets sscanf.

(* ===================================================================== *)
(** ** The scan, stated over the buffers read *)
(* ===================================================================== *)

Lemma early_exit_satisfied hp t :
  early_exit (t_avail t) (t_swap t) hp (t_hugetlb t) = satisfied hp t.
Proof. reflexivity. Qed.

Lemma state_after_nil t : state_after [] t = t.
Proof. reflexivity. Qed.

Lemma fold_left_cons {A B} (f : A -> B -> A) (b : B) (bs : list B) (a : A) :
  fold_left f (b :: bs) a = fold_left f bs (f a b).
Proof. reflexivity. Qed.

Lemma state_after_cons b bs t :
  state_after (b :: bs) t = state_after bs (update b t).
Proof. exact (fold_left_cons (fun t b => update b t) b bs t). Qed.

Lemma state_after_app l1 l2 t :
  state_after (l1 ++ l2) t = state_after l2 (state_after l1 t).
Proof. apply fold_left_app. Qed.

Lemma scanned_cons hp b bs t :
  scanned hp (b :: bs) t
  = if satisfied hp (update b t) then [b] else b :: scanned hp bs (update b t).
Proof. reflexivity. Qed.

Lemma stopped_cons hp b bs t :
  stopped hp (b :: bs) t = satisfied hp (update b t) || stopped hp bs (update b t).
Proof. reflexivity. Qed.

Lemma skip_buffers_cons {A} (x : A) (l : list A) s b r :
  fgets 512 s = Some (b, r) ->
  skip_buffers (List.length (x :: l)) s = skip_buffers (List.length l) r.
Proof. intros E. cbn [List.length skip_buffers]. rewrite E. reflexivity. Qed.

Lemma read_events_one b : read_events [b] true = [EvFgets (Some b)].
Proof. reflexivity. Qed.

Lemma read_events_cons b bs e :
  read_events (b :: bs) e = EvFgets (Some b) :: read_events bs e.
Proof. reflexivity. Qed.

(** How each library call and memory access runs, in the form in which
    it occurs in the routine: at the head of a sequence. *)
Section Primitives.

Context {B : Type}.
Variables (h : gmap loc Z) (c : string) (rd : bool) (lg : list event).

Lemma fgets_bind_some unread b r (k : option string -> M B) :
  fgets 512 unread = Some (b, r) ->
  bind (fgets_stream 512) k (World h c rd (Some unread) lg)
  = k (Some b) (World h c rd (Some r) (lg ++ [EvFgets (Some b)])).
Proof. unfold bind, fgets_stream; simpl. intros ->. reflexivity. Qed.

Lemma fgets_bind_none unread (k : option string -> M B) :
  fgets 512 unread = None ->
  bind (fgets_stream 512) k (World h c rd (Some unread) lg)
  = k None (World h c rd (Some unread) (lg ++ [EvFgets None])).
Proof. unfold bind, fgets_stream; simpl. intros ->. reflexivity. Qed.

Lemma load_bind st p v (k : Z -> M B) :
  h !! p = Some v ->
  bind (load p) k (World h c rd st lg) = k v (World h c rd st lg).
Proof. unfold bind, load; simpl. intros ->. reflexivity. Qed.

Lemma store_bind st p v (k : unit -> M B) :
  bind (store p v) k (World h c rd st lg)
  = k tt (World (<[p := v]> h) c rd st lg).
Proof. reflexivity. Qed.

Lemma ret_bind {A} (x : A) (k : A -> M B) w : bind (ret x) k w = k x w.
Proof. reflexivity. Qed.

End Primitives.

Section LoopFacts.

Variables (pa ps : loc) (hp : ptr).
Hypothesis pa_ps : pa <> ps.

Variables (h0 : gmap loc Z) (content : string) (can_open : bool).

Lemma cells_avail t v :
  <[pa := v]> (cells pa ps h0 t) = cells pa ps h0 (Tracked v (t_swap t) (t_hugetlb t)).
Proof. unfold cells; simpl. apply insert_insert_eq. Qed.

Lemma cells_swap t v :
  <[ps := v]> (cells pa ps h0 t) = cells pa ps h0 (Tracked (t_avail t) v (t_hugetlb t)).
Proof.
  unfold cells; simpl.
  rewrite (insert_insert_ne _ ps pa) by congruence. f_equal. apply insert_insert_eq.
Qed.

Lemma cells_lookup_avail t : cells pa ps h0 t !! pa = Some (t_avail t).
Proof. unfold cells. apply lookup_insert_eq. Qed.

Lemma cells_lookup_swap t : cells pa ps h0 t !! ps = Some (t_swap t).
Proof.
  unfold cells. rewrite lookup_insert_ne by exact pa_ps. apply lookup_insert_eq.
Qed.

Lemma match_line_update {B} b t st lg (k : locals -> M B) :
  bind (match_line pa ps b (t_hugetlb t)) k
       (World (cells pa ps h0 t) content can_open st lg)
  = k (t_hugetlb (update b t))
      (World (cells pa ps h0 (update b t)) content can_open st lg).
Proof.
  unfold match_line, update.
  change "MemAvailable: %ld kB" with fmt_MemAvailable.
  change "SwapFree: %ld kB" with fmt_SwapFree.
  change "HugePages_Total: %ld" with fmt_HugePages_Total.
  change "HugePages_Free: %ld" with fmt_HugePages_Free.
  change "Hugepagesize: %ld kB" with fmt_Hugepagesize.
  destruct (sscanf b fmt_MemAvailable) as [v|].
  { unfold bind, store, ret; simpl. rewrite cells_avail. reflexivity. }
  destruct (sscanf b fmt_SwapFree) as [v|].
  { unfold bind, store, ret; simpl. rewrite cells_swap. reflexivity. }
  destruct (sscanf b fmt_HugePages_Total) as [v|]; [reflexivity|].
  destruct (sscanf b fmt_HugePages_Free) as [v|]; [reflexivity|].
  destruct (sscanf b fmt_Hugepagesize) as [v|]; [reflexivity|].
  destruct t as [a s' [T F S]]; reflexivity.
Qed.

Lemma read_loop_step fuel unread b r t lg :
  fgets 512 unread = Some (b, r) ->
  read_loop (S fuel) pa ps hp (t_hugetlb t)
            (World (cells pa ps h0 t) content can_open (Some unread) lg)
  = if satisfied hp (update b t)
    then (t_hugetlb (update b t),
          World (cells pa ps h0 (update b t)) content can_open (Some r)
                (lg ++ [EvFgets (Some b)]))
    else read_loop fuel pa ps hp (t_hugetlb (update b t))
           (World (cells pa ps h0 (update b t)) content can_open (Some r)
                  (lg ++ [EvFgets (Some b)])).
Proof.
  intros E. cbn [read_loop].
  rewrite (fgets_bind_some _ _ _ _ _ _ _ _ E).
  rewrite match_line_update.
  rewrite (load_bind _ _ _ _ _ _ _ _ (cells_lookup_avail _)).
  rewrite (load_bind _ _ _ _ _ _ _ _ (cells_lookup_swap _)).
  rewrite early_exit_satisfied.
  destruct (satisfied hp (update b t)); reflexivity.
Qed.

Lemma read_loop_eof fuel t lg :
  read_loop (S fuel) pa ps hp (t_hugetlb t)
            (World (cells pa ps h0 t) content can_open (Some EmptyString) lg)
  = (t_hugetlb t,
     World (cells pa ps h0 t) content can_open (Some EmptyString) (lg ++ [EvFgets None])).
Proof. reflexivity. Qed.

(** The loop reads exactly the buffers [scanned], leaves the tracked
    quantities as those buffers define them, and never runs out of
    fuel. *)
Lemma read_loop_run fuel unread t lg :
  (String.length unread < fuel)%nat ->
  read_loop fuel pa ps hp (t_hugetlb t)
            (World (cells pa ps h0 t) content can_open (Some unread) lg)
  = (t_hugetlb (state_after (scanned hp (fgets_lines unread) t) t),
     World (cells pa ps h0 (state_after (scanned hp (fgets_lines unread) t) t))
           content can_open
           (Some (skip_buffers (List.length (scanned hp (fgets_lines unread) t))
                               unread))
           (lg ++ read_events (scanned hp (fgets_lines unread) t)
                              (stopped hp (fgets_lines unread) t))).
Proof.
  revert unread t lg. induction fuel as [|fuel IH]; intros unread t lg Hfuel; [lia|].
  destruct (fgets 512 unread) as [[b r]|] eqn:E.
  - rewrite (read_loop_step _ _ _ _ _ _ E), (fgets_lines_cons _ _ _ E).
    rewrite scanned_cons, stopped_cons.
    destruct (satisfied hp (update b t)) eqn:Hsat.
    + rewrite state_after_cons, state_after_nil, (skip_buffers_cons _ _ _ _ _ E).
      rewrite orb_true_l, read_events_one. reflexivity.
    + rewrite IH by (apply fgets_shrinks in E; lia).
      rewrite state_after_cons, (skip_buffers_cons _ _ _ _ _ E).
      rewrite read_events_cons, orb_false_l, <- app_assoc. reflexivity.
  - apply fgets_none in E. subst unread. apply read_loop_eof.
Qed.

(** Any fuel above the number of unread characters gives the same run. *)
Lemma read_loop_fuel fuel1 fuel2 unread t lg :
  (String.length unread < fuel1)%nat -> (String.length unread < fuel2)%nat ->
  read_loop fuel1 pa ps hp (t_hugetlb t)
            (World (cells pa ps h0 t) content can_open (Some unread) lg)
  = read_loop fuel2 pa ps hp (t_hugetlb t)
              (World (cells pa ps h0 t) content can_open (Some unread) lg).
Proof. intros H1 H2. rewrite !read_loop_run by assumption. reflexivity. Qed.

End LoopFacts.

(* ===================================================================== *)
(** ** What a call comes to *)
(* ===================================================================== *)

Section CallFacts.

Variables (pa ps : loc) (hp : ptr).
Hypothesis pa_ps : pa <> ps.
Hypothesis hp_pa : hp <> Some pa.
Hypothesis hp_ps : hp <> Some ps.

Variables (h : gmap loc Z) (content : string).

Lemma init_cells_null :
  <[ps := -1]> (<[pa := -1]> h) = cells pa ps h unset.
Proof. unfold cells, unset; simpl. apply insert_insert_ne. congruence. Qed.

Lemma init_cells_huge ph :
  ph <> pa -> ph <> ps ->
  <[ph := 0]> (<[ps := -1]> (<[pa := -1]> h)) = cells pa ps (<[ph := 0]> h) unset.
Proof.
  intros Ha Hs. unfold cells, unset; simpl.
  rewrite (insert_insert_ne _ ph ps) by exact Hs.
  rewrite (insert_insert_ne _ ph pa) by exact Ha.
  apply insert_insert_ne. congruence.
Qed.

Lemma result_code_test t :
  (t_avail t =? -1) || (t_swap t =? -1) = negb (result_code t =? 0).
Proof.
  unfold result_code. destruct ((t_avail t =? -1) || (t_swap t =? -1)); reflexivity.
Qed.

(** The whole call on a source that opens. *)
Lemma getAvailableMemory_opened :
  getAvailableMemory (Some pa) (Some ps) hp (before h content true)
  = (result_code (final_state hp content),
     World (final_heap pa ps hp h (final_state hp content)) content true None
           (EvFopen true
            :: read_events (lines_scanned hp content) (left_by_break hp content)
            ++ [EvFclose])).
Proof.
  unfold getAvailableMemory, before.
  unfold bind at 1. cbn [fopen_meminfo readable heap meminfo log stream app].
  rewrite !store_bind.
  destruct hp as [ph|].
  - assert (Ha : ph <> pa) by congruence. assert (Hs : ph <> ps) by congruence.
    rewrite store_bind, init_cells_huge by assumption.
    unfold bind at 1. cbn [unread_length stream].
    change (Locals (-1) (-1) (-1)) with (t_hugetlb unset).
    unfold bind at 1. rewrite (read_loop_run pa ps (Some ph) pa_ps) by lia.
    fold (lines_scanned (Some ph) content) (left_by_break (Some ph) content).
    fold (final_state (Some ph) content).
    set (t := final_state (Some ph) content).
    unfold bind at 1. cbn [fclose_stream heap meminfo readable log].
    rewrite (load_bind _ _ _ _ _ _ _ _ (cells_lookup_avail _ _ _ _)).
    rewrite (load_bind _ _ _ _ _ _ _ _ (cells_lookup_swap _ _ pa_ps _ _)).
    rewrite result_code_test. unfold final_heap, cells.
    destruct (result_code t =? 0) eqn:Hr; cbn [negb].
    + apply Z.eqb_eq in Hr. rewrite Hr. unfold huge_free_kb.
      destruct (_ && _ && _).
      * rewrite store_bind.
        rewrite (insert_insert_ne _ ph pa), (insert_insert_ne _ ph ps) by assumption.
        rewrite insert_insert_eq.
        rewrite <- (insert_insert_ne _ ph ps), <- (insert_insert_ne _ ph pa) by assumption.
        rewrite <- app_assoc. reflexivity.
      * rewrite ret_bind.
        rewrite <- (insert_insert_ne _ ph ps), <- (insert_insert_ne _ ph pa) by assumption.
        rewrite <- app_assoc. reflexivity.
    + unfold result_code in *.
      destruct ((t_avail t =? -1) || (t_swap t =? -1)); [|discriminate].
      rewrite <- (insert_insert_ne _ ph ps), <- (insert_insert_ne _ ph pa) by assumption.
      rewrite <- app_assoc. reflexivity.
  - rewrite ret_bind, init_cells_null.
    unfold bind at 1. cbn [unread_length stream].
    change (Locals (-1) (-1) (-1)) with (t_hugetlb unset).
    unfold bind at 1. rewrite (read_loop_run pa ps None pa_ps) by lia.
    fold (lines_scanned None content) (left_by_break None content).
    fold (final_state None content).
    set (t := final_state None content).
    unfold bind at 1. cbn [fclose_stream heap meminfo readable log].
    rewrite (load_bind _ _ _ _ _ _ _ _ (cells_lookup_avail _ _ _ _)).
    rewrite (load_bind _ _ _ _ _ _ _ _ (cells_lookup_swap _ _ pa_ps _ _)).
    rewrite result_code_test. unfold final_heap, cells, result_code.
    destruct ((t_avail t =? -1) || (t_swap t =? -1)); cbn [negb Z.eqb];
      rewrite <- app_assoc; reflexivity.
Qed.

End CallFacts.

(* ===================================================================== *)
(** ** Fields, as the buffers read define them *)
(* ===================================================================== *)

Lemma in_formats_1 : fmt_MemAvailable ∈ formats.
Proof. unfold formats. set_solver. Qed.
Lemma in_formats_2 : fmt_SwapFree ∈ formats.
Proof. unfold formats. set_solver. Qed.
Lemma in_formats_3 : fmt_HugePages_Total ∈ formats.
Proof. unfold formats. set_solver. Qed.
Lemma in_formats_4 : fmt_HugePages_Free ∈ formats.
Proof. unfold formats. set_solver. Qed.
Lemma in_formats_5 : fmt_Hugepagesize ∈ formats.
Proof. unfold formats. set_solver. Qed.

Create HintDb fmts.
#[global] Hint Resolve in_formats_1 in_formats_2 in_formats_3 in_formats_4
  in_formats_5 : fmts.

Section FieldFacts.

Lemma pick_other fmt1 fmt2 b v d :
  fmt1 ∈ formats -> fmt2 ∈ formats -> fmt1 <> fmt2 ->
  sscanf b fmt1 = Some v -> pick fmt2 b d = d.
Proof.
  intros H1 H2 Hne Hv. unfold pick.
  rewrite (sscanf_other _ _ _ _ H1 H2 Hne Hv). reflexivity.
Qed.

Lemma pick_some fmt b v d : sscanf b fmt = Some v -> pick fmt b d = v.
Proof. unfold pick. intros ->. reflexivity. Qed.

Lemma pick_none fmt b d : sscanf b fmt = None -> pick fmt b d = d.
Proof. unfold pick. intros ->. reflexivity. Qed.

(** One buffer changes each tracked quantity as its own format says:
    the order in which the formats are tried does not show. *)
Lemma update_pick b t :
  update b t
  = Tracked (pick fmt_MemAvailable b (t_avail t))
            (pick fmt_SwapFree b (t_swap t))
            (Locals (pick fmt_HugePages_Total b (hugeTlbTotalPages (t_hugetlb t)))
                    (pick fmt_HugePages_Free b (hugeTlbFreePages (t_hugetlb t)))
                    (pick fmt_Hugepagesize b (hugeTlbPageSize (t_hugetlb t)))).
Proof.
  unfold update.
  destruct (sscanf b fmt_MemAvailable) as [v|] eqn:E1.
  { rewrite (pick_some _ _ _ _ E1).
    rewrite !(pick_other fmt_MemAvailable _ b v) by (auto with fmts || discriminate).
    destruct t as [a s [T F S]]; reflexivity. }
  rewrite (pick_none _ _ _ E1).
  destruct (sscanf b fmt_SwapFree) as [v|] eqn:E2.
  { rewrite (pick_some _ _ _ _ E2).
    rewrite !(pick_other fmt_SwapFree _ b v) by (auto with fmts || discriminate).
    destruct t as [a s [T F S]]; reflexivity. }
  rewrite (pick_none _ _ _ E2).
  destruct (sscanf b fmt_HugePages_Total) as [v|] eqn:E3.
  { rewrite (pick_some _ _ _ _ E3).
    rewrite !(pick_other fmt_HugePages_Total _ b v) by (auto with fmts || discriminate).
    reflexivity. }
  rewrite (pick_none _ _ _ E3).
  destruct (sscanf b fmt_HugePages_Free) as [v|] eqn:E4.
  { rewrite (pick_some _ _ _ _ E4).
    rewrite !(pick_other fmt_HugePages_Free _ b v) by (auto with fmts || discriminate).
    reflexivity. }
  rewrite (pick_none _ _ _ E4).
  destruct (sscanf b fmt_Hugepagesize) as [v|] eqn:E5.
  { rewrite (pick_some _ _ _ _ E5). reflexivity. }
  rewrite (pick_none _ _ _ E5).
  destruct t as [a s [T F S]]; reflexivity.
Qed.

Lemma last_value_cons fmt b bs d :
  last_value fmt (b :: bs) d = last_value fmt bs (pick fmt b d).
Proof. exact (fold_left_cons (fun v b => pick fmt b v) b bs d). Qed.

Lemma last_value_app fmt l1 l2 d :
  last_value fmt (l1 ++ l2) d = last_value fmt l2 (last_value fmt l1 d).
Proof. apply fold_left_app. Qed.

(** The state after some buffers, field by field. *)
Lemma state_after_fields lines t :
  state_after lines t
  = Tracked (last_value fmt_MemAvailable lines (t_avail t))
            (last_value fmt_SwapFree lines (t_swap t))
            (Locals (last_value fmt_HugePages_Total lines (hugeTlbTotalPages (t_hugetlb t)))
                    (last_value fmt_HugePages_Free lines (hugeTlbFreePages (t_hugetlb t)))
                    (last_value fmt_Hugepagesize lines (hugeTlbPageSize (t_hugetlb t)))).
Proof.
  revert t. induction lines as [|b bs IH]; intros t.
  - destruct t as [a s [T F S]]; reflexivity.
  - rewrite state_after_cons, IH, !last_value_cons, update_pick. reflexivity.
Qed.

Lemma final_fields lines :
  state_after lines unset
  = Tracked (field_value fmt_MemAvailable lines)
            (field_value fmt_SwapFree lines)
            (Locals (field_value fmt_HugePages_Total lines)
                    (field_value fmt_HugePages_Free lines)
                    (field_value fmt_Hugepagesize lines)).
Proof. apply state_after_fields. Qed.

Lemma satisfied_exit_condition hp lines :
  satisfied hp (state_after lines unset) = exit_condition hp lines.
Proof. rewrite final_fields. destruct hp; reflexivity. Qed.

End FieldFacts.

Section ScanFacts.

Variable hp : ptr.

Lemma scanned_prefix lines t :
  exists rest, lines = (scanned hp lines t ++ rest)%list /\
               (stopped hp lines t = false -> rest = []).
Proof.
  revert t. induction lines as [|b bs IH]; intros t.
  - exists []. split; reflexivity.
  - rewrite scanned_cons, stopped_cons.
    destruct (satisfied hp (update b t)).
    + exists bs. split; [reflexivity | discriminate].
    + destruct (IH (update b t)) as (rest & Heq & Hrest).
      exists rest. split; [simpl; f_equal; exact Heq | exact Hrest].
Qed.

Lemma scanned_by_break lines t :
  stopped hp lines t = true ->
  satisfied hp (state_after (scanned hp lines t) t) = true.
Proof.
  revert t. induction lines as [|b bs IH]; intros t; [discriminate|].
  rewrite scanned_cons, stopped_cons.
  destruct (satisfied hp (update b t)) eqn:E.
  - intros _. rewrite state_after_cons, state_after_nil. exact E.
  - rewrite orb_false_l, state_after_cons. apply IH.
Qed.

Lemma scanned_to_the_end lines t :
  stopped hp lines t = false -> scanned hp lines t = lines.
Proof.
  intros H. destruct (scanned_prefix lines t) as (rest & Heq & Hrest).
  rewrite (Hrest H), app_nil_r in Heq. symmetry. exact Heq.
Qed.

(** No buffer is read after one that made the condition hold. *)
Lemma scanned_not_before lines t k :
  (0 < k < List.length (scanned hp lines t))%nat ->
  satisfied hp (state_after (take k (scanned hp lines t)) t) = false.
Proof.
  revert t k. induction lines as [|b bs IH]; intros t k; [simpl; lia|].
  rewrite scanned_cons.
  destruct (satisfied hp (update b t)) eqn:E; [simpl; lia|].
  destruct k as [|k]; [lia|]. cbn [List.length take]. intros Hk.
  rewrite state_after_cons.
  destruct k as [|k]; [rewrite take_0, state_after_nil; exact E|].
  apply IH. lia.
Qed.

Lemma satisfied_stopped lines t :
  lines <> [] -> satisfied hp (state_after lines t) = true ->
  stopped hp lines t = true.
Proof.
  revert t. induction lines as [|b bs IH]; intros t Hne; [contradiction|].
  rewrite state_after_cons, stopped_cons. intros H.
  destruct bs as [|b' bs].
  - rewrite state_after_nil in H. rewrite H. reflexivity.
  - rewrite (IH (update b t)) by (discriminate || exact H). apply orb_true_r.
Qed.

(** What follows such a buffer has no part in the scan. *)
Lemma scanned_app_stopped pre post t :
  stopped hp pre t = true ->
  scanned hp (pre ++ post) t = scanned hp pre t /\
  stopped hp (pre ++ post) t = true.
Proof.
  revert t. induction pre as [|b bs IH]; intros t; [discriminate|].
  rewrite <- app_comm_cons, !scanned_cons, !stopped_cons.
  destruct (satisfied hp (update b t)); [intros _; split; reflexivity|].
  rewrite !orb_false_l. intros H. destruct (IH _ H) as [-> ->].
  split; reflexivity.
Qed.

End ScanFacts.

Lemma lines_read_events lines e :
  lines_read (read_events lines e) = lines.
Proof.
  unfold read_events, lines_read. induction lines as [|b bs IH]; simpl.
  - destruct e; reflexivity.
  - f_equal. exact IH.
Qed.

Lemma lines_read_app l1 l2 :
  lines_read (l1 ++ l2) = (lines_read l1 ++ lines_read l2)%list.
Proof. apply omap_app. Qed.

Lemma lines_read_log lines e :
  lines_read (EvFopen true :: read_events lines e ++ [EvFclose]) = lines.
Proof.
  change (lines_read (read_events lines e ++ [EvFclose]) = lines).
  rewrite lines_read_app, lines_read_events. apply app_nil_r.
Qed.

(* ===================================================================== *)
(** ** Well-formed lines *)
(* ===================================================================== *)

Section WellFormedLines.

Lemma string_app_assoc (a b c : string) :
  ((a ++ b) ++ c = a ++ (b ++ c))%string.
Proof.
  induction a as [|x a IH]; simpl; [reflexivity | rewrite IH; reflexivity].
Qed.

Lemma c_str_app a b : c_str a = a -> c_str (a ++ b) = (a ++ c_str b)%string.
Proof.
  induction a as [|x a IH]; simpl; [reflexivity|].
  destruct (Ascii.eqb x zero); [discriminate|].
  intros [= H]. rewrite (IH H). reflexivity.
Qed.

Lemma c_str_spaces n : c_str (spaces n) = spaces n.
Proof. induction n as [|n IH]; simpl; [reflexivity | rewrite IH; reflexivity]. Qed.

Lemma c_str_uint d : c_str (NilEmpty.string_of_uint d) = NilEmpty.string_of_uint d.
Proof. induction d; simpl; try rewrite IHd; reflexivity. Qed.

Lemma skip_space_spaces n r : skip_space (spaces n ++ r) = skip_space r.
Proof. induction n as [|n IH]; simpl; [reflexivity | exact IH]. Qed.

Lemma digit_not_space c : isdigit c = true -> isspace c = false.
Proof.
  unfold isdigit, isspace. generalize (nat_of_ascii c) as n. intros n H.
  apply andb_true_iff in H as [H1 H2].
  apply Nat.leb_le in H1. apply Nat.leb_le in H2.
  apply orb_false_iff. split.
  - apply andb_false_iff. right. apply Nat.leb_gt. lia.
  - apply Nat.eqb_neq. lia.
Qed.

Lemma skip_space_digit s : starts_with_digit s = true -> skip_space s = s.
Proof.
  destruct s as [|c s]; simpl; [reflexivity|].
  intros H. rewrite (digit_not_space _ H). reflexivity.
Qed.

Lemma scan_long_digit c s :
  isdigit c = true ->
  scan_long (String c s)
  = Some (long_saturate (fst (scan_digits (String c s) 0)),
          snd (scan_digits (String c s) 0)).
Proof.
  intros H. unfold scan_long.
  assert (Hsign : (let '(negative, body) :=
                     match String c s with
                     | String "-" s' => (true, s')
                     | String "+" s' => (false, s')
                     | _ => (false, String c s)
                     end in (negative, body)) = (false, String c s)).
  { destruct c as [[] [] [] [] [] [] [] []]; try reflexivity; discriminate H. }
  revert Hsign.
  destruct (match String c s with
            | String "-" s' => (true, s')
            | String "+" s' => (false, s')
            | _ => (false, String c s)
            end) as [negative body].
  intros [= -> ->]. cbn [starts_with_digit]. rewrite H.
  destruct (scan_digits (String c s) 0); reflexivity.
Qed.

Lemma scan_digits_stop rest acc :
  starts_with_digit rest = false -> scan_digits rest acc = (acc, rest).
Proof. destruct rest as [|c r]; simpl; [reflexivity | intros ->; reflexivity]. Qed.

Lemma scan_digits_uint_acc d rest acc :
  starts_with_digit rest = false ->
  scan_digits (NilEmpty.string_of_uint d ++ rest) (Z.pos acc)
  = (Z.pos (Pos.of_uint_acc d acc), rest).
Proof.
  intros Hrest. revert acc.
  induction d; intros acc; cbn [NilEmpty.string_of_uint String.append];
    [apply scan_digits_stop; exact Hrest | ..];
    cbn [scan_digits Pos.of_uint_acc];
    match goal with
    | |- context [isdigit ?c] =>
        change (isdigit c) with true; cbv iota;
        let v := eval vm_compute in (digit_value c) in
        change (digit_value c) with v
    end;
    rewrite <- IHd; f_equal; lia.
Qed.

Lemma scan_digits_uint d rest :
  starts_with_digit rest = false ->
  scan_digits (NilEmpty.string_of_uint d ++ rest) 0
  = (Z.of_N (Pos.of_uint d), rest).
Proof.
  intros Hrest.
  induction d; cbn [NilEmpty.string_of_uint String.append];
    [apply scan_digits_stop; exact Hrest | ..];
    cbn [scan_digits Pos.of_uint];
    match goal with
    | |- context [isdigit ?c] =>
        change (isdigit c) with true; cbv iota;
        let v := eval vm_compute in (digit_value c) in
        change (digit_value c) with v
    end;
    [exact IHd | ..];
    cbn [Z.mul Z.add Z.of_N]; apply scan_digits_uint_acc; exact Hrest.
Qed.

Lemma uint_head d rest :
  d <> Decimal.Nil ->
  exists c s, (NilEmpty.string_of_uint d ++ rest)%string = String c s /\
              isdigit c = true.
Proof.
  destruct d; [contradiction | ..]; intros _;
    cbn [NilEmpty.string_of_uint String.append]; eexists _, _;
    (split; [reflexivity | reflexivity]).
Qed.

Lemma to_uint_not_nil n : N.to_uint n <> Decimal.Nil.
Proof.
  intros H. pose proof (DecimalN.Unsigned.of_to n) as E. rewrite H in E.
  cbn in E. subst n. discriminate H.
Qed.

Lemma scan_long_decimal x rest :
  0 <= x -> starts_with_digit rest = false ->
  scan_long (decimal x ++ rest) = Some (long_saturate x, rest).
Proof.
  intros Hx Hrest. unfold decimal.
  destruct (uint_head (N.to_uint (Z.to_N x)) rest (to_uint_not_nil _))
    as (c & s & Heq & Hc).
  rewrite Heq, (scan_long_digit _ _ Hc), <- Heq.
  rewrite (scan_digits_uint _ _ Hrest). cbn [fst snd].
  change (Pos.of_uint (N.to_uint (Z.to_N x))) with (N.of_uint (N.to_uint (Z.to_N x))).
  rewrite DecimalN.Unsigned.of_to, Z2N.id by exact Hx. reflexivity.
Qed.

Lemma decimal_head x rest : starts_with_digit (decimal x ++ rest) = true.
Proof.
  unfold decimal.
  destruct (uint_head (N.to_uint (Z.to_N x)) rest (to_uint_not_nil _))
    as (c & s & -> & Hc).
  exact Hc.
Qed.

(** A well-formed line yields its number, as long as a [long] holds
    it. *)
Lemma scan_field_line label pad x :
  c_str label = label -> 0 <= x <= LONG_MAX ->
  scan_field (label ++ ":") (field_line label pad x) = Some x.
Proof.
  intros Hlabel Hx. unfold scan_field, field_line.
  rewrite (c_str_app _ _ Hlabel).
  rewrite (c_str_app ":" _ eq_refl), (c_str_app _ _ (c_str_spaces pad)).
  unfold decimal at 1. rewrite (c_str_app _ _ (c_str_uint _)).
  fold (decimal x). change (c_str (" kB" ++ nl)) with (" kB" ++ nl)%string.
  rewrite <- string_app_assoc.
  rewrite (proj2 (strip_prefix_app _ _ _) eq_refl).
  rewrite skip_space_spaces, (skip_space_digit _ (decimal_head _ _)).
  rewrite scan_long_decimal by (lia || reflexivity).
  cbn [fmap option_fmap option_map fst]. f_equal.
  unfold long_saturate, LONG_MAX, LONG_MIN in *. lia.
Qed.

End WellFormedLines.

(* ===================================================================== *)
(** ** Reading the outcome of a call *)
(* ===================================================================== *)

Section OutputCells.

Variables (pa ps : loc) (hp : ptr).
Hypothesis pa_ps : pa <> ps.
Hypothesis hp_pa : hp <> Some pa.
Hypothesis hp_ps : hp <> Some ps.

Variables (h : gmap loc Z) (t : tracked).

Lemma final_heap_avail : final_heap pa ps hp h t !! pa = Some (t_avail t).
Proof.
  unfold final_heap. destruct hp as [ph|].
  - rewrite lookup_insert_ne by congruence. apply lookup_insert_eq.
  - apply lookup_insert_eq.
Qed.

Lemma final_heap_swap : final_heap pa ps hp h t !! ps = Some (t_swap t).
Proof.
  unfold final_heap. destruct hp as [ph|].
  - rewrite !lookup_insert_ne by congruence. apply lookup_insert_eq.
  - rewrite lookup_insert_ne by congruence. apply lookup_insert_eq.
Qed.

Lemma final_heap_huge ph :
  hp = Some ph ->
  final_heap pa ps hp h t !! ph
  = Some (if result_code t =? 0 then huge_free_kb (t_hugetlb t) else 0).
Proof. intros ->. unfold final_heap. apply lookup_insert_eq. Qed.

Lemma final_heap_elsewhere l :
  l <> pa -> l <> ps -> hp <> Some l ->
  final_heap pa ps hp h t !! l = h !! l.
Proof.
  intros Ha Hs Hh. unfold final_heap. destruct hp as [ph|].
  - rewrite !lookup_insert_ne by congruence. reflexivity.
  - rewrite !lookup_insert_ne by congruence. reflexivity.
Qed.

End OutputCells.

Lemma result_code_0 t : result_code t = 0 <-> t_avail t <> -1 /\ t_swap t <> -1.
Proof.
  unfold result_code.
  destruct (Z.eqb_spec (t_avail t) (-1)), (Z.eqb_spec (t_swap t) (-1)); simpl;
    split; (lia || tauto || intuition discriminate).
Qed.

Lemma result_code_1 t : result_code t = 1 <-> t_avail t = -1 \/ t_swap t = -1.
Proof.
  unfold result_code.
  destruct (Z.eqb_spec (t_avail t) (-1)), (Z.eqb_spec (t_swap t) (-1)); simpl;
    split; (lia || tauto || intuition discriminate).
Qed.

Lemma accepts_false fmt b : accepts fmt b = false <-> sscanf b fmt = None.
Proof. unfold accepts. destruct (sscanf b fmt); split; (reflexivity || discriminate). Qed.

Lemma mandatory_line_false b :
  mandatory_line b = false <->
  sscanf b fmt_MemAvailable = None /\ sscanf b fmt_SwapFree = None.
Proof. unfold mandatory_line. rewrite orb_false_iff, !accepts_false. reflexivity. Qed.

Lemma unrecognized_not_mandatory b : unrecognized b = true -> mandatory_line b = false.
Proof.
  unfold unrecognized, mandatory_line, formats. cbn [forallb].
  rewrite !andb_true_iff, !negb_true_iff. intros (-> & -> & _). reflexivity.
Qed.

Section LastValueFacts.

Variables (fmt : string) (x : Z).

(** Among buffers that either lack the field or give it the value
    [x], the field ends as it began or as [x]... *)
Lemma last_value_stable lines d :
  (forall b, b ∈ lines -> sscanf b fmt = None \/ sscanf b fmt = Some x) ->
  last_value fmt lines d = d \/ last_value fmt lines d = x.
Proof.
  revert d. induction lines as [|b bs IH]; intros d H; [left; reflexivity|].
  rewrite last_value_cons.
  assert (Hbs : forall b', b' ∈ bs -> sscanf b' fmt = None \/ sscanf b' fmt = Some x)
    by (intros b' Hb'; apply H; right; exact Hb').
  destruct (H b (list_elem_of_here _ _)) as [E|E].
  - rewrite (pick_none _ _ _ E). apply IH, Hbs.
  - rewrite (pick_some _ _ _ _ E). right.
    destruct (IH x Hbs) as [E'|E']; exact E'.
Qed.

(** ... and as [x] if one of them has it. *)
Lemma last_value_found lines d b :
  (forall b, b ∈ lines -> sscanf b fmt = None \/ sscanf b fmt = Some x) ->
  b ∈ lines -> sscanf b fmt = Some x ->
  last_value fmt lines d = x.
Proof.
  revert d. induction lines as [|b' bs IH]; intros d H Hin Hb.
  - apply elem_of_nil in Hin. contradiction.
  - rewrite last_value_cons.
    assert (Hbs : forall b', b' ∈ bs -> sscanf b' fmt = None \/ sscanf b' fmt = Some x)
      by (intros b'' Hb''; apply H; right; exact Hb'').
    apply elem_of_cons in Hin as [<- | Hin].
    + rewrite (pick_some _ _ _ _ Hb).
      destruct (last_value_stable bs x Hbs) as [E|E]; exact E.
    + apply IH; assumption.
Qed.

End LastValueFacts.

Lemma scanned_subset hp lines t b : b ∈ scanned hp lines t -> b ∈ lines.
Proof.
  destruct (scanned_prefix hp lines t) as (rest & Heq & _).
  intros H. rewrite Heq. apply elem_of_app. left. exact H.
Qed.

Section MandatoryFound.

Variables (hp : ptr) (lines : list string) (la ls : string) (x y : Z).
Hypothesis la_value : sscanf la fmt_MemAvailable = Some x.
Hypothesis ls_value : sscanf ls fmt_SwapFree = Some y.
Hypothesis la_in : la ∈ lines.
Hypothesis ls_in : ls ∈ lines.
Hypothesis the_rest :
  forall b, b ∈ lines -> b = la \/ b = ls \/ mandatory_line b = false.

Let sc := scanned hp lines unset.

Lemma avail_stable b :
  b ∈ sc -> sscanf b fmt_MemAvailable = None \/ sscanf b fmt_MemAvailable = Some x.
Proof.
  intros Hb. apply scanned_subset in Hb.
  destruct (the_rest b Hb) as [-> | [-> | H]].
  - right. exact la_value.
  - left. apply (sscanf_other fmt_SwapFree _ _ y); auto with fmts; try discriminate; try eassumption.
  - left. apply mandatory_line_false in H. apply H.
Qed.

Lemma swap_stable b :
  b ∈ sc -> sscanf b fmt_SwapFree = None \/ sscanf b fmt_SwapFree = Some y.
Proof.
  intros Hb. apply scanned_subset in Hb.
  destruct (the_rest b Hb) as [-> | [-> | H]].
  - left. apply (sscanf_other fmt_MemAvailable _ _ x); auto with fmts; try discriminate; try eassumption.
  - right. exact ls_value.
  - left. apply mandatory_line_false in H. apply H.
Qed.

Lemma found_both :
  field_value fmt_MemAvailable sc = x /\ field_value fmt_SwapFree sc = y.
Proof.
  destruct (stopped hp lines unset) eqn:Hstop.
  - pose proof (scanned_by_break hp lines unset Hstop) as Hsat.
    fold sc in Hsat. rewrite satisfied_exit_condition in Hsat.
    unfold exit_condition, resolved in Hsat.
    apply andb_true_iff in Hsat as [Hsat _].
    apply andb_true_iff in Hsat as [Ha Hs].
    apply negb_true_iff, Z.eqb_neq in Ha. apply negb_true_iff, Z.eqb_neq in Hs.
    destruct (last_value_stable fmt_MemAvailable x sc (-1) avail_stable) as [E|E];
      [contradiction|].
    destruct (last_value_stable fmt_SwapFree y sc (-1) swap_stable) as [E'|E'];
      [contradiction|].
    split; assumption.
  - pose proof (scanned_to_the_end hp lines unset Hstop) as Hall. fold sc in Hall.
    split.
    + apply (last_value_found fmt_MemAvailable x sc (-1) la avail_stable);
        [rewrite Hall; exact la_in | exact la_value].
    + apply (last_value_found fmt_SwapFree y sc (-1) ls swap_stable);
        [rewrite Hall; exact ls_in | exact ls_value].
Qed.

End MandatoryFound.

Section Outcome.

Variables (pa ps : loc) (hp : ptr).
Hypothesis pa_ps : pa <> ps.
Hypothesis hp_pa : hp <> Some pa.
Hypothesis hp_ps : hp <> Some ps.

Variables (h : gmap loc Z) (content : string).

Let o := getAvailableMemory (Some pa) (Some ps) hp (before h content true).

Lemma outcome_lines : lines_of o = lines_scanned hp content.
Proof.
  unfold o, lines_of. rewrite getAvailableMemory_opened by assumption.
  cbn [snd log]. apply lines_read_log.
Qed.

Lemma outcome_code :
  code o = result_code (state_after (lines_of o) unset).
Proof.
  rewrite outcome_lines. unfold o, code.
  rewrite getAvailableMemory_opened by assumption. reflexivity.
Qed.

Lemma outcome_avail :
  cell o pa = Some (field_value fmt_MemAvailable (lines_of o)).
Proof.
  rewrite outcome_lines. unfold o, cell.
  rewrite getAvailableMemory_opened by assumption. cbn [snd heap].
  rewrite final_heap_avail by assumption.
  unfold final_state. rewrite final_fields. reflexivity.
Qed.

Lemma outcome_swap :
  cell o ps = Some (field_value fmt_SwapFree (lines_of o)).
Proof.
  rewrite outcome_lines. unfold o, cell.
  rewrite getAvailableMemory_opened by assumption. cbn [snd heap].
  rewrite final_heap_swap by assumption.
  unfold final_state. rewrite final_fields. reflexivity.
Qed.

Lemma outcome_huge ph :
  hp = Some ph ->
  cell o ph
  = Some (if code o =? 0
          then huge_free_kb (t_hugetlb (state_after (lines_of o) unset))
          else 0).
Proof.
  intros Hph. rewrite outcome_code, outcome_lines. unfold o, cell.
  rewrite getAvailableMemory_opened by assumption. cbn [snd heap].
  erewrite final_heap_huge by eassumption. reflexivity.
Qed.

Lemma outcome_elsewhere l :
  l <> pa -> l <> ps -> hp <> Some l -> cell o l = h !! l.
Proof.
  intros Ha Hs Hh. unfold o, cell.
  rewrite getAvailableMemory_opened by assumption. cbn [snd heap].
  apply final_heap_elsewhere; assumption.
Qed.

Lemma outcome_log :
  log (snd o)
  = EvFopen true
    :: (read_events (lines_of o) (left_by_break hp content) ++ [EvFclose])%list.
Proof.
  rewrite outcome_lines. unfold o.
  rewrite getAvailableMemory_opened by assumption. reflexivity.
Qed.

End Outcome.

Lemma code_0_resolved lines :
  result_code (state_after lines unset) = 0 <->
  resolved fmt_MemAvailable lines = true /\ resolved fmt_SwapFree lines = true.
Proof.
  rewrite result_code_0, final_fields. cbn [t_avail t_swap]. unfold resolved.
  rewrite !negb_true_iff, !Z.eqb_neq. reflexivity.
Qed.

Lemma last_value_invariant (P : Z -> Prop) fmt lines d :
  (forall b v, b ∈ lines -> sscanf b fmt = Some v -> P v) ->
  P d -> P (last_value fmt lines d).
Proof.
  revert d. induction lines as [|b bs IH]; intros d H Hd; [exact Hd|].
  rewrite last_value_cons. apply IH.
  - intros b' v Hb'. apply H. right. exact Hb'.
  - unfold pick. destruct (sscanf b fmt) as [v|] eqn:E; [|exact Hd].
    apply (H b v); [left | exact E].
Qed.

Lemma long_mul_exact a b : in_long (a * b) -> long_mul a b = a * b.
Proof.
  unfold in_long, long_mul, long_wrap, LONG_MIN, LONG_MAX. intros H.
  rewrite Z.mod_small by lia. lia.
Qed.

(* ===================================================================== *)
(** ** Properties of the routine *)
(* ===================================================================== *)

(** C1, as stated, fails, in two ways.  A line of the source longer than
    the buffer comes in pieces, and a piece of a line that is
    unrecognized as a whole may be accepted: here it gives the free swap
    as 99 where the source has [SwapFree: 3 kB].  And a value that a
    [long] cannot hold is not returned as written: 2^63 comes back as
    [LONG_MAX]. *)
Lemma written_values_not_returned :
  ~ mandatory_values_as_written
      (call 1%positive 2%positive None ∅ long_line_source true)
      long_line_source 1%positive 2%positive /\
  ~ mandatory_values_as_written
      (call 1%positive 2%positive None ∅ beyond_long_source true)
      beyond_long_source 1%positive 2%positive.
Proof.
  split.
  - intros H. destruct (H 5 3) as (_ & _ & Hs).
    + split; [lia|]. split; [lia|].
      exists 1%nat, 1%nat, [ (run_of "x" 511 ++ "SwapFree: 99 kB")%string ].
      split.
      * assert (E : source_lines long_line_source
                    = [ well_formed_line "MemAvailable" 1 5;
                        (run_of "x" 511 ++ "SwapFree: 99 kB")%string;
                        well_formed_line "SwapFree" 1 3 ])
          by (vm_compute; reflexivity).
        rewrite E. apply perm_skip, perm_swap.
      * constructor; [vm_compute; reflexivity | constructor].
    + assert (E : cell (call 1%positive 2%positive None ∅ long_line_source true)
                       2%positive = Some 99)
        by (vm_compute; reflexivity).
      rewrite E in Hs. discriminate Hs.
  - intros H. destruct (H 9223372036854775808 3) as (_ & Ha & _).
    + split; [lia|]. split; [lia|].
      exists 1%nat, 1%nat, []. split; [|constructor].
      assert (E : source_lines beyond_long_source
                  = [ well_formed_line "MemAvailable" 1 9223372036854775808;
                      well_formed_line "SwapFree" 1 3 ])
        by (vm_compute; reflexivity).
      rewrite E. apply Permutation_refl.
    + assert (E : cell (call 1%positive 2%positive None ∅ beyond_long_source true)
                       1%positive = Some LONG_MAX)
        by (vm_compute; reflexivity).
      rewrite E in Ha. discriminate Ha.
Qed.

(** C1, amended.  Take a source whose lines, as [fgets] delivers them,
    are a well-formed [MemAvailable: X kB] line, a well-formed
    [SwapFree: Y kB] line ([X] and [Y] non-negative and within [long])
    and, in any order and in any position, lines that carry neither of
    the two fields.  Then the call succeeds, the available-memory cell
    holds [X] and the free-swap cell holds [Y]. *)
Theorem mandatory_fields_returned
        (pa ps : loc) (hp : ptr) (h : gmap loc Z) (content : string)
        (X Y : Z) (padX padY : nat) (others : list string) :
  pa <> ps -> hp <> Some pa -> hp <> Some ps ->
  0 <= X <= LONG_MAX -> 0 <= Y <= LONG_MAX ->
  Permutation (fgets_lines content)
              (field_line "MemAvailable" padX X
               :: field_line "SwapFree" padY Y :: others) ->
  Forall (fun b => mandatory_line b = false) others ->
  code (call pa ps hp h content true) = 0 /\
  cell (call pa ps hp h content true) pa = Some X /\
  cell (call pa ps hp h content true) ps = Some Y.
Proof.
  intros Hps Hha Hhs HX HY Hperm Hothers.
  rewrite (getAvailableMemory_opened pa ps hp Hps Hha Hhs).
  unfold code, cell. cbn [fst snd heap].
  rewrite final_heap_avail, final_heap_swap by assumption.
  set (la := field_line "MemAvailable" padX X) in *.
  set (ls := field_line "SwapFree" padY Y) in *.
  assert (Hla : sscanf la fmt_MemAvailable = Some X).
  { rewrite sscanf_label by auto with fmts.
    apply (scan_field_line "MemAvailable"); [reflexivity | exact HX]. }
  assert (Hls : sscanf ls fmt_SwapFree = Some Y).
  { rewrite sscanf_label by auto with fmts.
    apply (scan_field_line "SwapFree"); [reflexivity | exact HY]. }
  destruct (found_both hp (fgets_lines content) la ls X Y Hla Hls) as [Ha Hs].
  - rewrite Hperm. apply list_elem_of_here.
  - rewrite Hperm. apply list_elem_of_further, list_elem_of_here.
  - intros b Hb. rewrite Hperm in Hb.
    apply elem_of_cons in Hb as [-> | Hb]; [left; reflexivity|].
    apply elem_of_cons in Hb as [-> | Hb]; [right; left; reflexivity|].
    right; right. rewrite Forall_forall in Hothers. apply Hothers. exact Hb.
  - unfold final_state, lines_scanned. rewrite final_fields. cbn [t_avail t_swap].
    rewrite Ha, Hs. split; [|split; reflexivity].
    apply result_code_0. cbn [t_avail t_swap]. lia.
Qed.

Lemma mandatory_fields_returned_witness :
  code (call 1%positive 2%positive (Some 3%positive) ∅ shuffled_source true) = 0 /\
  cell (call 1%positive 2%positive (Some 3%positive) ∅ shuffled_source true)
       1%positive = Some 524288 /\
  cell (call 1%positive 2%positive (Some 3%positive) ∅ shuffled_source true)
       2%positive = Some 131072.
Proof.
  apply (mandatory_fields_returned 1%positive 2%positive (Some 3%positive) ∅
           shuffled_source 524288 131072 4 8
           [ ("MemTotal:      1048576 kB" ++ nl)%string;
             ("Cached:           2048 kB" ++ nl)%string ]).
  - discriminate.
  - discriminate.
  - discriminate.
  - unfold LONG_MAX. lia.
  - unfold LONG_MAX. lia.
  - assert (E : fgets_lines shuffled_source
                = rev [ field_line "MemAvailable" 4 524288;
                        field_line "SwapFree" 8 131072;
                        ("MemTotal:      1048576 kB" ++ nl)%string;
                        ("Cached:           2048 kB" ++ nl)%string ])
      by (vm_compute; reflexivity).
    rewrite E. symmetry. apply Permutation_rev.
  - repeat constructor.
Defined.

(** C8.  If the source cannot be opened the call returns 1 at once: the
    heap is as it was, the log holds the failed [fopen] and no [fgets],
    and this outcome is the same whatever the source holds. *)
Theorem unopenable_source_fails
        (pa ps : loc) (hp : ptr) (h : gmap loc Z) (content : string) :
  getAvailableMemory (Some pa) (Some ps) hp (before h content false)
  = (1, World h content false None [EvFopen false]).
Proof. reflexivity. Qed.

(** C9.  If either mandatory pointer is null the call returns 1 and the
    world is untouched: nothing is stored through any pointer and the
    source is not even opened (nothing is logged). *)
Theorem null_pointer_rejected
        (availableMemoryKb freeSwapKb hugePagesInfoKb : ptr) (w : world) :
  availableMemoryKb = None \/ freeSwapKb = None ->
  getAvailableMemory availableMemoryKb freeSwapKb hugePagesInfoKb w = (1, w).
Proof.
  intros [-> | ->]; unfold getAvailableMemory.
  - reflexivity.
  - destruct availableMemoryKb; reflexivity.
Qed.

Lemma null_pointer_rejected_witness :
  getAvailableMemory (Some 1%positive) None (Some 3%positive)
    (before ∅ example_source true)
  = (1, before ∅ example_source true).
Proof. apply null_pointer_rejected. right. reflexivity. Defined.

(** C2, as stated, fails: [%ld] reads a sign, and a negative value other
    than -1 counts as resolved. *)
Lemma negative_value_accepted :
  ~ failed_or_both (fun v => 0 <= v)
      (call 1%positive 2%positive None ∅ negative_source true)
      1%positive 2%positive.
Proof.
  assert (E : getAvailableMemory (Some 1%positive) (Some 2%positive) None
                (before ∅ negative_source true)
              = (0, World (<[1%positive := -5]> (<[2%positive := 3]> ∅))
                          negative_source true None
                          [EvFopen true;
                           EvFgets (Some ("MemAvailable: -5 kB" ++ nl)%string);
                           EvFgets (Some ("SwapFree: 3 kB" ++ nl)%string);
                           EvFclose]))
    by (vm_compute; reflexivity).
  rewrite E. unfold failed_or_both, code, cell. cbn [fst snd heap].
  intros [H | (_ & x & y & Hx & _ & Hx0 & _)]; [discriminate|].
  rewrite lookup_insert_eq in Hx. injection Hx as <-. lia.
Qed.

(** C2, amended.  Whatever the source holds and whether or not it opens,
    a call either fails or succeeds with both mandatory cells resolved,
    that is, holding values other than the sentinel -1: no success has
    only one of them.  The values are those of the source: they are
    non-negative provided no [MemAvailable] or [SwapFree] line of the
    source carries a negative number. *)
Theorem mandatory_both_or_failure
        (pa ps : loc) (hp : ptr) (h : gmap loc Z) (content : string)
        (can_open : bool) :
  pa <> ps -> hp <> Some pa -> hp <> Some ps ->
  failed_or_both (fun v => v <> -1) (call pa ps hp h content can_open) pa ps /\
  (Forall (fun b => nonneg_entries b = true) (fgets_lines content) ->
   failed_or_both (fun v => 0 <= v) (call pa ps hp h content can_open) pa ps).
Proof.
  intros Hps Hha Hhs. destruct can_open; [|split; [|intros _]; left; reflexivity].
  set (o := getAvailableMemory _ _ _ _).
  pose proof (outcome_code pa ps hp Hps Hha Hhs h content) as Hcode.
  pose proof (outcome_avail pa ps hp Hps Hha Hhs h content) as Ha.
  pose proof (outcome_swap pa ps hp Hps Hha Hhs h content) as Hs.
  pose proof (outcome_lines pa ps hp Hps Hha Hhs h content) as Hl.
  fold o in Hcode, Ha, Hs, Hl.
  unfold failed_or_both.
  destruct (Z.eq_dec (code o) 1) as [E1|E1];
    [split; [|intros _]; left; exact E1|].
  assert (E0 : code o = 0).
  { rewrite Hcode in *. unfold result_code in *.
    destruct (_ || _); [contradiction | reflexivity]. }
  assert (Hres : field_value fmt_MemAvailable (lines_of o) <> -1 /\
                 field_value fmt_SwapFree (lines_of o) <> -1).
  { rewrite Hcode in E0. apply result_code_0 in E0.
    rewrite final_fields in E0. exact E0. }
  split.
  - right. split; [exact E0|]. eexists _, _. split; [exact Ha|].
    split; [exact Hs | exact Hres].
  - intros Hnn. right. split; [exact E0|]. eexists _, _. split; [exact Ha|].
    split; [exact Hs|].
    rewrite Forall_forall in Hnn.
    assert (Hin : forall b, b ∈ lines_of o -> nonneg_entries b = true).
    { intros b Hb. apply Hnn. rewrite Hl in Hb.
      eapply scanned_subset. exact Hb. }
    assert (HA : field_value fmt_MemAvailable (lines_of o) = -1 \/
                 0 <= field_value fmt_MemAvailable (lines_of o)).
    { apply (last_value_invariant (fun v => v = -1 \/ 0 <= v)); [|left; reflexivity].
      intros b v Hb Hv. right. specialize (Hin b Hb). unfold nonneg_entries in Hin.
      apply andb_true_iff in Hin as [Hin _]. rewrite (pick_some _ _ _ _ Hv) in Hin.
      apply Z.leb_le. exact Hin. }
    assert (HS : field_value fmt_SwapFree (lines_of o) = -1 \/
                 0 <= field_value fmt_SwapFree (lines_of o)).
    { apply (last_value_invariant (fun v => v = -1 \/ 0 <= v)); [|left; reflexivity].
      intros b v Hb Hv. right. specialize (Hin b Hb). unfold nonneg_entries in Hin.
      apply andb_true_iff in Hin as [_ Hin]. rewrite (pick_some _ _ _ _ Hv) in Hin.
      apply Z.leb_le. exact Hin. }
    lia.
Qed.

Lemma mandatory_both_or_failure_witness :
  failed_or_both (fun v => v <> -1)
    (call 1%positive 2%positive (Some 3%positive) ∅ example_source true)
    1%positive 2%positive /\
  failed_or_both (fun v => 0 <= v)
    (call 1%positive 2%positive (Some 3%positive) ∅ example_source true)
    1%positive 2%positive.
Proof.
  destruct (mandatory_both_or_failure 1%positive 2%positive (Some 3%positive) ∅
              example_source true) as [H1 H2].
  - discriminate.
  - discriminate.
  - discriminate.
  - split; [exact H1|]. apply H2.
    apply Forall_forall. intros b Hb. apply list_elem_of_In in Hb. revert b Hb.
    apply forallb_forall. vm_compute. reflexivity.
Defined.

Lemma huge_free_kb_fields lines :
  huge_free_kb (t_hugetlb (state_after lines unset))
  = if huge_pages_known lines
    then long_mul (freePages lines) (pageSizeKb lines)
    else 0.
Proof.
  rewrite final_fields. unfold huge_free_kb, huge_pages_known, resolved.
  cbn [t_hugetlb hugeTlbTotalPages hugeTlbFreePages hugeTlbPageSize].
  fold (totalPages lines) (freePages lines) (pageSizeKb lines).
  destruct (Z.eqb_spec (totalPages lines) (-1)) as [E|E],
           (Z.gtb_spec (totalPages lines) 0) as [G|G],
           (Z.ltb_spec 0 (totalPages lines)) as [L|L];
    try lia; cbn [negb andb];
    destruct (negb (freePages lines =? -1)), (negb (pageSizeKb lines =? -1));
    reflexivity.
Qed.

(** C3, as stated, fails: a field that a line has given the value -1
    counts as unset.  With a total of 3 pages, [HugePages_Free: -1] and a
    page size of 2048 the three fields have all been read and the total
    is positive, yet the cell holds 0 and not the product. *)
Lemma unset_value_not_multiplied :
  ~ huge_pages_as_observed
      (call 1%positive 2%positive (Some 3%positive) ∅ minus_one_free_source true)
      3%positive.
Proof.
  unfold huge_pages_as_observed. intros H.
  assert (Hc : code (call 1%positive 2%positive (Some 3%positive) ∅
                          minus_one_free_source true) = 0)
    by (vm_compute; reflexivity).
  specialize (H Hc). vm_compute in H. discriminate H.
Qed.

(** C3, amended.  After a successful call that asked for huge pages, the
    huge-page cell holds [freePages * pageSizeKb] when the three
    huge-page fields are resolved over the buffers read, that is, hold a
    value other than the sentinel -1, and [totalPages > 0]; it holds 0 in
    every other case.  The product is the one line 69 takes, in [long]:
    it is the product of the integers whenever a [long] can hold it. *)
Theorem huge_pages_free_derived
        (pa ps ph : loc) (h : gmap loc Z) (content : string) :
  pa <> ps -> ph <> pa -> ph <> ps ->
  code (call pa ps (Some ph) h content true) = 0 ->
  cell (call pa ps (Some ph) h content true) ph
  = Some (if huge_pages_known (lines_of (call pa ps (Some ph) h content true))
          then long_mul (freePages (lines_of (call pa ps (Some ph) h content true)))
                        (pageSizeKb (lines_of (call pa ps (Some ph) h content true)))
          else 0) /\
  (in_long (freePages (lines_of (call pa ps (Some ph) h content true))
            * pageSizeKb (lines_of (call pa ps (Some ph) h content true))) ->
   cell (call pa ps (Some ph) h content true) ph
   = Some (if huge_pages_known (lines_of (call pa ps (Some ph) h content true))
           then freePages (lines_of (call pa ps (Some ph) h content true))
                * pageSizeKb (lines_of (call pa ps (Some ph) h content true))
           else 0)).
Proof.
  intros Hps Hha Hhs Hcode.
  assert (H1 : Some ph <> Some pa) by congruence.
  assert (H2 : Some ph <> Some ps) by congruence.
  set (o := call pa ps (Some ph) h content true) in *.
  assert (Hcell : cell o ph
                  = Some (if huge_pages_known (lines_of o)
                          then long_mul (freePages (lines_of o)) (pageSizeKb (lines_of o))
                          else 0)).
  { unfold o. rewrite (outcome_huge pa ps (Some ph) Hps H1 H2 h content ph eq_refl).
    fold o. rewrite Hcode. cbn [Z.eqb]. rewrite huge_free_kb_fields. reflexivity. }
  split; [exact Hcell|].
  intros Hfit. rewrite Hcell, (long_mul_exact _ _ Hfit). reflexivity.
Qed.

Lemma huge_pages_free_derived_witness :
  cell (call 1%positive 2%positive (Some 3%positive) ∅ example_source true)
       3%positive
  = Some 4096.
Proof.
  destruct (huge_pages_free_derived 1%positive 2%positive 3%positive ∅ example_source)
    as [_ H].
  - discriminate.
  - discriminate.
  - discriminate.
  - vm_compute. reflexivity.
  - etransitivity; [apply H|].
    + vm_compute. split; discriminate.
    + vm_compute. reflexivity.
Defined.

(** Whether [lines] has an entry is a matter of the buffers that give the
    field a value other than the sentinel. *)
Section Entries.

Variable fmt : string.

Lemma last_value_unset lines d :
  (forall b, b ∈ lines -> ~ gives_sentinel fmt b) ->
  last_value fmt lines d = -1 <->
  d = -1 /\ forall b, b ∈ lines -> sscanf b fmt = None.
Proof.
  revert d. induction lines as [|b bs IH]; intros d H.
  - cbn. split; [intros ->; split; [reflexivity|] | intros [-> _]; reflexivity].
    intros b Hb. apply elem_of_nil in Hb. contradiction.
  - rewrite last_value_cons, IH by (intros b' Hb'; apply H; right; exact Hb').
    unfold pick. destruct (sscanf b fmt) as [v|] eqn:E.
    + split.
      * intros [-> _]. destruct (H b (list_elem_of_here _ _)). exact E.
      * intros [_ Hnone]. rewrite (Hnone b (list_elem_of_here _ _)) in E.
        discriminate.
    + split.
      * intros [-> Hnone]. split; [reflexivity|]. intros b' Hb'.
        apply elem_of_cons in Hb' as [-> | Hb']; [exact E | apply Hnone, Hb'].
      * intros [-> Hnone]. split; [reflexivity|]. intros b' Hb'.
        apply Hnone. right. exact Hb'.
Qed.

Lemma has_entry_false lines :
  (forall b, b ∈ lines -> ~ gives_sentinel fmt b) ->
  has_entry fmt lines = false <-> forall b, b ∈ lines -> sscanf b fmt = None.
Proof.
  intros H. unfold has_entry. split.
  - intros Hex b Hb. destruct (sscanf b fmt) as [v|] eqn:E; [|reflexivity].
    assert (Hv : v <> -1) by (intros ->; exact (H b Hb E)).
    assert (Hcontra : existsb (fun b => negb (pick fmt b (-1) =? -1)) lines = true).
    { apply existsb_exists. exists b. split; [apply list_elem_of_In; exact Hb|].
      rewrite (pick_some _ _ _ _ E). apply negb_true_iff, Z.eqb_neq. exact Hv. }
    rewrite Hcontra in Hex. discriminate.
  - intros Hnone. apply not_true_is_false. intros Hex.
    apply existsb_exists in Hex as (b & Hb & Hv).
    apply list_elem_of_In in Hb. rewrite (pick_none _ _ _ (Hnone b Hb)) in Hv.
    discriminate.
Qed.

Lemma field_unset_no_entry lines :
  (forall b, b ∈ lines -> ~ gives_sentinel fmt b) ->
  field_value fmt lines = -1 <-> has_entry fmt lines = false.
Proof.
  intros H. unfold field_value. rewrite (last_value_unset _ _ H), (has_entry_false _ H).
  split; [intros [_ H']; exact H' | intros H'; split; [reflexivity | exact H']].
Qed.

Lemma has_entry_mono l1 l2 :
  (forall b, b ∈ l1 -> b ∈ l2) -> has_entry fmt l1 = true -> has_entry fmt l2 = true.
Proof.
  unfold has_entry. intros Hsub H. apply existsb_exists in H as (b & Hb & Hv).
  apply existsb_exists. exists b. split; [|exact Hv].
  apply list_elem_of_In, Hsub, list_elem_of_In, Hb.
Qed.

End Entries.

Lemma sentinel_free_avail b :
  sentinel_free b = true -> ~ gives_sentinel fmt_MemAvailable b.
Proof.
  unfold sentinel_free, gives_sentinel. intros H E. rewrite E in H. discriminate.
Qed.

Lemma sentinel_free_swap b :
  sentinel_free b = true -> ~ gives_sentinel fmt_SwapFree b.
Proof.
  unfold sentinel_free, gives_sentinel. intros H E. rewrite E in H.
  destruct (sscanf b fmt_MemAvailable) as [v|] eqn:E'; [|discriminate].
  assert (fmt_MemAvailable = fmt_SwapFree)
    by (eapply formats_exclusive; eauto with fmts).
  discriminate.
Qed.

(** Whether a call fails is a matter of the mandatory entries of the
    source alone, as long as none of them carries the sentinel. *)
Lemma failure_iff_entry_missing hp lines :
  Forall (fun b => sentinel_free b = true) lines ->
  result_code (state_after (scanned hp lines unset) unset) = 1 <->
  has_entry fmt_MemAvailable lines = false \/ has_entry fmt_SwapFree lines = false.
Proof.
  intros Hfree. rewrite Forall_forall in Hfree.
  set (sc := scanned hp lines unset).
  assert (Hsub : forall b, b ∈ sc -> b ∈ lines) by (intros b; apply scanned_subset).
  assert (HA : forall b, b ∈ sc -> ~ gives_sentinel fmt_MemAvailable b)
    by (intros b Hb; apply sentinel_free_avail, Hfree, Hsub, Hb).
  assert (HS : forall b, b ∈ sc -> ~ gives_sentinel fmt_SwapFree b)
    by (intros b Hb; apply sentinel_free_swap, Hfree, Hsub, Hb).
  rewrite result_code_1, final_fields. cbn [t_avail t_swap].
  rewrite (field_unset_no_entry _ _ HA), (field_unset_no_entry _ _ HS).
  destruct (stopped hp lines unset) eqn:Hstop.
  - pose proof (scanned_by_break hp lines unset Hstop) as Hsat. fold sc in Hsat.
    rewrite satisfied_exit_condition in Hsat. unfold exit_condition in Hsat.
    apply andb_true_iff in Hsat as [Hsat _].
    apply andb_true_iff in Hsat as [Ha Hs].
    unfold resolved in Ha, Hs.
    apply negb_true_iff, Z.eqb_neq in Ha. apply negb_true_iff, Z.eqb_neq in Hs.
    rewrite (field_unset_no_entry _ _ HA) in Ha.
    rewrite (field_unset_no_entry _ _ HS) in Hs.
    apply not_false_is_true in Ha. apply not_false_is_true in Hs.
    rewrite Ha, Hs, (has_entry_mono _ _ _ Hsub Ha), (has_entry_mono _ _ _ Hsub Hs).
    reflexivity.
  - unfold sc. rewrite (scanned_to_the_end hp lines unset Hstop). reflexivity.
Qed.

Lemma has_entry_mandatory fmt lines :
  fmt = fmt_MemAvailable \/ fmt = fmt_SwapFree ->
  has_entry fmt (List.filter mandatory_line lines) = has_entry fmt lines.
Proof.
  intros Hfmt. unfold has_entry. induction lines as [|b bs IH]; [reflexivity|].
  cbn [List.filter existsb]. destruct (mandatory_line b) eqn:E.
  - cbn [existsb]. rewrite IH. reflexivity.
  - rewrite IH. apply mandatory_line_false in E as [E1 E2].
    destruct Hfmt as [-> | ->];
      [rewrite (pick_none _ _ _ E1) | rewrite (pick_none _ _ _ E2)]; reflexivity.
Qed.

Lemma sentinel_free_mandatory l1 l2 :
  List.filter mandatory_line l1 = List.filter mandatory_line l2 ->
  Forall (fun b => sentinel_free b = true) l2 ->
  Forall (fun b => sentinel_free b = true) l1.
Proof.
  intros Heq H2. rewrite Forall_forall in *. intros b Hb.
  destruct (mandatory_line b) eqn:E.
  - apply H2. apply list_elem_of_In.
    apply (proj1 (filter_In mandatory_line b l2)).
    rewrite <- Heq. apply filter_In. split; [apply list_elem_of_In; exact Hb | exact E].
  - apply mandatory_line_false in E as [E1 E2].
    unfold sentinel_free. rewrite E1, E2. reflexivity.
Qed.

(** C4, as stated, fails: a later [MemAvailable: -1] line puts the field
    back to the sentinel, and the call fails although the source has
    resolvable entries for both fields. *)
Lemma sentinel_line_unresolves :
  ~ fails_iff_entry_missing
      (call 1%positive 2%positive None ∅ overwritten_source true)
      (fgets_lines overwritten_source).
Proof.
  unfold fails_iff_entry_missing. intros [H _].
  assert (E : code (call 1%positive 2%positive None ∅ overwritten_source true) = 1)
    by (vm_compute; reflexivity).
  destruct (H E) as [H' | H']; vm_compute in H'; discriminate H'.
Qed.

(** C4, amended.  For a source that opens and in which no [MemAvailable]
    or [SwapFree] line carries the sentinel -1, the call fails if and only
    if the source has no [MemAvailable] entry or no [SwapFree] entry.
    Nothing else counts: a call on any source with the same mandatory
    lines, whatever its huge-page lines and whether or not huge pages are
    asked for, returns the same code. *)
Theorem fails_iff_mandatory_missing
        (pa ps : loc) (hp : ptr) (h : gmap loc Z) (content : string) :
  pa <> ps -> hp <> Some pa -> hp <> Some ps ->
  Forall (fun b => sentinel_free b = true) (fgets_lines content) ->
  fails_iff_entry_missing (call pa ps hp h content true) (fgets_lines content) /\
  forall (hp' : ptr) (h' : gmap loc Z) (content' : string),
    hp' <> Some pa -> hp' <> Some ps ->
    List.filter mandatory_line (fgets_lines content')
    = List.filter mandatory_line (fgets_lines content) ->
    code (call pa ps hp' h' content' true) = code (call pa ps hp h content true).
Proof.
  intros Hps Hha Hhs Hfree.
  assert (Hiff : forall hp0 h0 content0,
             hp0 <> Some pa -> hp0 <> Some ps ->
             Forall (fun b => sentinel_free b = true) (fgets_lines content0) ->
             fails_iff_entry_missing (call pa ps hp0 h0 content0 true)
                                     (fgets_lines content0)).
  { intros hp0 h0 content0 H1 H2 H3. unfold fails_iff_entry_missing.
    rewrite (outcome_code pa ps hp0 Hps H1 H2), (outcome_lines pa ps hp0 Hps H1 H2).
    apply failure_iff_entry_missing. exact H3. }
  split; [apply Hiff; assumption|].
  intros hp' h' content' H1 H2 Heq.
  pose proof (Hiff hp h content Hha Hhs Hfree) as Ho.
  pose proof (Hiff hp' h' content' H1 H2
                (sentinel_free_mandatory _ _ Heq Hfree)) as Ho'.
  unfold fails_iff_entry_missing in Ho, Ho'.
  rewrite <- (has_entry_mandatory fmt_MemAvailable (fgets_lines content')),
          <- (has_entry_mandatory fmt_SwapFree (fgets_lines content')),
          Heq, !has_entry_mandatory in Ho' by tauto.
  rewrite <- Ho' in Ho.
  rewrite (outcome_code pa ps hp Hps Hha Hhs) in *.
  rewrite (outcome_code pa ps hp' Hps H1 H2) in *.
  unfold result_code in *.
  destruct (_ || _), (_ || _); lia.
Qed.

Lemma fails_iff_mandatory_missing_witness :
  fails_iff_entry_missing
    (call 1%positive 2%positive (Some 3%positive) ∅ example_source true)
    (fgets_lines example_source) /\
  code (call 1%positive 2%positive None ∅ no_huge_source true)
  = code (call 1%positive 2%positive (Some 3%positive) ∅ example_source true).
Proof.
  destruct (fails_iff_mandatory_missing 1%positive 2%positive (Some 3%positive) ∅
              example_source) as [H1 H2].
  - discriminate.
  - discriminate.
  - discriminate.
  - apply Forall_forall. intros b Hb. apply list_elem_of_In in Hb. revert b Hb.
    apply forallb_forall. vm_compute. reflexivity.
  - split; [exact H1|]. apply H2.
    + discriminate.
    + discriminate.
    + vm_compute. reflexivity.
Defined.

Lemma exit_condition_nil hp : exit_condition hp [] = false.
Proof. reflexivity. Qed.

Lemma stopped_exit_condition hp lines :
  stopped hp lines unset = exit_condition hp (scanned hp lines unset).
Proof.
  destruct (stopped hp lines unset) eqn:Hstop.
  - symmetry. rewrite <- satisfied_exit_condition. apply scanned_by_break. exact Hstop.
  - rewrite (scanned_to_the_end hp lines unset Hstop).
    destruct (exit_condition hp lines) eqn:E; [|reflexivity].
    rewrite <- Hstop. apply satisfied_stopped.
    + intros ->. rewrite exit_condition_nil in E. discriminate.
    + rewrite satisfied_exit_condition. exact E.
Qed.

Lemma scanned_ignores_rest hp pre post :
  exit_condition hp pre = true ->
  scanned hp (pre ++ post) unset = scanned hp pre unset.
Proof.
  intros H. apply scanned_app_stopped. apply satisfied_stopped.
  - intros ->. rewrite exit_condition_nil in H. discriminate.
  - rewrite satisfied_exit_condition. exact H.
Qed.

(** C5, as stated, fails: a field that a line has given the value -1
    counts as unresolved.  After [MemAvailable: -1] and [SwapFree: 3]
    both mandatory fields have been given a value, yet with a null
    huge-page pointer a third line is read (and its value is the one
    returned). *)
Lemma line_read_after_both_observed :
  ~ stops_once_observed None
      (call 1%positive 2%positive None ∅ late_value_source true).
Proof.
  unfold stops_once_observed. intros H. specialize (H 2%nat).
  assert (E : lines_of (call 1%positive 2%positive None ∅ late_value_source true)
              = [ ("MemAvailable: -1 kB" ++ nl)%string;
                  ("SwapFree: 3 kB" ++ nl)%string;
                  ("MemAvailable: 9 kB" ++ nl)%string ])
    by (vm_compute; reflexivity).
  rewrite E in H. cbn [List.length take] in H.
  specialize (H ltac:(lia)). vm_compute in H. discriminate H.
Qed.

(** C5, amended.  A field is resolved when it holds a value other than
    the sentinel -1.  The buffers a call reads form an initial part of
    the source.  None is read after one that made the exit condition
    hold: both mandatory fields resolved and, if huge pages are asked
    for, the three huge-page fields too.  The scan ends on such a buffer,
    without a further [fgets], or else at the end of the source.  Hence
    whatever follows an initial part on which the condition holds has no
    effect on the outcome; without huge pages that is whatever follows
    the buffer that resolved the second mandatory field. *)
Theorem early_exit_bounds_scan
        (pa ps : loc) (hp : ptr) (h : gmap loc Z) (content : string) :
  pa <> ps -> hp <> Some pa -> hp <> Some ps ->
  (exists rest,
      fgets_lines content = (lines_of (call pa ps hp h content true) ++ rest)%list /\
      (exit_condition hp (lines_of (call pa ps hp h content true)) = false ->
       rest = [])) /\
  (forall k,
      (k < List.length (lines_of (call pa ps hp h content true)))%nat ->
      exit_condition hp (take k (lines_of (call pa ps hp h content true))) = false) /\
  log (snd (call pa ps hp h content true))
  = EvFopen true
    :: (read_events
          (lines_of (call pa ps hp h content true))
          (exit_condition hp (lines_of (call pa ps hp h content true)))
        ++ [EvFclose])%list /\
  forall (pre post : list string) (h' : gmap loc Z) (content' : string),
    fgets_lines content = (pre ++ post)%list ->
    exit_condition hp pre = true ->
    (exists post', fgets_lines content' = (pre ++ post')%list) ->
    code (call pa ps hp h' content' true) = code (call pa ps hp h content true) /\
    cell (call pa ps hp h' content' true) pa = cell (call pa ps hp h content true) pa /\
    cell (call pa ps hp h' content' true) ps = cell (call pa ps hp h content true) ps /\
    (forall ph, hp = Some ph ->
       cell (call pa ps hp h' content' true) ph
       = cell (call pa ps hp h content true) ph) /\
    lines_of (call pa ps hp h' content' true)
    = lines_of (call pa ps hp h content true).
Proof.
  intros Hps Hha Hhs.
  pose proof (outcome_lines pa ps hp Hps Hha Hhs) as Hl.
  pose proof (outcome_code pa ps hp Hps Hha Hhs) as Hc.
  pose proof (outcome_avail pa ps hp Hps Hha Hhs) as Ha.
  pose proof (outcome_swap pa ps hp Hps Hha Hhs) as Hs.
  pose proof (outcome_huge pa ps hp Hps Hha Hhs) as Hh.
  split; [|split; [|split]].
  - rewrite Hl. unfold lines_scanned.
    destruct (scanned_prefix hp (fgets_lines content) unset) as (rest & Heq & Hrest).
    exists rest. split; [exact Heq|].
    rewrite <- stopped_exit_condition. exact Hrest.
  - intros k. rewrite Hl. unfold lines_scanned. intros Hk.
    destruct k as [|k]; [rewrite take_0; apply exit_condition_nil|].
    rewrite <- satisfied_exit_condition. apply scanned_not_before. lia.
  - rewrite (outcome_log pa ps hp Hps Hha Hhs), Hl.
    unfold left_by_break, lines_scanned. rewrite stopped_exit_condition. reflexivity.
  - intros pre post h' content' Hsplit Hexit [post' Hsplit'].
    assert (Hsame : lines_of (call pa ps hp h' content' true)
                    = lines_of (call pa ps hp h content true)).
    { rewrite !Hl. unfold lines_scanned. rewrite Hsplit, Hsplit'.
      rewrite !(scanned_ignores_rest hp pre _ Hexit). reflexivity. }
    split; [rewrite !Hc, Hsame; reflexivity|].
    split; [rewrite !Ha, Hsame; reflexivity|].
    split; [rewrite !Hs, Hsame; reflexivity|].
    split; [|exact Hsame].
    intros ph Hph. rewrite !(Hh _ _ ph Hph), !Hc, Hsame. reflexivity.
Qed.

Lemma early_exit_bounds_scan_witness :
  (code (call 1%positive 2%positive None ∅ no_huge_source true)
   = code (call 1%positive 2%positive None ∅ malformed_tail_source true) /\
   cell (call 1%positive 2%positive None ∅ no_huge_source true) 1%positive
   = cell (call 1%positive 2%positive None ∅ malformed_tail_source true)
          1%positive /\
   cell (call 1%positive 2%positive None ∅ no_huge_source true) 2%positive
   = cell (call 1%positive 2%positive None ∅ malformed_tail_source true)
          2%positive) /\
  ((4 < List.length (lines_of (call 1%positive 2%positive (Some 3%positive) ∅
                                    example_source true)))%nat /\
   exit_condition (Some 3%positive)
     (take 4 (lines_of (call 1%positive 2%positive (Some 3%positive) ∅
                             example_source true)))
   = false).
Proof.
  split; [|split].
  2: { vm_compute. repeat constructor. }
  2: { destruct (early_exit_bounds_scan 1%positive 2%positive (Some 3%positive) ∅
                   example_source
                   ltac:(discriminate) ltac:(discriminate) ltac:(discriminate))
         as (_ & H & _).
       apply (H 4%nat). vm_compute. repeat constructor. }
  destruct (early_exit_bounds_scan 1%positive 2%positive None ∅ malformed_tail_source)
    as (_ & _ & _ & H).
  - discriminate.
  - discriminate.
  - discriminate.
  - destruct (H [ ("MemAvailable:    524288 kB" ++ nl)%string;
                  ("SwapFree:        131072 kB" ++ nl)%string ]
                [ ("HugePages_Total:   many" ++ nl)%string;
                  ("HugePages_Free:       ?" ++ nl)%string;
                  ("Hugepagesize:      2 MB" ++ nl)%string ]
                ∅ no_huge_source) as (H1 & H2 & H3 & _).
    + vm_compute. reflexivity.
    + vm_compute. reflexivity.
    + exists []. vm_compute. reflexivity.
    + split; [exact H1 | split; [exact H2 | exact H3]].
Defined.

(** C6, as stated, fails: the routine writes its results through the
    caller's pointers as it scans, so after a failure for want of
    [SwapFree] the available-memory cell holds the value read. *)
Lemma partial_result_left_in_cell :
  ~ no_result_on_failure ∅
      (call 1%positive 2%positive None ∅ partial_source true)
      1%positive 2%positive.
Proof.
  assert (E : getAvailableMemory (Some 1%positive) (Some 2%positive) None
                (before ∅ partial_source true)
              = (1, World (<[1%positive := 5]> (<[2%positive := -1]> ∅))
                          partial_source true None
                          [EvFopen true;
                           EvFgets (Some ("MemAvailable: 5 kB" ++ nl)%string);
                           EvFgets None; EvFclose]))
    by (vm_compute; reflexivity).
  rewrite E. unfold no_result_on_failure, nothing_returned, code, cell.
  cbn [fst snd heap]. intros H. destruct H as [[H | H] _]; [discriminate| |].
  - rewrite lookup_insert_eq, lookup_empty in H. discriminate.
  - rewrite lookup_insert_eq in H. discriminate.
Qed.

(** C6, amended.  A call that fails returns 1, and that is the caller's
    only signal.  If the source could not be opened the heap is as it
    was.  If it was opened, the output cells have been written: at least
    one of the two mandatory cells holds the sentinel -1, each holds the
    last value read for its field (or -1), the huge-page cell, if asked
    for, holds 0, and no other cell has changed. *)
Theorem failure_leaves_sentinel
        (pa ps : loc) (hp : ptr) (h : gmap loc Z) (content : string)
        (can_open : bool) :
  pa <> ps -> hp <> Some pa -> hp <> Some ps ->
  code (call pa ps hp h content can_open) <> 0 ->
  code (call pa ps hp h content can_open) = 1 /\
  (can_open = false -> heap (snd (call pa ps hp h content can_open)) = h) /\
  (can_open = true ->
   (cell (call pa ps hp h content can_open) pa = Some (-1) \/
    cell (call pa ps hp h content can_open) ps = Some (-1)) /\
   cell (call pa ps hp h content can_open) pa
   = Some (field_value fmt_MemAvailable (lines_of (call pa ps hp h content can_open))) /\
   cell (call pa ps hp h content can_open) ps
   = Some (field_value fmt_SwapFree (lines_of (call pa ps hp h content can_open))) /\
   (forall ph, hp = Some ph -> cell (call pa ps hp h content can_open) ph = Some 0) /\
   (forall l, l <> pa -> l <> ps -> hp <> Some l ->
      cell (call pa ps hp h content can_open) l = h !! l)).
Proof.
  intros Hps Hha Hhs. destruct can_open.
  - pose proof (outcome_code pa ps hp Hps Hha Hhs h content) as Hc.
    pose proof (outcome_avail pa ps hp Hps Hha Hhs h content) as Ha.
    pose proof (outcome_swap pa ps hp Hps Hha Hhs h content) as Hs.
    pose proof (outcome_huge pa ps hp Hps Hha Hhs h content) as Hh.
    pose proof (outcome_elsewhere pa ps hp Hps Hha Hhs h content) as He.
    set (o := getAvailableMemory _ _ _ _) in *.
    intros Hfail.
    assert (H1 : code o = 1).
    { rewrite Hc in *. unfold result_code in *.
      destruct (_ || _); [reflexivity | contradiction]. }
    split; [exact H1|]. split; [discriminate|]. intros _.
    split; [|split; [exact Ha | split; [exact Hs | split; [|exact He]]]].
    + rewrite Ha, Hs. rewrite Hc in H1. apply result_code_1 in H1.
      rewrite final_fields in H1. cbn [t_avail t_swap] in H1.
      destruct H1 as [-> | ->]; [left | right]; reflexivity.
    + intros ph Hph. rewrite (Hh ph Hph), H1. reflexivity.
  - intros _. split; [reflexivity|]. split; [reflexivity | discriminate].
Qed.

Lemma failure_leaves_sentinel_witness :
  cell (call 1%positive 2%positive (Some 3%positive) ∅ partial_source true)
       1%positive = Some 5 /\
  cell (call 1%positive 2%positive (Some 3%positive) ∅ partial_source true)
       2%positive = Some (-1) /\
  cell (call 1%positive 2%positive (Some 3%positive) ∅ partial_source true)
       3%positive = Some 0.
Proof.
  destruct (failure_leaves_sentinel 1%positive 2%positive (Some 3%positive) ∅
              partial_source true) as (_ & _ & H).
  - discriminate.
  - discriminate.
  - discriminate.
  - vm_compute. discriminate.
  - destruct (H eq_refl) as (_ & Ha & Hs & Hh & _).
    split; [etransitivity; [exact Ha | vm_compute; reflexivity]|].
    split; [etransitivity; [exact Hs | vm_compute; reflexivity]|].
    apply Hh. reflexivity.
Defined.

Section OneLine.

Variables (pa ps : loc) (b : string) (lv : locals) (w : world).

Ltac cascade :=
  unfold match_line;
  change "MemAvailable: %ld kB" with fmt_MemAvailable;
  change "SwapFree: %ld kB" with fmt_SwapFree;
  change "HugePages_Total: %ld" with fmt_HugePages_Total;
  change "HugePages_Free: %ld" with fmt_HugePages_Free;
  change "Hugepagesize: %ld kB" with fmt_Hugepagesize.

Ltac skip fmt H other :=
  rewrite (sscanf_other fmt other b _ ltac:(auto with fmts) ltac:(auto with fmts)
                        ltac:(discriminate) H).

Lemma match_line_unrecognized :
  unrecognized b = true -> match_line pa ps b lv w = (lv, w).
Proof.
  unfold unrecognized, formats. cbn [forallb].
  rewrite !andb_true_iff, !negb_true_iff, !accepts_false.
  intros (E1 & E2 & E3 & E4 & E5 & _). cascade.
  rewrite E1, E2, E3, E4, E5. reflexivity.
Qed.

Lemma match_line_MemAvailable v :
  sscanf b fmt_MemAvailable = Some v ->
  match_line pa ps b lv w = (lv, snd (store pa v w)).
Proof. intros E. cascade. rewrite E. reflexivity. Qed.

Lemma match_line_SwapFree v :
  sscanf b fmt_SwapFree = Some v ->
  match_line pa ps b lv w = (lv, snd (store ps v w)).
Proof. intros E. cascade. skip fmt_SwapFree E fmt_MemAvailable. rewrite E. reflexivity.
Qed.

Lemma match_line_HugePages_Total v :
  sscanf b fmt_HugePages_Total = Some v ->
  match_line pa ps b lv w
  = (Locals v (hugeTlbFreePages lv) (hugeTlbPageSize lv), w).
Proof.
  intros E. cascade. skip fmt_HugePages_Total E fmt_MemAvailable.
  skip fmt_HugePages_Total E fmt_SwapFree. rewrite E. reflexivity.
Qed.

Lemma match_line_HugePages_Free v :
  sscanf b fmt_HugePages_Free = Some v ->
  match_line pa ps b lv w
  = (Locals (hugeTlbTotalPages lv) v (hugeTlbPageSize lv), w).
Proof.
  intros E. cascade. skip fmt_HugePages_Free E fmt_MemAvailable.
  skip fmt_HugePages_Free E fmt_SwapFree.
  skip fmt_HugePages_Free E fmt_HugePages_Total. rewrite E. reflexivity.
Qed.

Lemma match_line_Hugepagesize v :
  sscanf b fmt_Hugepagesize = Some v ->
  match_line pa ps b lv w
  = (Locals (hugeTlbTotalPages lv) (hugeTlbFreePages lv) v, w).
Proof.
  intros E. cascade. skip fmt_Hugepagesize E fmt_MemAvailable.
  skip fmt_Hugepagesize E fmt_SwapFree.
  skip fmt_Hugepagesize E fmt_HugePages_Total.
  skip fmt_Hugepagesize E fmt_HugePages_Free. rewrite E. reflexivity.
Qed.

(** A buffer that starts with a label but has no numeral after it is a
    buffer no format accepts. *)
Lemma label_without_number fmt rest :
  fmt ∈ formats ->
  c_str b = (label_of fmt ++ rest)%string ->
  scan_long (skip_space rest) = None ->
  unrecognized b = true.
Proof.
  intros Hfmt Hb Hnum. unfold unrecognized. apply forallb_forall.
  intros fmt' Hfmt'. apply list_elem_of_In in Hfmt'.
  apply negb_true_iff, accepts_false.
  rewrite (sscanf_label _ _ Hfmt'). unfold scan_field.
  destruct (strip_prefix (label_of fmt') (c_str b)) as [r|] eqn:E; [|reflexivity].
  apply strip_prefix_app in E. rewrite Hb in E. symmetry in E.
  pose proof (labels_part_ways _ _ _ _ Hfmt' Hfmt E) as ->.
  apply (f_equal (strip_prefix (label_of fmt))) in E.
  rewrite !(proj2 (strip_prefix_app _ _ _) eq_refl) in E.
  injection E as ->. rewrite Hnum. reflexivity.
Qed.

End OneLine.

(** C7, as stated, fails in its last part: a value that is not a
    well-formed integer but starts with digits is read as far as its
    digits go.  [MemAvailable: 12abc] sets the available memory to 12. *)
Lemma leading_digits_are_a_value :
  ~ malformed_value_ignored 1%positive 2%positive
      ("MemAvailable: 12abc" ++ nl)%string (Locals (-1) (-1) (-1))
      (before ∅ EmptyString true).
Proof.
  intros H.
  specialize (H fmt_MemAvailable (" 12abc" ++ nl)%string in_formats_1
                eq_refl eq_refl).
  vm_compute in H. discriminate H.
Qed.

(** C7, amended.  One buffer, one field.  No buffer is accepted by two of
    the five formats, so the order in which they are tried never decides;
    a buffer accepted by a format changes the quantity of that format and
    nothing else; a buffer accepted by none changes nothing; a buffer
    that starts with a label but has no integer after it (optional white
    space, optional sign, at least one digit) is a buffer accepted by
    none; and a buffer that starts with a label is accepted by the format
    of that label exactly when an integer follows the label, with the
    value of that integer, whatever comes after its digits. *)
Theorem one_line_one_field
        (pa ps : loc) (b : string) (lv : locals) (w : world) :
  (forall fmt1 fmt2 v1 v2,
      fmt1 ∈ formats -> fmt2 ∈ formats ->
      sscanf b fmt1 = Some v1 -> sscanf b fmt2 = Some v2 -> fmt1 = fmt2) /\
  (unrecognized b = true -> match_line pa ps b lv w = (lv, w)) /\
  (forall fmt rest,
      fmt ∈ formats ->
      c_str b = (label_of fmt ++ rest)%string ->
      scan_long (skip_space rest) = None ->
      unrecognized b = true /\ match_line pa ps b lv w = (lv, w)) /\
  (forall v, sscanf b fmt_MemAvailable = Some v ->
             match_line pa ps b lv w = (lv, snd (store pa v w))) /\
  (forall v, sscanf b fmt_SwapFree = Some v ->
             match_line pa ps b lv w = (lv, snd (store ps v w))) /\
  (forall v, sscanf b fmt_HugePages_Total = Some v ->
             match_line pa ps b lv w
             = (Locals v (hugeTlbFreePages lv) (hugeTlbPageSize lv), w)) /\
  (forall v, sscanf b fmt_HugePages_Free = Some v ->
             match_line pa ps b lv w
             = (Locals (hugeTlbTotalPages lv) v (hugeTlbPageSize lv), w)) /\
  (forall v, sscanf b fmt_Hugepagesize = Some v ->
             match_line pa ps b lv w
             = (Locals (hugeTlbTotalPages lv) (hugeTlbFreePages lv) v, w)) /\
  (forall fmt value,
      fmt ∈ formats ->
      c_str b = (label_of fmt ++ value)%string ->
      sscanf b fmt = fst <$> scan_long (skip_space value)).
Proof.
  split; [intros fmt1 fmt2 v1 v2; apply formats_exclusive|].
  split; [apply match_line_unrecognized|].
  split.
  { intros fmt rest Hfmt Hb Hnum.
    pose proof (label_without_number b fmt rest Hfmt Hb Hnum) as Hun.
    split; [exact Hun | apply match_line_unrecognized; exact Hun]. }
  split; [apply match_line_MemAvailable|].
  split; [apply match_line_SwapFree|].
  split; [apply match_line_HugePages_Total|].
  split; [apply match_line_HugePages_Free|].
  split; [apply match_line_Hugepagesize|].
  intros fmt value Hfmt Hb. rewrite (sscanf_label _ _ Hfmt). unfold scan_field.
  rewrite Hb, (proj2 (strip_prefix_app _ _ _) eq_refl). reflexivity.
Qed.

Lemma one_line_one_field_witness :
  match_line 1%positive 2%positive ("HugePages_Total:   many" ++ nl)%string
             (Locals 4 2 2048) (before ∅ example_source true)
  = (Locals 4 2 2048, before ∅ example_source true) /\
  match_line 1%positive 2%positive ("HugePages_Total:   7" ++ nl)%string
             (Locals 4 2 2048) (before ∅ example_source true)
  = (Locals 7 2 2048, before ∅ example_source true) /\
  sscanf ("MemAvailable: 12abc" ++ nl) fmt_MemAvailable = Some 12.
Proof.
  split; [|split].
  3: { destruct (one_line_one_field 1%positive 2%positive
                   ("MemAvailable: 12abc" ++ nl)%string
                   (Locals 4 2 2048) (before ∅ example_source true))
         as (_ & _ & _ & _ & _ & _ & _ & _ & H).
       etransitivity;
         [ apply (H fmt_MemAvailable (" 12abc" ++ nl)%string in_formats_1);
           vm_compute; reflexivity
         | vm_compute; reflexivity ]. }
  - destruct (one_line_one_field 1%positive 2%positive
                ("HugePages_Total:   many" ++ nl)%string
                (Locals 4 2 2048) (before ∅ example_source true))
      as (_ & _ & H & _).
    apply (H fmt_HugePages_Total ("   many" ++ nl)%string).
    + auto with fmts.
    + vm_compute. reflexivity.
    + vm_compute. reflexivity.
  - destruct (one_line_one_field 1%positive 2%positive
                ("HugePages_Total:   7" ++ nl)%string
                (Locals 4 2 2048) (before ∅ example_source true))
      as (_ & _ & _ & _ & _ & H & _).
    apply (H 7). vm_compute. reflexivity.
Defined.

Lemma last_value_last fmt pre b post v d :
  sscanf b fmt = Some v ->
  Forall (fun b' => sscanf b' fmt = None) post ->
  last_value fmt (pre ++ b :: post) d = v.
Proof.
  intros Hb Hpost. rewrite last_value_app, last_value_cons, (pick_some _ _ _ _ Hb).
  induction Hpost as [|b' post Hb' _ IH]; [reflexivity|].
  rewrite last_value_cons, (pick_none _ _ _ Hb'). exact IH.
Qed.

(** C10.  After a call on a source that opens, each mandatory cell holds
    the value its field has over the buffers read, and after a success the
    huge-page cell holds what the three huge-page fields over those buffers
    give; and the value of a field over the buffers read is the value of
    the last of them that its format accepts, whatever earlier ones
    carried. *)
Theorem last_line_wins
        (pa ps : loc) (hp : ptr) (h : gmap loc Z) (content : string) :
  pa <> ps -> hp <> Some pa -> hp <> Some ps ->
  cell (call pa ps hp h content true) pa
  = Some (field_value fmt_MemAvailable (lines_of (call pa ps hp h content true))) /\
  cell (call pa ps hp h content true) ps
  = Some (field_value fmt_SwapFree (lines_of (call pa ps hp h content true))) /\
  (forall ph,
      hp = Some ph ->
      code (call pa ps hp h content true) = 0 ->
      cell (call pa ps hp h content true) ph
      = Some (if huge_pages_known (lines_of (call pa ps hp h content true))
              then long_mul (freePages (lines_of (call pa ps hp h content true)))
                            (pageSizeKb (lines_of (call pa ps hp h content true)))
              else 0)) /\
  forall fmt pre b post v,
    lines_of (call pa ps hp h content true) = (pre ++ b :: post)%list ->
    sscanf b fmt = Some v ->
    Forall (fun b' => sscanf b' fmt = None) post ->
    field_value fmt (lines_of (call pa ps hp h content true)) = v.
Proof.
  intros Hps Hha Hhs.
  split; [apply outcome_avail; assumption|].
  split; [apply outcome_swap; assumption|].
  split.
  - intros ph Hph Hcode.
    rewrite (outcome_huge pa ps hp Hps Hha Hhs h content ph Hph), Hcode.
    cbn [Z.eqb]. rewrite huge_free_kb_fields. reflexivity.
  - intros fmt pre b post v -> Hb Hpost. apply last_value_last; assumption.
Qed.

Lemma last_line_wins_witness :
  cell (call 1%positive 2%positive (Some 3%positive) ∅ repeated_source true)
       1%positive
  = Some 4.
Proof.
  destruct (last_line_wins 1%positive 2%positive (Some 3%positive) ∅ repeated_source)
    as (Ha & _ & _ & Hlast).
  - discriminate.
  - discriminate.
  - discriminate.
  - etransitivity; [exact Ha|]. apply (f_equal Some).
    apply (Hlast fmt_MemAvailable
             [ ("MemAvailable: 1 kB" ++ nl)%string;
               ("HugePages_Total: 1" ++ nl)%string;
               ("MemAvailable: 2 kB" ++ nl)%string;
               ("SwapFree: 3 kB" ++ nl)%string ]
             ("MemAvailable: 4 kB" ++ nl)%string []).
    + vm_compute. reflexivity.
    + vm_compute. reflexivity.
    + constructor.
Defined.

(* ===================================================================== *)
(** ** What a call leaves alone *)
(* ===================================================================== *)

(** The facts of this part need nothing of the pointers: they may be
    null, and they may name the same cell. *)
Section Untouched.

Variables (availableMemoryKb freeSwapKb hugePagesInfoKb : ptr).

Local Abbreviation R := (untouched availableMemoryKb freeSwapKb hugePagesInfoKb).

Lemma untouched_refl w : R w w.
Proof. repeat split. Qed.

Lemma untouched_trans w1 w2 w3 : R w1 w2 -> R w2 w3 -> R w1 w3.
Proof.
  intros (Hm1 & Hr1 & Hh1) (Hm2 & Hr2 & Hh2). repeat split.
  - congruence.
  - congruence.
  - intros l Ha Hs Hh. rewrite Hh2, Hh1 by assumption. reflexivity.
Qed.

Lemma keeps_ret {A} (x : A) : keeps R (ret x).
Proof. intros w. apply untouched_refl. Qed.

Lemma keeps_bind {A B} (m : M A) (k : A -> M B) :
  keeps R m -> (forall x, keeps R (k x)) -> keeps R (bind m k).
Proof.
  intros Hm Hk w. unfold bind. specialize (Hm w).
  destruct (m w) as [x w']. eapply untouched_trans; [exact Hm | apply Hk].
Qed.

Lemma keeps_store p v :
  availableMemoryKb = Some p \/ freeSwapKb = Some p \/ hugePagesInfoKb = Some p ->
  keeps R (store p v).
Proof.
  intros Hp w. repeat split. intros l Ha Hs Hh. cbn [store snd heap].
  apply lookup_insert_ne. intros ->. destruct Hp as [Hp | [Hp | Hp]]; congruence.
Qed.

Lemma keeps_load p : keeps R (load p).
Proof. intros w. apply untouched_refl. Qed.

Lemma keeps_fopen : keeps R fopen_meminfo.
Proof.
  intros w. unfold fopen_meminfo.
  destruct (readable w) eqn:E; repeat split; cbn; congruence.
Qed.

Lemma keeps_fgets size : keeps R (fgets_stream size).
Proof.
  intros w. unfold fgets_stream.
  destruct (stream w) as [unread|]; [|repeat split].
  destruct (fgets size unread) as [[b r]|]; repeat split.
Qed.

Lemma keeps_fclose : keeps R fclose_stream.
Proof. intros w. repeat split. Qed.

Lemma keeps_unread_length : keeps R unread_length.
Proof. intros w. apply untouched_refl. Qed.

Lemma keeps_match_line pa ps b lv :
  availableMemoryKb = Some pa -> freeSwapKb = Some ps ->
  keeps R (match_line pa ps b lv).
Proof.
  intros Ha Hs. unfold match_line.
  repeat match goal with
         | |- context [match sscanf ?x ?f with _ => _ end] => destruct (sscanf x f)
         end;
    try apply keeps_ret;
    (apply keeps_bind; [apply keeps_store; auto | intros _; apply keeps_ret]).
Qed.

Lemma keeps_read_loop fuel pa ps lv :
  availableMemoryKb = Some pa -> freeSwapKb = Some ps ->
  keeps R (read_loop fuel pa ps hugePagesInfoKb lv).
Proof.
  intros Ha Hs. revert lv. induction fuel as [|fuel IH]; intros lv.
  - apply keeps_ret.
  - cbn [read_loop]. apply keeps_bind; [apply keeps_fgets|].
    intros [b|]; [|apply keeps_ret].
    apply keeps_bind; [apply keeps_match_line; assumption|]. intros lv'.
    apply keeps_bind; [apply keeps_load|]. intros a.
    apply keeps_bind; [apply keeps_load|]. intros s.
    destruct (early_exit a s hugePagesInfoKb lv'); [apply keeps_ret | apply IH].
Qed.

End Untouched.

(** X1.  Whatever its three pointers are (null, distinct or naming the
    same cell) and whatever the world it starts in, a call changes no
    cell but the ones its pointers name, and leaves the file and its
    readability as they are. *)
Theorem call_writes_outputs_only (pa ps hp : ptr) (w : world) :
  untouched pa ps hp w (snd (getAvailableMemory pa ps hp w)).
Proof.
  revert w. change (keeps (untouched pa ps hp) (getAvailableMemory pa ps hp)).
  unfold getAvailableMemory.
  destruct pa as [pa|]; [|apply keeps_ret].
  destruct ps as [ps|]; [|apply keeps_ret].
  apply keeps_bind; [apply keeps_fopen|]. intros [|]; [|apply keeps_ret].
  apply keeps_bind; [apply keeps_store; auto|]. intros _.
  apply keeps_bind; [apply keeps_store; auto|]. intros _.
  apply keeps_bind.
  { destruct hp; [apply keeps_store; auto | apply keeps_ret]. }
  intros _. apply keeps_bind; [apply keeps_unread_length|]. intros n.
  apply keeps_bind; [apply keeps_read_loop; reflexivity|]. intros lv.
  apply keeps_bind; [apply keeps_fclose|]. intros _.
  apply keeps_bind; [apply keeps_load|]. intros a.
  apply keeps_bind; [apply keeps_load|]. intros s.
  destruct ((a =? -1) || (s =? -1)); [apply keeps_ret|].
  apply keeps_bind; [|intros _; apply keeps_ret].
  destruct hp; [|apply keeps_ret].
  destruct (_ && _ && _); [apply keeps_store; auto | apply keeps_ret].
Qed.

(* ===================================================================== *)
(** ** One call after another *)
(* ===================================================================== *)

Section CallAgain.

Variables (pa ps : loc) (hp : ptr).
Hypothesis pa_ps : pa <> ps.
Hypothesis hp_pa : hp <> Some pa.
Hypothesis hp_ps : hp <> Some ps.

Variables (h : gmap loc Z) (content : string).

(** [getAvailableMemory_opened], from a world that has a past. *)
Lemma getAvailableMemory_opened_from lg :
  getAvailableMemory (Some pa) (Some ps) hp (World h content true None lg)
  = (result_code (final_state hp content),
     World (final_heap pa ps hp h (final_state hp content)) content true None
           (lg ++ EvFopen true
               :: read_events (lines_scanned hp content) (left_by_break hp content)
               ++ [EvFclose])).
Proof.
  unfold getAvailableMemory.
  unfold bind at 1. cbn [fopen_meminfo readable heap meminfo log stream].
  rewrite !store_bind.
  destruct hp as [ph|].
  - assert (Ha : ph <> pa) by congruence. assert (Hs : ph <> ps) by congruence.
    rewrite store_bind, init_cells_huge by assumption.
    unfold bind at 1. cbn [unread_length stream].
    change (Locals (-1) (-1) (-1)) with (t_hugetlb unset).
    unfold bind at 1. rewrite (read_loop_run pa ps (Some ph) pa_ps) by lia.
    fold (lines_scanned (Some ph) content) (left_by_break (Some ph) content).
    fold (final_state (Some ph) content).
    set (t := final_state (Some ph) content).
    unfold bind at 1. cbn [fclose_stream heap meminfo readable log].
    rewrite (load_bind _ _ _ _ _ _ _ _ (cells_lookup_avail _ _ _ _)).
    rewrite (load_bind _ _ _ _ _ _ _ _ (cells_lookup_swap _ _ pa_ps _ _)).
    rewrite result_code_test. unfold final_heap, cells.
    destruct (result_code t =? 0) eqn:Hr; cbn [negb].
    + apply Z.eqb_eq in Hr. rewrite Hr. unfold huge_free_kb.
      destruct (_ && _ && _).
      * rewrite store_bind.
        rewrite (insert_insert_ne _ ph pa), (insert_insert_ne _ ph ps) by assumption.
        rewrite insert_insert_eq.
        rewrite <- (insert_insert_ne _ ph ps), <- (insert_insert_ne _ ph pa) by assumption.
        rewrite <- !app_assoc. reflexivity.
      * rewrite ret_bind.
        rewrite <- (insert_insert_ne _ ph ps), <- (insert_insert_ne _ ph pa) by assumption.
        rewrite <- !app_assoc. reflexivity.
    + unfold result_code in *.
      destruct ((t_avail t =? -1) || (t_swap t =? -1)); [|discriminate].
      rewrite <- (insert_insert_ne _ ph ps), <- (insert_insert_ne _ ph pa) by assumption.
      rewrite <- !app_assoc. reflexivity.
  - rewrite ret_bind, init_cells_null by assumption.
    unfold bind at 1. cbn [unread_length stream].
    change (Locals (-1) (-1) (-1)) with (t_hugetlb unset).
    unfold bind at 1. rewrite (read_loop_run pa ps None pa_ps) by lia.
    fold (lines_scanned None content) (left_by_break None content).
    fold (final_state None content).
    set (t := final_state None content).
    unfold bind at 1. cbn [fclose_stream heap meminfo readable log].
    rewrite (load_bind _ _ _ _ _ _ _ _ (cells_lookup_avail _ _ _ _)).
    rewrite (load_bind _ _ _ _ _ _ _ _ (cells_lookup_swap _ _ pa_ps _ _)).
    rewrite result_code_test. unfold final_heap, cells, result_code.
    destruct ((t_avail t =? -1) || (t_swap t =? -1)); cbn [negb Z.eqb];
      rewrite <- !app_assoc; reflexivity.
Qed.

Lemma getAvailableMemory_unopened_from lg :
  getAvailableMemory (Some pa) (Some ps) hp (World h content false None lg)
  = (1, World h content false None (lg ++ [EvFopen false])).
Proof. reflexivity. Qed.

(** Writing the outputs over themselves changes nothing. *)
Lemma final_heap_again t :
  final_heap pa ps hp (final_heap pa ps hp h t) t = final_heap pa ps hp h t.
Proof.
  apply map_eq. intros l.
  destruct (decide (l = pa)) as [->|Ha].
  { rewrite !final_heap_avail by assumption. reflexivity. }
  destruct (decide (l = ps)) as [->|Hs].
  { rewrite !final_heap_swap by assumption. reflexivity. }
  destruct (decide (hp = Some l)) as [Hh|Hh].
  { rewrite !(final_heap_huge pa ps hp hp_pa hp_ps _ t l Hh). reflexivity. }
  rewrite !final_heap_elsewhere by assumption. reflexivity.
Qed.

(** The outputs are a matter of the file alone. *)
Lemma final_heap_outputs h' t l :
  l = pa \/ l = ps \/ hp = Some l ->
  final_heap pa ps hp h t !! l = final_heap pa ps hp h' t !! l.
Proof.
  intros [-> | [-> | Hh]].
  - rewrite !final_heap_avail by assumption. reflexivity.
  - rewrite !final_heap_swap by assumption. reflexivity.
  - rewrite !(final_heap_huge pa ps hp hp_pa hp_ps _ t l Hh). reflexivity.
Qed.

End CallAgain.

(** X2.  The cells the pointers name are outputs only: a call writes them
    before it reads them.  The return code and the library calls made do
    not depend on what the heap held before, and after a call on a file
    that opens neither do the three output cells. *)
Theorem outputs_written_before_read
        (pa ps : loc) (hp : ptr) (h h' : gmap loc Z) (content : string)
        (can_open : bool) :
  pa <> ps -> hp <> Some pa -> hp <> Some ps ->
  code (call pa ps hp h content can_open)
  = code (call pa ps hp h' content can_open) /\
  log (snd (call pa ps hp h content can_open))
  = log (snd (call pa ps hp h' content can_open)) /\
  (can_open = true ->
   forall l, l = pa \/ l = ps \/ hp = Some l ->
     cell (call pa ps hp h content can_open) l
     = cell (call pa ps hp h' content can_open) l).
Proof.
  intros Hps Hha Hhs. destruct can_open.
  - rewrite !(getAvailableMemory_opened pa ps hp Hps Hha Hhs).
    unfold code, cell. cbn [fst snd heap log].
    split; [reflexivity|]. split; [reflexivity|]. intros _ l Hl.
    apply final_heap_outputs; assumption.
  - unfold before. rewrite !getAvailableMemory_unopened_from.
    split; [reflexivity|]. split; [reflexivity|]. discriminate.
Qed.

Lemma outputs_written_before_read_witness :
  code (call 1%positive 2%positive (Some 3%positive) ∅ example_source true)
  = code (call 1%positive 2%positive (Some 3%positive)
               (<[1%positive := 7]> (<[3%positive := 9]> ∅)) example_source true) /\
  log (snd (call 1%positive 2%positive (Some 3%positive) ∅ example_source true))
  = log (snd (call 1%positive 2%positive (Some 3%positive)
                   (<[1%positive := 7]> (<[3%positive := 9]> ∅))
                   example_source true)) /\
  (true = true ->
   forall l, l = 1%positive \/ l = 2%positive \/ Some 3%positive = Some l ->
     cell (call 1%positive 2%positive (Some 3%positive) ∅ example_source true) l
     = cell (call 1%positive 2%positive (Some 3%positive)
                  (<[1%positive := 7]> (<[3%positive := 9]> ∅))
                  example_source true) l).
Proof.
  apply (outputs_written_before_read 1%positive 2%positive (Some 3%positive));
    discriminate.
Defined.

(** X3.  A second call on a file that has not changed gives what the
    first gave: the same return code and the same heap.  It makes the
    same library calls over again, and like the first it leaves no stream
    open. *)
Theorem second_call_same
        (pa ps : loc) (hp : ptr) (h : gmap loc Z) (content : string)
        (can_open : bool) :
  pa <> ps -> hp <> Some pa -> hp <> Some ps ->
  code (getAvailableMemory (Some pa) (Some ps) hp
          (snd (call pa ps hp h content can_open)))
  = code (call pa ps hp h content can_open) /\
  heap (snd (getAvailableMemory (Some pa) (Some ps) hp
               (snd (call pa ps hp h content can_open))))
  = heap (snd (call pa ps hp h content can_open)) /\
  log (snd (getAvailableMemory (Some pa) (Some ps) hp
              (snd (call pa ps hp h content can_open))))
  = (log (snd (call pa ps hp h content can_open))
     ++ log (snd (call pa ps hp h content can_open)))%list /\
  stream (snd (call pa ps hp h content can_open)) = None /\
  stream (snd (getAvailableMemory (Some pa) (Some ps) hp
                 (snd (call pa ps hp h content can_open)))) = None.
Proof.
  intros Hps Hha Hhs. destruct can_open.
  - rewrite (getAvailableMemory_opened pa ps hp Hps Hha Hhs). cbn [snd].
    rewrite (getAvailableMemory_opened_from pa ps hp Hps Hha Hhs).
    unfold code. cbn [fst snd heap log stream].
    rewrite (final_heap_again pa ps hp Hps Hha Hhs). repeat split.
  - unfold before. rewrite getAvailableMemory_unopened_from. cbn [snd].
    rewrite getAvailableMemory_unopened_from. repeat split.
Qed.

Lemma second_call_same_witness :
  code (getAvailableMemory (Some 1%positive) (Some 2%positive) (Some 3%positive)
          (snd (call 1%positive 2%positive (Some 3%positive) ∅
                     example_source true)))
  = code (call 1%positive 2%positive (Some 3%positive) ∅ example_source true) /\
  heap (snd (getAvailableMemory (Some 1%positive) (Some 2%positive)
               (Some 3%positive)
               (snd (call 1%positive 2%positive (Some 3%positive) ∅
                          example_source true))))
  = heap (snd (call 1%positive 2%positive (Some 3%positive) ∅
                    example_source true)).
Proof.
  destruct (second_call_same 1%positive 2%positive (Some 3%positive) ∅
              example_source true
              ltac:(discriminate) ltac:(discriminate) ltac:(discriminate))
    as (Hc & Hh & _).
  split; [exact Hc | exact Hh].
Defined.

(* ===================================================================== *)
(** ** How much of the file is read *)
(* ===================================================================== *)

Lemma joined_app l1 l2 : joined (l1 ++ l2) = (joined l1 ++ joined l2)%string.
Proof.
  induction l1 as [|b l1 IH]; [reflexivity|].
  cbn [app joined]. rewrite IH. symmetry. apply string_app_assoc.
Qed.

(** The buffers of a file make up the file. *)
Lemma fgets_lines_joined s : joined (fgets_lines s) = s.
Proof.
  remember (String.length s) as n eqn:Hn. revert s Hn.
  induction n as [n IH] using lt_wf_ind. intros s Hn.
  destruct (fgets 512 s) as [[b r]|] eqn:E.
  - rewrite (fgets_lines_cons _ _ _ E). cbn [joined].
    rewrite (IH (String.length r)) with (s := r);
      [ | subst n; apply fgets_shrinks in E; exact E | reflexivity ].
    symmetry. apply (fgets_split _ _ _ E).
  - apply fgets_none in E. subst s. reflexivity.
Qed.

Lemma fgets_lines_fit s :
  Forall (fun b => (1 <= String.length b <= 511)%nat) (fgets_lines s).
Proof.
  remember (String.length s) as n eqn:Hn. revert s Hn.
  induction n as [n IH] using lt_wf_ind. intros s Hn.
  destruct (fgets 512 s) as [[b r]|] eqn:E.
  - rewrite (fgets_lines_cons _ _ _ E). constructor.
    + apply (fgets_split _ _ _ E).
    + apply (IH (String.length r)); [|reflexivity].
      subst n. apply fgets_shrinks in E. exact E.
  - apply fgets_none in E. subst s. constructor.
Qed.

(** Leaving the loop by [break] means success. *)
Lemma stopped_succeeds hp lines :
  stopped hp lines unset = true ->
  result_code (state_after (scanned hp lines unset) unset) = 0.
Proof.
  intros H. apply scanned_by_break in H. apply result_code_0.
  unfold satisfied, early_exit in H.
  apply andb_true_iff in H as [H _]. apply andb_true_iff in H as [Ha Hs].
  apply negb_true_iff in Ha, Hs. apply Z.eqb_neq in Ha, Hs. split; assumption.
Qed.

(** X4.  A call reads the file from its start, in one pass: the buffers
    it reads, put end to end, are an initial part of the file, each of
    them has from 1 to 511 characters (so that it fits [lineBuffer] with
    its closing NUL), and a call that fails for want of a mandatory field
    has read the file to its end. *)
Theorem file_read_from_the_start
        (pa ps : loc) (hp : ptr) (h : gmap loc Z) (content : string) :
  pa <> ps -> hp <> Some pa -> hp <> Some ps ->
  (exists rest,
      content = (joined (lines_of (call pa ps hp h content true)) ++ rest)%string /\
      (code (call pa ps hp h content true) = 1 -> rest = EmptyString)) /\
  Forall (fun b => (1 <= String.length b <= 511)%nat)
         (lines_of (call pa ps hp h content true)).
Proof.
  intros Hps Hha Hhs.
  rewrite (outcome_code pa ps hp Hps Hha Hhs).
  rewrite (outcome_lines pa ps hp Hps Hha Hhs). unfold lines_scanned.
  destruct (scanned_prefix hp (fgets_lines content) unset) as (rest & Hrest & Hend).
  split.
  - exists (joined rest). split.
    + rewrite <- joined_app, <- Hrest. symmetry. apply fgets_lines_joined.
    + intros Hcode.
      destruct (stopped hp (fgets_lines content) unset) eqn:Hst.
      * apply stopped_succeeds in Hst. congruence.
      * rewrite (Hend eq_refl). reflexivity.
  - pose proof (fgets_lines_fit content) as Hfit.
    rewrite Forall_forall in Hfit |- *. intros b Hb.
    apply Hfit. eapply scanned_subset. exact Hb.
Qed.

Lemma file_read_from_the_start_witness :
  (exists rest,
      overwritten_source
      = (joined (lines_of (call 1%positive 2%positive None ∅
                                overwritten_source true)) ++ rest)%string /\
      (code (call 1%positive 2%positive None ∅ overwritten_source true) = 1 ->
       rest = EmptyString)) /\
  Forall (fun b => (1 <= String.length b <= 511)%nat)
         (lines_of (call 1%positive 2%positive None ∅ overwritten_source true)).
Proof.
  apply (file_read_from_the_start 1%positive 2%positive None); discriminate.
Defined.

(* ===================================================================== *)
(** ** Numbers, as written and as read *)
(* ===================================================================== *)

Section Numbers.

Lemma string_app_empty s : (s ++ EmptyString)%string = s.
Proof.
  induction s as [|c s IH]; [reflexivity|].
  cbn [String.append]. f_equal. exact IH.
Qed.

Lemma scan_digits_decimal x rest :
  0 <= x -> starts_with_digit rest = false ->
  scan_digits (decimal x ++ rest) 0 = (x, rest).
Proof.
  intros Hx Hrest. unfold decimal. rewrite (scan_digits_uint _ _ Hrest).
  change (Pos.of_uint (N.to_uint (Z.to_N x))) with (N.of_uint (N.to_uint (Z.to_N x))).
  rewrite DecimalN.Unsigned.of_to, Z2N.id by exact Hx. reflexivity.
Qed.

Lemma print_long_nonneg z : 0 <= z -> print_long z = decimal z.
Proof.
  intros Hz. unfold print_long.
  destruct (z <? 0) eqn:E; [apply Z.ltb_lt in E; lia | reflexivity].
Qed.

Lemma c_str_print_long z : c_str (print_long z) = print_long z.
Proof.
  unfold print_long. destruct (z <? 0).
  - cbn [c_str]. change (Ascii.eqb "-" zero) with false. cbv iota.
    f_equal. apply c_str_uint.
  - apply c_str_uint.
Qed.

Lemma skip_space_print_long z rest :
  skip_space (print_long z ++ rest) = (print_long z ++ rest)%string.
Proof.
  unfold print_long. destruct (z <? 0).
  - reflexivity.
  - apply skip_space_digit, decimal_head.
Qed.

(** What [%ld] writes, [%ld] reads back. *)
Lemma scan_long_print_long z rest :
  in_long z -> starts_with_digit rest = false ->
  scan_long (print_long z ++ rest) = Some (z, rest).
Proof.
  unfold in_long, LONG_MIN, LONG_MAX. intros Hz Hrest. unfold print_long.
  destruct (z <? 0) eqn:E.
  - apply Z.ltb_lt in E. cbn [String.append]. unfold scan_long.
    rewrite decimal_head, scan_digits_decimal by (lia || exact Hrest).
    do 2 f_equal. unfold long_saturate, LONG_MIN, LONG_MAX. lia.
  - apply Z.ltb_ge in E. rewrite scan_long_decimal by (lia || exact Hrest).
    do 2 f_equal. unfold long_saturate, LONG_MIN, LONG_MAX. lia.
Qed.

Lemma c_str_no_digit rest :
  starts_with_digit rest = false -> starts_with_digit (c_str rest) = false.
Proof.
  destruct rest as [|c rest]; [reflexivity|]. cbn [c_str starts_with_digit].
  destruct (Ascii.eqb c zero); [reflexivity | intros H; exact H].
Qed.

Lemma c_str_label fmt : fmt ∈ formats -> c_str (label_of fmt) = label_of fmt.
Proof. intros H. each_format H; reflexivity. Qed.

(** A buffer that has a label, blanks or none, and a number is accepted
    by the format of the label, with that number. *)
Lemma sscanf_number fmt pad z rest :
  fmt ∈ formats -> in_long z -> starts_with_digit rest = false ->
  sscanf (label_of fmt ++ spaces pad ++ print_long z ++ rest) fmt = Some z.
Proof.
  intros Hfmt Hz Hrest. rewrite (sscanf_label _ _ Hfmt). unfold scan_field.
  rewrite (c_str_app _ _ (c_str_label _ Hfmt)).
  rewrite (c_str_app _ _ (c_str_spaces pad)).
  rewrite (c_str_app _ _ (c_str_print_long z)).
  rewrite (proj2 (strip_prefix_app _ _ _) eq_refl).
  rewrite skip_space_spaces, skip_space_print_long.
  rewrite (scan_long_print_long _ _ Hz (c_str_no_digit _ Hrest)).
  reflexivity.
Qed.

End Numbers.

(** X5.  Of a buffer that starts with a label, only the number counts.
    Blanks before it are optional, a sign is read, any value of a [long]
    is taken as it stands, and what follows the number is not looked at:
    the [kB] of three of the formats is never checked, so that a line
    giving another unit is read like one in kilobytes. *)
Theorem only_the_number_counts
        (fmt : string) (pad : nat) (z : Z) (rest : string) :
  fmt ∈ formats -> in_long z -> starts_with_digit rest = false ->
  sscanf (label_of fmt ++ spaces pad ++ print_long z ++ rest) fmt = Some z /\
  forall pa ps lv w,
    match_line pa ps (label_of fmt ++ spaces pad ++ print_long z ++ rest) lv w
    = match_line pa ps (label_of fmt ++ spaces pad ++ print_long z) lv w.
Proof.
  intros Hfmt Hz Hrest.
  pose proof (sscanf_number fmt pad z rest Hfmt Hz Hrest) as H1.
  pose proof (sscanf_number fmt pad z EmptyString Hfmt Hz eq_refl) as H2.
  split; [exact H1|]. intros pa ps lv w.
  rewrite <- (string_app_empty (print_long z)) at 2.
  each_format Hfmt.
  - rewrite !(match_line_MemAvailable _ _ _ _ _ z) by assumption. reflexivity.
  - rewrite !(match_line_SwapFree _ _ _ _ _ z) by assumption. reflexivity.
  - rewrite !(match_line_HugePages_Total _ _ _ _ _ z) by assumption. reflexivity.
  - rewrite !(match_line_HugePages_Free _ _ _ _ _ z) by assumption. reflexivity.
  - rewrite !(match_line_Hugepagesize _ _ _ _ _ z) by assumption. reflexivity.
Qed.

Lemma only_the_number_counts_witness :
  sscanf "MemAvailable:-5 MB" fmt_MemAvailable = Some (-5).
Proof.
  apply (only_the_number_counts fmt_MemAvailable 0 (-5) " MB").
  - auto with fmts.
  - unfold in_long, LONG_MIN, LONG_MAX. lia.
  - reflexivity.
Defined.

(* ===================================================================== *)
(** ** Lines longer than the buffer *)
(* ===================================================================== *)

Lemma unrecognized_none b fmt :
  unrecognized b = true -> fmt ∈ formats -> sscanf b fmt = None.
Proof.
  unfold unrecognized. rewrite forallb_forall. intros H Hfmt.
  apply accepts_false. apply negb_true_iff. apply H.
  apply list_elem_of_In. exact Hfmt.
Qed.

Lemma update_unrecognized b t : unrecognized b = true -> update b t = t.
Proof.
  intros H. rewrite update_pick.
  rewrite !pick_none by (apply unrecognized_none; auto with fmts).
  destruct t as [a s [x y z]]. reflexivity.
Qed.

Lemma satisfied_unset hp : satisfied hp unset = false.
Proof. reflexivity. Qed.

Section LongLine.

Variables (hp : ptr) (run content : string).
Hypothesis run_length : String.length run = 511%nat.
Hypothesis run_plain : no_newline run = true.
Hypothesis run_unrecognized : unrecognized run = true.

Lemma fgets_lines_long : fgets_lines (run ++ content) = run :: fgets_lines content.
Proof. apply fgets_lines_cons, fgets_full; assumption. Qed.

Lemma lines_scanned_long :
  lines_scanned hp (run ++ content) = run :: lines_scanned hp content.
Proof.
  unfold lines_scanned. rewrite fgets_lines_long, scanned_cons.
  rewrite (update_unrecognized _ _ run_unrecognized), satisfied_unset.
  reflexivity.
Qed.

Lemma final_state_long : final_state hp (run ++ content) = final_state hp content.
Proof.
  unfold final_state. rewrite lines_scanned_long, state_after_cons.
  rewrite (update_unrecognized _ _ run_unrecognized). reflexivity.
Qed.

End LongLine.

(** X6.  A line of the file is not always a line of the scan.  When 511
    characters without a newline come first, [fgets] hands them out as a
    buffer of their own, and what follows them on the same line is
    scanned as if it started a line: with a run no format accepts, the
    call returns the code and leaves the heap that it would without the
    run. *)
Theorem long_line_read_in_pieces
        (pa ps : loc) (hp : ptr) (h : gmap loc Z) (run content : string) :
  pa <> ps -> hp <> Some pa -> hp <> Some ps ->
  String.length run = 511%nat -> no_newline run = true ->
  unrecognized run = true ->
  lines_of (call pa ps hp h (run ++ content)%string true)
  = run :: lines_of (call pa ps hp h content true) /\
  code (call pa ps hp h (run ++ content)%string true)
  = code (call pa ps hp h content true) /\
  heap (snd (call pa ps hp h (run ++ content)%string true))
  = heap (snd (call pa ps hp h content true)).
Proof.
  intros Hps Hha Hhs Hlen Hplain Hun.
  rewrite !(outcome_lines pa ps hp Hps Hha Hhs).
  rewrite !(getAvailableMemory_opened pa ps hp Hps Hha Hhs).
  unfold code. cbn [fst snd heap].
  rewrite (lines_scanned_long hp run content Hlen Hplain Hun).
  rewrite (final_state_long hp run content Hlen Hplain Hun).
  repeat split.
Qed.

Lemma long_line_read_in_pieces_witness :
  lines_of (call 1%positive 2%positive (Some 3%positive) ∅
                 (spaces 511 ++ example_source)%string true)
  = spaces 511
    :: lines_of (call 1%positive 2%positive (Some 3%positive) ∅
                      example_source true) /\
  code (call 1%positive 2%positive (Some 3%positive) ∅
             (spaces 511 ++ example_source)%string true)
  = code (call 1%positive 2%positive (Some 3%positive) ∅ example_source true) /\
  heap (snd (call 1%positive 2%positive (Some 3%positive) ∅
                  (spaces 511 ++ example_source)%string true))
  = heap (snd (call 1%positive 2%positive (Some 3%positive) ∅
                    example_source true)).
Proof.
  apply (long_line_read_in_pieces 1%positive 2%positive (Some 3%positive) ∅
           (spaces 511) example_source).
  - discriminate.
  - discriminate.
  - discriminate.
  - vm_compute; reflexivity.
  - vm_compute; reflexivity.
  - vm_compute; reflexivity.
Defined.

(* ===================================================================== *)
(** ** What [main] writes *)
(* ===================================================================== *)

Section MainFacts.

Lemma lift_bind {A B} (m : M A) (k : A -> Proc B) p :
  bindP (lift m) k p
  = k (fst (m (sys p))) (Process (snd (m (sys p))) (stdout p)).
Proof. unfold bindP, lift. destruct (m (sys p)). reflexivity. Qed.

Lemma printf_bind {B} fmt arg (k : Z -> Proc B) p :
  bindP (printf fmt arg) k p
  = k (Z.of_nat (String.length (printf_text fmt arg)))
      (Process (sys p) (stdout p ++ printf_text fmt arg)).
Proof. reflexivity. Qed.

Lemma retP_bind {A B} (x : A) (k : A -> Proc B) p : bindP (retP x) k p = k x p.
Proof. reflexivity. Qed.

Lemma then_retP {A B} (m : Proc A) (x : B) p :
  bindP m (fun _ => retP x) p = (x, snd (m p)).
Proof. unfold bindP, retP. destruct (m p). reflexivity. Qed.

Lemma printf_text_Available a :
  printf_text ("Available: %ld KB" ++ nl) a
  = ("Available: " ++ print_long a ++ " KB" ++ nl)%string.
Proof. reflexivity. Qed.

Lemma printf_text_Free_Swap s :
  printf_text ("Free Swap: %ld KB" ++ nl) s
  = ("Free Swap: " ++ print_long s ++ " KB" ++ nl)%string.
Proof. reflexivity. Qed.

Lemma printf_text_Free_Huge_Pages g :
  printf_text ("Free Huge Pages: %ld KB" ++ nl) g
  = ("Free Huge Pages: " ++ print_long g ++ " KB" ++ nl)%string.
Proof. reflexivity. Qed.

Lemma report_written a s g :
  (((EmptyString ++ printf_text ("Available: %ld KB" ++ nl) a)
    ++ printf_text ("Free Swap: %ld KB" ++ nl) s)
   ++ printf_text ("Free Huge Pages: %ld KB" ++ nl) g)%string
  = report a s g.
Proof.
  rewrite printf_text_Available, printf_text_Free_Swap, printf_text_Free_Huge_Pages.
  unfold report. rewrite !string_app_assoc. reflexivity.
Qed.

(** The three locals have addresses of their own. *)
Lemma fresh_ne_1 (h : gmap loc Z) l v : fresh (dom (<[l := v]> h)) <> l.
Proof.
  intros E. apply (is_fresh (dom (<[l := v]> h))). rewrite E.
  apply elem_of_dom. rewrite lookup_insert_eq. eauto.
Qed.

Lemma fresh_ne_2 (h : gmap loc Z) l l' v v' :
  fresh (dom (<[l' := v']> (<[l := v]> h))) <> l.
Proof.
  intros E. apply (is_fresh (dom (<[l' := v']> (<[l := v]> h)))). rewrite E.
  rewrite !dom_insert. set_solver.
Qed.

(** Whether huge pages are asked for matters to the scan, not through
    which pointer. *)
Lemma scanned_requested l l' lines t :
  scanned (Some l) lines t = scanned (Some l') lines t.
Proof.
  revert t. induction lines as [|b bs IH]; intros t; [reflexivity|].
  rewrite !scanned_cons, IH. reflexivity.
Qed.

Lemma final_state_requested l l' content :
  final_state (Some l) content = final_state (Some l') content.
Proof.
  unfold final_state, lines_scanned.
  rewrite (scanned_requested l l'). reflexivity.
Qed.

Variables (argc : Z) (argv : list string) (i1 i2 i3 : Z).
Variables (h : gmap loc Z) (content : string) (ph : loc).

(** [main] on a file that opens. *)
Lemma main_opened :
  status (main argc argv i1 i2 i3 (at_start h content true)) = 0 /\
  written (main argc argv i1 i2 i3 (at_start h content true))
  = if result_code (final_state (Some ph) content) =? 0
    then report (t_avail (final_state (Some ph) content))
                (t_swap (final_state (Some ph) content))
                (huge_free_kb (t_hugetlb (final_state (Some ph) content)))
    else EmptyString.
Proof.
  unfold main, at_start, before.
  rewrite lift_bind. cbn [alloca sys stdout heap meminfo readable stream log fst snd].
  set (l1 := fresh (dom h)). set (h1 := <[l1 := i1]> h).
  rewrite lift_bind. cbn [alloca sys stdout heap meminfo readable stream log fst snd].
  set (l2 := fresh (dom h1)). set (h2 := <[l2 := i2]> h1).
  rewrite lift_bind. cbn [alloca sys stdout heap meminfo readable stream log fst snd].
  set (l3 := fresh (dom h2)). set (h3 := <[l3 := i3]> h2).
  assert (H21 : l1 <> l2) by (apply not_eq_sym, fresh_ne_1).
  assert (H31 : Some l3 <> Some l1) by (intros [= E]; exact (fresh_ne_2 _ _ _ _ _ E)).
  assert (H32 : Some l3 <> Some l2) by (intros [= E]; exact (fresh_ne_1 _ _ _ E)).
  rewrite lift_bind. cbn [sys stdout].
  change (World h3 content true None []) with (before h3 content true).
  rewrite (getAvailableMemory_opened l1 l2 (Some l3) H21 H31 H32).
  cbn [fst snd]. rewrite (final_state_requested l3 ph).
  set (t := final_state (Some ph) content).
  rewrite then_retP. unfold status, written. cbn [fst snd].
  split; [reflexivity|].
  destruct (result_code t =? 0) eqn:Hr; [|reflexivity].
  - rewrite lift_bind. cbn [load sys stdout heap fst snd].
    rewrite final_heap_avail by assumption.
    cbn [default from_option id]. rewrite printf_bind. cbn [sys stdout].
    rewrite lift_bind. cbn [load sys stdout heap fst snd].
    rewrite final_heap_swap by assumption.
    cbn [default from_option id]. rewrite printf_bind. cbn [sys stdout].
    rewrite lift_bind. cbn [load sys stdout heap fst snd].
    rewrite (final_heap_huge l1 l2 (Some l3) H31 H32 _ _ l3 eq_refl), Hr.
    cbn [default from_option id]. rewrite printf_bind. cbn [sys stdout].
    rewrite !lift_bind. unfold retP. cbn [snd stdout].
    apply report_written.
Qed.

(** [main] on a file that does not open. *)
Lemma main_unopened :
  status (main argc argv i1 i2 i3 (at_start h content false)) = 0 /\
  written (main argc argv i1 i2 i3 (at_start h content false)) = EmptyString.
Proof. split; reflexivity. Qed.

End MainFacts.

(* ===================================================================== *)
(** ** Fields that a scan cannot miss *)
(* ===================================================================== *)

Section FieldFound.

Variables (hp : ptr) (lines : list string) (fmt b : string) (x : Z).
Hypothesis b_value : sscanf b fmt = Some x.
Hypothesis b_in : b ∈ lines.
Hypothesis one_value :
  forall b', b' ∈ lines -> sscanf b' fmt = None \/ sscanf b' fmt = Some x.
Hypothesis awaited :
  forall ls, exit_condition hp ls = true -> resolved fmt ls = true.

(** A field whose lines all carry the one value, and without which the
    loop is not left, has that value over the buffers scanned. *)
Lemma field_found : field_value fmt (scanned hp lines unset) = x.
Proof.
  unfold field_value. destruct (stopped hp lines unset) eqn:E.
  - apply scanned_by_break in E. rewrite satisfied_exit_condition in E.
    apply awaited in E. unfold resolved, field_value in E.
    apply negb_true_iff, Z.eqb_neq in E.
    destruct (last_value_stable fmt x (scanned hp lines unset) (-1)) as [H|H];
      [ | contradiction | exact H ].
    intros b' Hb'. apply one_value. eapply scanned_subset. exact Hb'.
  - rewrite (scanned_to_the_end _ _ _ E).
    apply (last_value_found fmt x lines (-1) b); assumption.
Qed.

End FieldFound.

Lemma exit_awaits_mandatory hp fmt ls :
  fmt = fmt_MemAvailable \/ fmt = fmt_SwapFree ->
  exit_condition hp ls = true -> resolved fmt ls = true.
Proof.
  unfold exit_condition. intros Hfmt H.
  apply andb_true_iff in H as [H _]. apply andb_true_iff in H as [Ha Hs].
  destruct Hfmt as [-> | ->]; assumption.
Qed.

Lemma exit_awaits_huge ph fmt ls :
  fmt = fmt_HugePages_Total \/ fmt = fmt_HugePages_Free \/ fmt = fmt_Hugepagesize ->
  exit_condition (Some ph) ls = true -> resolved fmt ls = true.
Proof.
  unfold exit_condition. cbn [is_null orb]. intros Hfmt H.
  apply andb_true_iff in H as [_ H]. apply andb_true_iff in H as [H Hz].
  apply andb_true_iff in H as [Ht Hf].
  destruct Hfmt as [-> | [-> | ->]]; assumption.
Qed.

(** A source that has no entry for a field leaves it unset, however far
    the scan goes. *)
Lemma no_entry_unset hp fmt lines :
  has_entry fmt lines = false ->
  field_value fmt (scanned hp lines unset) = -1.
Proof.
  intros H. unfold field_value.
  apply (last_value_invariant (fun v => v = -1)); [|reflexivity].
  intros b v Hb Hv. apply scanned_subset in Hb.
  destruct (Z.eq_dec v (-1)) as [E|E]; [exact E|]. exfalso.
  assert (Ht : has_entry fmt lines = true); [|congruence].
  unfold has_entry. apply existsb_exists. exists b. split.
  - apply list_elem_of_In. exact Hb.
  - rewrite (pick_some _ _ _ _ Hv). apply negb_true_iff, Z.eqb_neq. exact E.
Qed.

Section FiveFields.

Variables (ph : loc) (lines others : list string).
Variables (X Y T F S : Z) (padX padY padT padF padS : nat).
Hypothesis X_range : 0 <= X <= LONG_MAX.
Hypothesis Y_range : 0 <= Y <= LONG_MAX.
Hypothesis T_range : 0 <= T <= LONG_MAX.
Hypothesis F_range : 0 <= F <= LONG_MAX.
Hypothesis S_range : 0 <= S <= LONG_MAX.
Hypothesis the_lines :
  Permutation lines
    (field_line "MemAvailable" padX X
     :: field_line "SwapFree" padY Y
     :: count_line "HugePages_Total" padT T
     :: count_line "HugePages_Free" padF F
     :: field_line "Hugepagesize" padS S
     :: others).
Hypothesis the_others : Forall (fun b => unrecognized b = true) others.

Lemma in_long_nonneg z : 0 <= z <= LONG_MAX -> in_long z.
Proof. unfold in_long, LONG_MIN, LONG_MAX. lia. Qed.

Lemma sscanf_MemAvailable_line :
  sscanf (field_line "MemAvailable" padX X) fmt_MemAvailable = Some X.
Proof.
  pose proof (sscanf_number fmt_MemAvailable padX X (" kB" ++ nl)
                in_formats_1 (in_long_nonneg _ X_range) eq_refl) as H.
  rewrite print_long_nonneg in H by lia. exact H.
Qed.

Lemma sscanf_SwapFree_line :
  sscanf (field_line "SwapFree" padY Y) fmt_SwapFree = Some Y.
Proof.
  pose proof (sscanf_number fmt_SwapFree padY Y (" kB" ++ nl)
                in_formats_2 (in_long_nonneg _ Y_range) eq_refl) as H.
  rewrite print_long_nonneg in H by lia. exact H.
Qed.

Lemma sscanf_HugePages_Total_line :
  sscanf (count_line "HugePages_Total" padT T) fmt_HugePages_Total = Some T.
Proof.
  pose proof (sscanf_number fmt_HugePages_Total padT T nl
                in_formats_3 (in_long_nonneg _ T_range) eq_refl) as H.
  rewrite print_long_nonneg in H by lia. exact H.
Qed.

Lemma sscanf_HugePages_Free_line :
  sscanf (count_line "HugePages_Free" padF F) fmt_HugePages_Free = Some F.
Proof.
  pose proof (sscanf_number fmt_HugePages_Free padF F nl
                in_formats_4 (in_long_nonneg _ F_range) eq_refl) as H.
  rewrite print_long_nonneg in H by lia. exact H.
Qed.

Lemma sscanf_Hugepagesize_line :
  sscanf (field_line "Hugepagesize" padS S) fmt_Hugepagesize = Some S.
Proof.
  pose proof (sscanf_number fmt_Hugepagesize padS S (" kB" ++ nl)
                in_formats_5 (in_long_nonneg _ S_range) eq_refl) as H.
  rewrite print_long_nonneg in H by lia. exact H.
Qed.

(** Each line of the source is one of the five, or one that no format
    accepts: a format finds its own value or nothing. *)
Lemma one_value_each fmt x b' :
  fmt ∈ formats ->
  (fmt = fmt_MemAvailable -> x = X) ->
  (fmt = fmt_SwapFree -> x = Y) ->
  (fmt = fmt_HugePages_Total -> x = T) ->
  (fmt = fmt_HugePages_Free -> x = F) ->
  (fmt = fmt_Hugepagesize -> x = S) ->
  b' ∈ lines -> sscanf b' fmt = None \/ sscanf b' fmt = Some x.
Proof.
  intros Hfmt HX HY HT HF HS Hb. rewrite the_lines in Hb.
  assert (Hown : forall f v, f ∈ formats -> sscanf b' f = Some v ->
                             (f = fmt -> v = x) ->
                             sscanf b' fmt = None \/ sscanf b' fmt = Some x).
  { intros f v Hf Hv Hsame. destruct (decide (f = fmt)) as [E|E].
    - right. rewrite <- (Hsame E), <- E. exact Hv.
    - left. exact (sscanf_other f fmt b' v Hf Hfmt E Hv). }
  repeat (apply elem_of_cons in Hb as [-> | Hb]).
  - apply (Hown _ _ in_formats_1 sscanf_MemAvailable_line).
    intros <-. symmetry. apply HX. reflexivity.
  - apply (Hown _ _ in_formats_2 sscanf_SwapFree_line).
    intros <-. symmetry. apply HY. reflexivity.
  - apply (Hown _ _ in_formats_3 sscanf_HugePages_Total_line).
    intros <-. symmetry. apply HT. reflexivity.
  - apply (Hown _ _ in_formats_4 sscanf_HugePages_Free_line).
    intros <-. symmetry. apply HF. reflexivity.
  - apply (Hown _ _ in_formats_5 sscanf_Hugepagesize_line).
    intros <-. symmetry. apply HS. reflexivity.
  - left. apply unrecognized_none; [|exact Hfmt].
    rewrite Forall_forall in the_others. apply the_others. exact Hb.
Qed.

Lemma five_fields_found :
  state_after (scanned (Some ph) lines unset) unset
  = Tracked X Y (Locals T F S).
Proof.
  rewrite final_fields.
  f_equal; [ | | f_equal ].
  - apply (field_found _ _ _ _ _ sscanf_MemAvailable_line).
    + rewrite the_lines. repeat constructor.
    + intros b'. apply one_value_each; auto with fmts; discriminate.
    + intros ls. apply exit_awaits_mandatory. auto.
  - apply (field_found _ _ _ _ _ sscanf_SwapFree_line).
    + rewrite the_lines. repeat constructor.
    + intros b'. apply one_value_each; auto with fmts; discriminate.
    + intros ls. apply exit_awaits_mandatory. auto.
  - apply (field_found _ _ _ _ _ sscanf_HugePages_Total_line).
    + rewrite the_lines. repeat constructor.
    + intros b'. apply one_value_each; auto with fmts; discriminate.
    + intros ls. apply exit_awaits_huge. auto.
  - apply (field_found _ _ _ _ _ sscanf_HugePages_Free_line).
    + rewrite the_lines. repeat constructor.
    + intros b'. apply one_value_each; auto with fmts; discriminate.
    + intros ls. apply exit_awaits_huge. auto.
  - apply (field_found _ _ _ _ _ sscanf_Hugepagesize_line).
    + rewrite the_lines. repeat constructor.
    + intros b'. apply one_value_each; auto with fmts; discriminate.
    + intros ls. apply exit_awaits_huge. auto.
Qed.

End FiveFields.

Lemma huge_free_kb_five T F S :
  0 <= T -> 0 <= F -> 0 <= S -> F * S <= LONG_MAX ->
  huge_free_kb (Locals T F S) = if 0 <? T then F * S else 0.
Proof.
  intros HT HF HS Hfit. unfold huge_free_kb.
  cbn [hugeTlbTotalPages hugeTlbFreePages hugeTlbPageSize].
  rewrite Z.gtb_ltb.
  destruct (0 <? T); [|reflexivity].
  destruct (F =? -1) eqn:EF; [apply Z.eqb_eq in EF; lia|].
  destruct (S =? -1) eqn:ES; [apply Z.eqb_eq in ES; lia|].
  cbn [andb negb]. apply long_mul_exact.
  unfold in_long, LONG_MIN. unfold LONG_MAX in *. nia.
Qed.

Lemma result_code_found X Y l :
  0 <= X -> 0 <= Y -> result_code (Tracked X Y l) = 0.
Proof. intros HX HY. apply result_code_0. cbn [t_avail t_swap]. lia. Qed.

(** X7.  A source with one line for each of the five fields, in any
    order and among lines that no format accepts, is reported in full
    when huge pages are asked for: the call succeeds, the two mandatory
    cells hold the values of their lines, and the huge-page cell holds
    free pages times page size if the total is positive and 0 if it is
    zero.  The values are non-negative and within [long], and so is the
    product. *)
Theorem five_fields_reported
        (pa ps ph : loc) (h : gmap loc Z) (content : string)
        (X Y T F S : Z) (padX padY padT padF padS : nat)
        (others : list string) :
  pa <> ps -> ph <> pa -> ph <> ps ->
  0 <= X <= LONG_MAX -> 0 <= Y <= LONG_MAX -> 0 <= T <= LONG_MAX ->
  0 <= F <= LONG_MAX -> 0 <= S <= LONG_MAX -> F * S <= LONG_MAX ->
  Permutation (fgets_lines content)
    (field_line "MemAvailable" padX X
     :: field_line "SwapFree" padY Y
     :: count_line "HugePages_Total" padT T
     :: count_line "HugePages_Free" padF F
     :: field_line "Hugepagesize" padS S
     :: others) ->
  Forall (fun b => unrecognized b = true) others ->
  code (call pa ps (Some ph) h content true) = 0 /\
  cell (call pa ps (Some ph) h content true) pa = Some X /\
  cell (call pa ps (Some ph) h content true) ps = Some Y /\
  cell (call pa ps (Some ph) h content true) ph
  = Some (if 0 <? T then F * S else 0).
Proof.
  intros Hps Hha Hhs HX HY HT HF HS Hfit Hperm Hothers.
  assert (Hha' : Some ph <> Some pa) by congruence.
  assert (Hhs' : Some ph <> Some ps) by congruence.
  rewrite (getAvailableMemory_opened pa ps (Some ph) Hps Hha' Hhs').
  unfold code, cell. cbn [fst snd heap].
  rewrite final_heap_avail, final_heap_swap by assumption.
  rewrite (final_heap_huge pa ps (Some ph) Hha' Hhs' _ _ ph eq_refl).
  unfold final_state, lines_scanned.
  rewrite (five_fields_found ph _ others X Y T F S padX padY padT padF padS)
    by assumption.
  cbn [t_avail t_swap t_hugetlb].
  rewrite result_code_found by lia. cbn [Z.eqb].
  rewrite huge_free_kb_five by lia. repeat split.
Qed.

Lemma five_fields_reported_witness :
  code (call 1%positive 2%positive (Some 3%positive) ∅ example_source true) = 0 /\
  cell (call 1%positive 2%positive (Some 3%positive) ∅ example_source true)
       1%positive = Some 524288 /\
  cell (call 1%positive 2%positive (Some 3%positive) ∅ example_source true)
       2%positive = Some 131072 /\
  cell (call 1%positive 2%positive (Some 3%positive) ∅ example_source true)
       3%positive = Some (if 0 <? 4 then 2 * 2048 else 0).
Proof.
  apply (five_fields_reported 1%positive 2%positive 3%positive ∅ example_source
           524288 131072 4 2 2048 4 8 6 7 6 []).
  - discriminate.
  - discriminate.
  - discriminate.
  - unfold LONG_MAX. lia.
  - unfold LONG_MAX. lia.
  - unfold LONG_MAX. lia.
  - unfold LONG_MAX. lia.
  - unfold LONG_MAX. lia.
  - unfold LONG_MAX. lia.
  - assert (E : fgets_lines example_source
                = [ field_line "MemAvailable" 4 524288;
                    field_line "SwapFree" 8 131072;
                    count_line "HugePages_Total" 6 4;
                    count_line "HugePages_Free" 7 2;
                    field_line "Hugepagesize" 6 2048 ])
      by (vm_compute; reflexivity).
    rewrite E. apply Permutation_refl.
  - constructor.
Defined.

(** X8.  On a source with one line for each of the five fields, in any
    order and among lines that no format accepts, [main] writes the three
    lines of its report (available memory, free swap, and free pages
    times page size if the total is positive, else 0) and ends with
    status 0, whatever its locals held at the start. *)
Theorem main_prints_report
        (argc : Z) (argv : list string) (i1 i2 i3 : Z)
        (h : gmap loc Z) (content : string)
        (X Y T F S : Z) (padX padY padT padF padS : nat)
        (others : list string) :
  0 <= X <= LONG_MAX -> 0 <= Y <= LONG_MAX -> 0 <= T <= LONG_MAX ->
  0 <= F <= LONG_MAX -> 0 <= S <= LONG_MAX -> F * S <= LONG_MAX ->
  Permutation (fgets_lines content)
    (field_line "MemAvailable" padX X
     :: field_line "SwapFree" padY Y
     :: count_line "HugePages_Total" padT T
     :: count_line "HugePages_Free" padF F
     :: field_line "Hugepagesize" padS S
     :: others) ->
  Forall (fun b => unrecognized b = true) others ->
  status (main argc argv i1 i2 i3 (at_start h content true)) = 0 /\
  written (main argc argv i1 i2 i3 (at_start h content true))
  = report X Y (if 0 <? T then F * S else 0).
Proof.
  intros HX HY HT HF HS Hfit Hperm Hothers.
  destruct (main_opened argc argv i1 i2 i3 h content 1%positive) as [Hst Hw].
  split; [exact Hst|]. rewrite Hw. unfold final_state, lines_scanned.
  rewrite (five_fields_found 1%positive _ others X Y T F S
             padX padY padT padF padS) by assumption.
  cbn [t_avail t_swap t_hugetlb].
  rewrite result_code_found by lia. cbn [Z.eqb].
  rewrite huge_free_kb_five by lia. reflexivity.
Qed.

Lemma main_prints_report_witness :
  status (main 1 [] 7 8 9 (at_start ∅ example_source true)) = 0 /\
  written (main 1 [] 7 8 9 (at_start ∅ example_source true))
  = report 524288 131072 (if 0 <? 4 then 2 * 2048 else 0).
Proof.
  apply (main_prints_report 1 [] 7 8 9 ∅ example_source
           524288 131072 4 2 2048 4 8 6 7 6 []).
  - unfold LONG_MAX. lia.
  - unfold LONG_MAX. lia.
  - unfold LONG_MAX. lia.
  - unfold LONG_MAX. lia.
  - unfold LONG_MAX. lia.
  - unfold LONG_MAX. lia.
  - assert (E : fgets_lines example_source
                = [ field_line "MemAvailable" 4 524288;
                    field_line "SwapFree" 8 131072;
                    count_line "HugePages_Total" 6 4;
                    count_line "HugePages_Free" 7 2;
                    field_line "Hugepagesize" 6 2048 ])
      by (vm_compute; reflexivity).
    rewrite E. apply Permutation_refl.
  - constructor.
Defined.

(** X9.  [main] tells a failure to nobody.  When the file cannot be
    opened, or has no entry for one of the two mandatory fields, it
    writes nothing, and its exit status is 0 all the same. *)
Theorem main_silent_on_failure
        (argc : Z) (argv : list string) (i1 i2 i3 : Z)
        (h : gmap loc Z) (content : string) (can_open : bool) :
  can_open = false \/
  has_entry fmt_MemAvailable (fgets_lines content) = false \/
  has_entry fmt_SwapFree (fgets_lines content) = false ->
  status (main argc argv i1 i2 i3 (at_start h content can_open)) = 0 /\
  written (main argc argv i1 i2 i3 (at_start h content can_open)) = EmptyString.
Proof.
  intros H. destruct can_open; [|apply main_unopened].
  destruct H as [H | H]; [discriminate|].
  destruct (main_opened argc argv i1 i2 i3 h content 1%positive) as [Hst Hw].
  split; [exact Hst|]. rewrite Hw.
  set (t := final_state _ content).
  assert (Hc : result_code t = 1).
  { apply result_code_1. unfold t, final_state, lines_scanned.
    rewrite final_fields. cbn [t_avail t_swap].
    destruct H as [H | H]; [left | right]; apply no_entry_unset; exact H. }
  rewrite Hc. reflexivity.
Qed.

Lemma main_silent_on_failure_witness :
  status (main 1 [] 7 8 9 (at_start ∅ partial_source true)) = 0 /\
  written (main 1 [] 7 8 9 (at_start ∅ partial_source true)) = EmptyString.
Proof.
  apply (main_silent_on_failure 1 [] 7 8 9 ∅ partial_source true).
  right; right. vm_compute; reflexivity.
Defined.

(** X10.  [main] reads none of its three locals before
    [getAvailableMemory] has written it: what it writes and the status it
    ends with are the same whatever the locals held when it was entered,
    whatever the heap held, and whatever its arguments are. *)
Theorem main_reads_no_indeterminate_value
        (argc argc' : Z) (argv argv' : list string) (i1 i2 i3 i1' i2' i3' : Z)
        (h h' : gmap loc Z) (content : string) (can_open : bool) :
  status (main argc argv i1 i2 i3 (at_start h content can_open))
  = status (main argc' argv' i1' i2' i3' (at_start h' content can_open)) /\
  written (main argc argv i1 i2 i3 (at_start h content can_open))
  = written (main argc' argv' i1' i2' i3' (at_start h' content can_open)).
Proof.
  destruct can_open.
  - destruct (main_opened argc argv i1 i2 i3 h content 1%positive) as [-> ->].
    destruct (main_opened argc' argv' i1' i2' i3' h' content 1%positive) as [-> ->].
    split; reflexivity.
  - destruct (main_unopened argc argv i1 i2 i3 h content) as [-> ->].
    destruct (main_unopened argc' argv' i1' i2' i3' h' content) as [-> ->].
    split; reflexivity.
Qed.

(* ===================================================================== *)
(** ** Huge-page lines when huge pages are not asked for *)
(* ===================================================================== *)

Section NotAskedFor.

Lemma satisfied_None t t' :
  mandatory_part t = mandatory_part t' -> satisfied None t = satisfied None t'.
Proof.
  unfold mandatory_part, satisfied, early_exit. intros [= -> ->]. reflexivity.
Qed.

Lemma update_mandatory_part b t t' :
  mandatory_part t = mandatory_part t' ->
  mandatory_part (update b t) = mandatory_part (update b t').
Proof.
  unfold mandatory_part. intros [= Ha Hs]. rewrite !update_pick.
  cbn [t_avail t_swap]. rewrite Ha, Hs. reflexivity.
Qed.

Lemma huge_line_mandatory_part b t :
  huge_line b = true -> mandatory_part (update b t) = mandatory_part t.
Proof.
  unfold huge_line, accepts. intros H. rewrite update_pick.
  unfold mandatory_part. cbn [t_avail t_swap].
  assert (Hother : exists fmt v, fmt ∈ formats /\ fmt <> fmt_MemAvailable /\
                                 fmt <> fmt_SwapFree /\ sscanf b fmt = Some v).
  { destruct (sscanf b fmt_HugePages_Total) as [v|] eqn:E1.
    { exists fmt_HugePages_Total, v. repeat split; auto with fmts; discriminate. }
    destruct (sscanf b fmt_HugePages_Free) as [v|] eqn:E2.
    { exists fmt_HugePages_Free, v. repeat split; auto with fmts; discriminate. }
    destruct (sscanf b fmt_Hugepagesize) as [v|] eqn:E3; [|discriminate].
    exists fmt_Hugepagesize, v. repeat split; auto with fmts; discriminate. }
  destruct Hother as (fmt & v & Hfmt & Ha & Hs & Hv).
  rewrite (pick_other fmt fmt_MemAvailable b v) by auto with fmts.
  rewrite (pick_other fmt fmt_SwapFree b v) by auto with fmts.
  reflexivity.
Qed.

(** With a null huge-page pointer the scan of a source and the scan of
    the source without its huge-page lines leave the same mandatory
    values. *)
Lemma scanned_without_huge_lines lines t t' :
  mandatory_part t = mandatory_part t' ->
  satisfied None t = false ->
  mandatory_part (state_after (scanned None lines t) t)
  = mandatory_part
      (state_after (scanned None (without_huge_lines lines) t') t').
Proof.
  revert t t'. induction lines as [|b bs IH]; intros t t' Hmp Hun.
  - exact Hmp.
  - unfold without_huge_lines. cbn [List.filter].
    fold (without_huge_lines bs). rewrite scanned_cons.
    destruct (huge_line b) eqn:Hb; cbn [negb].
    + pose proof (huge_line_mandatory_part b t Hb) as Hsame.
      rewrite (satisfied_None _ _ Hsame), Hun. rewrite state_after_cons.
      apply IH; [congruence|].
      rewrite (satisfied_None _ _ Hsame). exact Hun.
    + pose proof (update_mandatory_part b t t' Hmp) as Hnext.
      rewrite scanned_cons, <- (satisfied_None _ _ Hnext).
      destruct (satisfied None (update b t)) eqn:Hsat.
      * rewrite !state_after_cons, !state_after_nil. exact Hnext.
      * rewrite !state_after_cons. apply IH; assumption.
Qed.

Lemma result_code_mandatory_part t t' :
  mandatory_part t = mandatory_part t' -> result_code t = result_code t'.
Proof. unfold mandatory_part, result_code. intros [= -> ->]. reflexivity. Qed.

End NotAskedFor.

(** X11.  With a null huge-page pointer the huge-page lines of the file
    are as good as absent: two files that differ in their huge-page lines
    only, wherever these stand, give the same return code and leave the
    same heap.  No huge-page line is needed, and none can do harm. *)
Theorem huge_lines_ignored_when_not_asked
        (pa ps : loc) (h : gmap loc Z) (content content' : string) :
  pa <> ps ->
  without_huge_lines (fgets_lines content)
  = without_huge_lines (fgets_lines content') ->
  code (call pa ps None h content true) = code (call pa ps None h content' true) /\
  heap (snd (call pa ps None h content true))
  = heap (snd (call pa ps None h content' true)).
Proof.
  intros Hps Hsame.
  rewrite !(getAvailableMemory_opened pa ps None Hps) by discriminate.
  unfold code. cbn [fst snd heap final_heap].
  assert (Hmp : mandatory_part (final_state None content)
                = mandatory_part (final_state None content')).
  { unfold final_state, lines_scanned.
    rewrite (scanned_without_huge_lines (fgets_lines content) unset unset)
      by reflexivity.
    rewrite (scanned_without_huge_lines (fgets_lines content') unset unset)
      by reflexivity.
    rewrite Hsame. reflexivity. }
  split; [apply result_code_mandatory_part; exact Hmp|].
  unfold mandatory_part in Hmp. injection Hmp as -> ->. reflexivity.
Qed.

Lemma huge_lines_ignored_when_not_asked_witness :
  code (call 1%positive 2%positive None ∅ example_source true)
  = code (call 1%positive 2%positive None ∅ no_huge_source true) /\
  heap (snd (call 1%positive 2%positive None ∅ example_source true))
  = heap (snd (call 1%positive 2%positive None ∅ no_huge_source true)).
Proof.
  apply (huge_lines_ignored_when_not_asked 1%positive 2%positive ∅
           example_source no_huge_source).
  - discriminate.
  - vm_compute; reflexivity.
Defined.

(* ===================================================================== *)
(** ** Asking for huge pages *)
(* ===================================================================== *)

Lemma satisfied_Some_None ph t :
  satisfied (Some ph) t = true -> satisfied None t = true.
Proof.
  unfold satisfied, early_exit. cbn [is_null orb]. intros H.
  apply andb_true_iff in H as [H _]. rewrite H. reflexivity.
Qed.

Lemma scanned_None_first ph lines t :
  exists more,
    scanned (Some ph) lines t = (scanned None lines t ++ more)%list.
Proof.
  revert t. induction lines as [|b bs IH]; intros t.
  - exists []. reflexivity.
  - rewrite !scanned_cons.
    destruct (satisfied (Some ph) (update b t)) eqn:Hs.
    + rewrite (satisfied_Some_None _ _ Hs). exists []. reflexivity.
    + destruct (satisfied None (update b t)).
      * exists (scanned (Some ph) bs (update b t)). reflexivity.
      * destruct (IH (update b t)) as [more Hmore]. exists more.
        rewrite Hmore. reflexivity.
Qed.

(** X12.  Asking for huge pages never makes a call read less: what the
    call with a null huge-page pointer reads is what the call with a
    huge-page pointer reads first. *)
Theorem huge_pages_lengthen_the_scan
        (pa ps ph : loc) (h h' : gmap loc Z) (content : string) :
  pa <> ps -> ph <> pa -> ph <> ps ->
  exists more,
    lines_of (call pa ps (Some ph) h content true)
    = (lines_of (call pa ps None h' content true) ++ more)%list.
Proof.
  intros Hps Hha Hhs.
  rewrite (outcome_lines pa ps (Some ph) Hps) by congruence.
  rewrite (outcome_lines pa ps None Hps) by discriminate.
  apply scanned_None_first.
Qed.

Lemma huge_pages_lengthen_the_scan_witness :
  exists more,
    lines_of (call 1%positive 2%positive (Some 3%positive) ∅ example_source true)
    = (lines_of (call 1%positive 2%positive None ∅ example_source true)
       ++ more)%list.
Proof.
  apply (huge_pages_lengthen_the_scan 1%positive 2%positive 3%positive);
    discriminate.
Defined.

(* ===================================================================== *)
(** ** Worked examples *)
(* ===================================================================== *)

Example sscanf_reads_padded_number :
  sscanf ("MemAvailable:    524288 kB" ++ nl) "MemAvailable: %ld kB" = Some 524288.
Proof. vm_compute. reflexivity. Qed.

Example sscanf_reads_sign_without_blank :
  sscanf "MemAvailable:-5" "MemAvailable: %ld kB" = Some (-5).
Proof. vm_compute. reflexivity. Qed.

Example sscanf_reads_leading_digits :
  sscanf "MemAvailable: 12abc" "MemAvailable: %ld kB" = Some 12.
Proof. vm_compute. reflexivity. Qed.

Example sscanf_stops_at_a_point :
  sscanf "MemAvailable: 3.5" "MemAvailable: %ld kB" = Some 3.
Proof. vm_compute. reflexivity. Qed.

Example sscanf_reads_no_hexadecimal :
  sscanf "MemAvailable: 0x1A" "MemAvailable: %ld kB" = Some 0.
Proof. vm_compute. reflexivity. Qed.

Example sscanf_needs_a_digit :
  sscanf "MemAvailable: kB" "MemAvailable: %ld kB" = None.
Proof. vm_compute. reflexivity. Qed.

Example sscanf_label_at_start_only :
  sscanf " MemAvailable: 5 kB" "MemAvailable: %ld kB" = None.
Proof. vm_compute. reflexivity. Qed.

Example sscanf_saturates :
  sscanf "SwapFree: 99999999999999999999999 kB" "SwapFree: %ld kB" = Some LONG_MAX.
Proof. vm_compute. reflexivity. Qed.

Example fgets_stops_after_newline :
  fgets 512 ("ab" ++ nl ++ "cd") = Some (("ab" ++ nl)%string, "cd").
Proof. vm_compute. reflexivity. Qed.

(** The end-to-end example: seven library calls, three cells written. *)
Example run_example_source :
  getAvailableMemory (Some 1%positive) (Some 2%positive) (Some 3%positive)
    (before ∅ example_source true)
  = (0, World (<[3%positive := 4096]>
                 (<[1%positive := 524288]> (<[2%positive := 131072]> ∅)))
              example_source true None
              [ EvFopen true;
                EvFgets (Some ("MemAvailable:    524288 kB" ++ nl)%string);
                EvFgets (Some ("SwapFree:        131072 kB" ++ nl)%string);
                EvFgets (Some ("HugePages_Total:      4" ++ nl)%string);
                EvFgets (Some ("HugePages_Free:       2" ++ nl)%string);
                EvFgets (Some ("Hugepagesize:      2048 kB" ++ nl)%string);
                EvFclose ]).
Proof. vm_compute. reflexivity. Qed.

Example ten_pages_four_free :
  cell (getAvailableMemory (Some 1%positive) (Some 2%positive) (Some 3%positive)
          (before ∅ (text [ "MemAvailable: 1 kB"; "HugePages_Total: 10";
                            "HugePages_Free: 4"; "Hugepagesize: 2048 kB";
                            "SwapFree: 1 kB" ]) true))
       3%positive
  = Some 8192.
Proof. vm_compute. reflexivity. Qed.

Example no_pages_configured :
  cell (getAvailableMemory (Some 1%positive) (Some 2%positive) (Some 3%positive)
          (before ∅ (text [ "MemAvailable: 1 kB"; "HugePages_Total: 0";
                            "HugePages_Free: 4"; "Hugepagesize: 2048 kB";
                            "SwapFree: 1 kB" ]) true))
       3%positive
  = Some 0.
Proof. vm_compute. reflexivity. Qed.

(** With huge pages asked for, a huge-page line can decide between
    success and failure when a later line carries the sentinel: with the
    [Hugepagesize] line the scan ends before [MemAvailable: -1], without
    it the scan goes on and the field is unset again. *)
Example huge_line_before_sentinel :
  code (getAvailableMemory (Some 1%positive) (Some 2%positive) (Some 3%positive)
          (before ∅ (text [ "MemAvailable: 5 kB"; "SwapFree: 3 kB";
                            "HugePages_Total: 1"; "HugePages_Free: 1";
                            "Hugepagesize: 4 kB"; "MemAvailable: -1 kB" ]) true))
  = 0 /\
  code (getAvailableMemory (Some 1%positive) (Some 2%positive) (Some 3%positive)
          (before ∅ (text [ "MemAvailable: 5 kB"; "SwapFree: 3 kB";
                            "HugePages_Total: 1"; "HugePages_Free: 1";
                            "MemAvailable: -1 kB" ]) true))
  = 1.
Proof. split; vm_compute; reflexivity. Qed.

(** The product of line 69 is taken in [long]. *)
Example huge_product_wraps :
  cell (getAvailableMemory (Some 1%positive) (Some 2%positive) (Some 3%positive)
          (before ∅ (text [ "MemAvailable: 1 kB"; "HugePages_Total: 1";
                            "HugePages_Free: 4611686018427387904";
                            "Hugepagesize: 4 kB"; "SwapFree: 1 kB" ]) true))
       3%positive
  = Some 0.
Proof. vm_compute. reflexivity. Qed.

(** The two mandatory pointers are meant to differ: given the same cell
    twice, the routine takes the one value for both fields. *)
Example aliased_mandatory_pointers :
  getAvailableMemory (Some 1%positive) (Some 1%positive) None
    (before ∅ partial_source true)
  = (0, World (<[1%positive := 5]> ∅) partial_source true None
              [ EvFopen true;
                EvFgets (Some ("MemAvailable: 5 kB" ++ nl)%string);
                EvFclose ]).
Proof. vm_compute. reflexivity. Qed.

(** What [main] does on the example source: three cells of its own, the
    seven library calls, three lines written. *)
Example main_on_example_source :
  main 1 [] 7 8 9 (at_start ∅ example_source true)
  = (0, Process (snd (call 1%positive 2%positive (Some 3%positive) ∅
                           example_source true))
                example_report).
Proof. vm_compute. reflexivity. Qed.

Example printf_writes_a_sign :
  printf_text ("Available: %ld KB" ++ nl) (-12) = text [ "Available: -12 KB" ].
Proof. reflexivity. Qed.

(** A label that stands behind 511 blanks on its line is taken for a
    field: it heads the second buffer of that line. *)
Example label_behind_a_long_run :
  sscanf (spaces 511 ++ "MemAvailable: 7 kB" ++ nl) "MemAvailable: %ld kB" = None /\
  getAvailableMemory (Some 1%positive) (Some 2%positive) None
    (before ∅ (spaces 511 ++ text [ "MemAvailable: 7 kB"; "SwapFree: 1 kB" ]) true)
  = (0, World (<[1%positive := 7]> (<[2%positive := 1]> ∅))
              (spaces 511 ++ text [ "MemAvailable: 7 kB"; "SwapFree: 1 kB" ])
              true None
              [ EvFopen true;
                EvFgets (Some (spaces 511));
                EvFgets (Some ("MemAvailable: 7 kB" ++ nl)%string);
                EvFgets (Some ("SwapFree: 1 kB" ++ nl)%string);
                EvFclose ]).
Proof. split; vm_compute; reflexivity. Qed.

(** A line that carries the sentinel keeps its field unresolved, and the
    scan goes on: the third line decides what is returned. *)
Example value_after_the_sentinel :
  cell (call 1%positive 2%positive None ∅ late_value_source true) 1%positive
  = Some 9 /\
  cell (call 1%positive 2%positive None ∅
             (text [ "MemAvailable: -1 kB"; "SwapFree: 3 kB";
                     "MemAvailable: 7 kB" ]) true) 1%positive
  = Some 7.
Proof. split; vm_compute; reflexivity. Qed.
